(** * VideoLingo: timing analysis, chunk planning, speed solving and timeline
      rendering of the dubbing pipeline

    A shallow embedding of
      - [core/_6_gen_sub.py]     (get_sentence_timestamps),
      - [core/_8_2_dub_chunks.py] (calc_if_too_fast, merge_rows,
                                   analyze_subtitle_timing_and_speed,
                                   process_cutoffs),
      - [core/_10_gen_audio.py]  (adjust_audio_speed, generate_tts_audio,
                                   process_chunk, merge_chunks).

    Modelling conventions.
      - Python floats are idealised as exact rationals [Q]; every comparison
        and arithmetic operation of the source is kept, in the source's order.
      - A pandas DataFrame is a list of row records; [df.at[i, col] = v] is an
        update of the list at position [i] (the frames have a RangeIndex).
      - Exceptions are values of [result]; division by zero leaves the
        rational model and is reported as [ZeroDivisionError].
      - The external collaborators (ffmpeg, the synthesizer, the duration
        estimator, the Unicode tables behind [re] and [str.lower]) are
        parameters. *)

From Stdlib Require Import QArith Qround Qabs Qminmax ZArith Lia Lqa Bool.
From Stdlib Require Import Ascii String.
From stdpp Require Import base list strings gmap.

Local Open Scope Q_scope.

(** ** Python numerics on rationals *)

Module Py.

Definition ltb (x y : Q) : bool := negb (Qle_bool y x).
Definition leb (x y : Q) : bool := Qle_bool x y.
Definition gtb (x y : Q) : bool := ltb y x.
Definition geb (x y : Q) : bool := leb y x.

(** [max(a, b)]: the first argument is kept unless the second is greater. *)
Definition max (a b : Q) : Q := if gtb b a then b else a.
(** [min(a, b)]: the first argument is kept unless the second is smaller. *)
Definition min (a b : Q) : Q := if ltb b a then b else a.

(** [int(x)]: truncation toward zero. *)
Definition int (x : Q) : Z := Z.quot (Qnum x) (Zpos (Qden x)).

(** [round(x)]: the nearest integer, ties to the even one. *)
Definition round_half_even (x : Q) : Z :=
  let f := Qfloor x in
  let r := x - inject_Z f in
  if ltb r (1 # 2) then f
  else if gtb r (1 # 2) then (f + 1)%Z
  else if Z.even f then f else (f + 1)%Z.

(** [round(x, 3)]. *)
Definition round3 (x : Q) : Q := round_half_even (x * 1000) # 1000.

End Py.

(** ** Exceptions *)

Inductive exn : Type :=
  | ZeroDivisionError
  | IndexError
  | ValueError
  | RuntimeError
  | CalledProcessError
  | FileNotFoundError
  | KeyError
  | TypeError
  | SynthesisError  (* the [Exception] that [tts_main] raises after its retries *)
  | OutOfFuel.  (* not a Python exception: a loop bound of the model ran out *)

Inductive result (A : Type) : Type :=
  | Ok (a : A)
  | Raise (e : exn).
Arguments Ok {A} a.
Arguments Raise {A} e.

Definition bind {A B : Type} (m : result A) (k : A -> result B) : result B :=
  match m with
  | Ok a => k a
  | Raise e => Raise e
  end.

Notation "'let*' x ':=' m 'in' k" := (bind m (fun x => k))
  (at level 10, x pattern, m at level 100, k at level 200).

(** [a / b] on floats. *)
Definition fdiv (a b : Q) : result Q :=
  if Qeq_bool b 0 then Raise ZeroDivisionError else Ok (a / b).

(** ** Configuration ([load_key]) *)

Record config : Type := Config {
  cfg_tolerance : Q;   (* "tolerance" *)
  cfg_accept : Q;      (* "speed_factor.accept" *)
  cfg_min_speed : Q    (* "speed_factor.min" *)
}.

(** ** [core/_8_2_dub_chunks.py] *)

Definition MAX_MERGE_COUNT : nat := 5.

Definition calc_if_too_fast (cfg : config)
    (est_dur tol_dur duration tolerance : Q) : result Z :=
  let accept_speed := cfg_accept cfg in
  let* q := fdiv est_dur accept_speed in
  if Py.gtb q tol_dur then Ok 2%Z
  else if Py.gtb est_dur tol_dur then Ok 1%Z
  else if Py.ltb est_dur (duration - tolerance) then Ok (-1)%Z
  else Ok 0%Z.

(** A [datetime.time] value, as [pd.to_datetime(...).dt.time] yields it. *)
Record time : Type := Time {
  hour : Z;
  minute : Z;
  second : Z;
  microsecond : Z
}.

(** [t.hour * 3600 + t.minute * 60 + t.second + t.microsecond / 1e6] *)
Definition seconds_of_time (t : time) : Q :=
  inject_Z (hour t) * 3600 + inject_Z (minute t) * 60 + inject_Z (second t)
  + inject_Z (microsecond t) / 1000000.

(** Modelled from the spec: [time_diff_seconds] is imported from
    [core/_8_1_audio_task.py], which does not define it in this revision.
    The spec gives its value at the only call site: gap[i] = start[i+1] -
    end[i], in seconds.  The third argument (today's date) only anchors the
    two times of day on one day. *)
Definition time_diff_seconds (t1 t2 : time) : Q :=
  seconds_of_time t2 - seconds_of_time t1.

(** A row of the frame that the analyzer and the planner work on.  A column
    that the source creates later ([df['gap'] = 0.0], [df['cut_off'] = 0])
    is a field whose earlier content is overwritten by that assignment. *)
Record line : Type := Line {
  number : Z;
  start_time_dt : time;
  end_time_dt : time;
  duration : Q;
  text : string;
  gap : Q;
  tolerance : Q;
  tol_dur : Q;
  est_dur : Q;
  if_too_fast : Z;
  cut_off : Z
}.

Definition set_gap (g : Q) (r : line) : line :=
  Line (number r) (start_time_dt r) (end_time_dt r) (duration r) (text r)
       g (tolerance r) (tol_dur r) (est_dur r) (if_too_fast r) (cut_off r).
Definition set_tolerance (t : Q) (r : line) : line :=
  Line (number r) (start_time_dt r) (end_time_dt r) (duration r) (text r)
       (gap r) t (tol_dur r) (est_dur r) (if_too_fast r) (cut_off r).
Definition set_tol_dur (t : Q) (r : line) : line :=
  Line (number r) (start_time_dt r) (end_time_dt r) (duration r) (text r)
       (gap r) (tolerance r) t (est_dur r) (if_too_fast r) (cut_off r).
Definition set_est_dur (e : Q) (r : line) : line :=
  Line (number r) (start_time_dt r) (end_time_dt r) (duration r) (text r)
       (gap r) (tolerance r) (tol_dur r) e (if_too_fast r) (cut_off r).
Definition set_if_too_fast (f : Z) (r : line) : line :=
  Line (number r) (start_time_dt r) (end_time_dt r) (duration r) (text r)
       (gap r) (tolerance r) (tol_dur r) (est_dur r) f (cut_off r).
Definition set_cut_off (c : Z) (r : line) : line :=
  Line (number r) (start_time_dt r) (end_time_dt r) (duration r) (text r)
       (gap r) (tolerance r) (tol_dur r) (est_dur r) (if_too_fast r) c.

(** [mapM] over a column: the first exception aborts. *)
Fixpoint mapM {A B : Type} (f : A -> result B) (l : list A) : result (list B) :=
  match l with
  | [] => Ok []
  | x :: l' =>
      let* y := f x in
      let* ys := mapM f l' in
      Ok (y :: ys)
  end.

Section Analyzer.

(** [estimate_duration(text, ESTIMATOR)] and
    [get_audio_duration(_RAW_AUDIO_FILE)]: external. *)
Variable estimate_duration : string -> Q.
Variable whole_dur : Q.
Variable cfg : config.

(** [for i in range(len(df) - 1): df.loc[i, 'gap'] = time_diff_seconds(
      df.loc[i, 'end_time_dt'], df.loc[i + 1, 'start_time_dt'], today)]:
    row [i] is assigned from row [i + 1], whose times the loop never
    writes; rows without a successor keep their gap. *)
Definition assign_gaps (df : list line) : list line :=
  imap (fun i r =>
          match df !! S i with
          | Some next => set_gap (time_diff_seconds (end_time_dt r) (start_time_dt next)) r
          | None => r
          end) df.

(** [df.iloc[-1, gap] = whole_dur - last_end_seconds]; [df.iloc[-1]] on an
    empty frame raises. *)
Definition assign_last_gap (df : list line) : result (list line) :=
  match last df with
  | None => Raise IndexError
  | Some r =>
      let last_end_seconds := seconds_of_time (end_time_dt r) in
      Ok (alter (set_gap (whole_dur - last_end_seconds)) (length df - 1)%nat df)
  end.

Definition assign_flag (r : line) : result line :=
  let* f := calc_if_too_fast cfg (est_dur r) (tol_dur r) (duration r) (tolerance r) in
  Ok (set_if_too_fast f r).

Definition analyze_subtitle_timing_and_speed (df : list line) : result (list line) :=
  let TOLERANCE := cfg_tolerance cfg in
  let df := set_gap 0 <$> df in
  let df := assign_gaps df in
  let* df := assign_last_gap df in
  let df := (fun r => set_tolerance (Py.min (gap r) TOLERANCE) r) <$> df in
  let df := (fun r => set_tol_dur (duration r + tolerance r) r) <$> df in
  let df := (fun r => set_est_dur (estimate_duration (text r)) r) <$> df in
  mapM assign_flag df.

End Analyzer.

(** *** The chunk planner *)

(** [df.at[i, 'cut_off'] = 1] *)
Definition mark_cut (i : nat) (df : list line) : list line :=
  alter (set_cut_off 1) i df.

(** The running sums of [merge_rows]. *)
Record merged : Type := Merged {
  m_est_dur : Q;
  m_tol_dur : Q;
  m_duration : Q
}.

(** The [while] loop of [merge_rows] and the code after it.  [fuel] bounds
    the iterations; the loop test [merge_count < MAX_MERGE_COUNT] makes
    [MAX_MERGE_COUNT - merge_count] iterations enough. *)
Fixpoint merge_rows_loop (cfg : config) (fuel : nat) (df : list line)
    (start_idx merge_count : nat) (m : merged) : result (list line * nat) :=
  if (merge_count <? MAX_MERGE_COUNT)%nat && (start_idx + merge_count <? length df)%nat then
    match fuel with
    | O => Raise OutOfFuel
    | S fuel' =>
        match df !! (start_idx + merge_count)%nat with
        | None => Raise IndexError
        | Some next_row =>
            let m := Merged (m_est_dur m + est_dur next_row)
                            (m_tol_dur m + tol_dur next_row)
                            (m_duration m + duration next_row) in
            let* speed_flag :=
              calc_if_too_fast cfg (m_est_dur m) (m_tol_dur m) (m_duration m)
                               (tolerance next_row) in
            if (speed_flag <=? 0)%Z || (merge_count =? 2)%nat then
              Ok (mark_cut (start_idx + merge_count) df, S merge_count)
            else
              merge_rows_loop cfg fuel' df start_idx (S merge_count) m
        end
    end
  else if (MAX_MERGE_COUNT <=? merge_count)%nat || (length df <=? start_idx + merge_count)%nat then
    Ok (mark_cut (start_idx + merge_count - 1) df, merge_count)
  else Ok (df, merge_count).

Definition merge_rows (cfg : config) (df : list line) (start_idx merge_count : nat)
    : result (list line * nat) :=
  match df !! start_idx with
  | None => Raise IndexError
  | Some r =>
      merge_rows_loop cfg (MAX_MERGE_COUNT - merge_count) df start_idx merge_count
        (Merged (est_dur r) (tol_dur r) (duration r))
  end.

(** The [while idx < len(df)] loop of [process_cutoffs]; every iteration
    advances [idx], so [len(df)] iterations are enough. *)
Fixpoint process_cutoffs_loop (cfg : config) (fuel : nat) (df : list line)
    (idx : nat) : result (list line) :=
  if (idx <? length df)%nat then
    match fuel with
    | O => Raise OutOfFuel
    | S fuel' =>
        match df !! idx with
        | None => Raise IndexError
        | Some row =>
            if (cut_off row =? 1)%Z then
              process_cutoffs_loop cfg fuel' df (idx + 1)
            else if (length df <=? idx + 1)%nat then
              Ok (mark_cut idx df)
            else if (if_too_fast row <=? 0)%Z then
              match df !! (idx + 1)%nat with
              | None => Raise IndexError
              | Some next =>
                  if (if_too_fast next <=? 0)%Z then
                    process_cutoffs_loop cfg fuel' (mark_cut idx df) (idx + 1)
                  else
                    let* (df', k) := merge_rows cfg df idx 1 in
                    process_cutoffs_loop cfg fuel' df' (idx + k)
              end
            else
              let* (df', k) := merge_rows cfg df idx 1 in
              process_cutoffs_loop cfg fuel' df' (idx + k)
        end
    end
  else Ok df.

Definition process_cutoffs (cfg : config) (df : list line) : result (list line) :=
  let df := set_cut_off 0 <$> df in
  let df := (fun r => if Py.geb (gap r) (cfg_tolerance cfg)
                      then set_cut_off 1 r else r) <$> df in
  process_cutoffs_loop cfg (length df) df 0.

(** The chunks that the renderer reads off the marks: a chunk ends at each
    row with [cut_off == 1] ([chunk_start_index .. index]); rows after the
    last mark belong to no chunk.  [chunks_from cur rows] returns the
    chunks and the unmarked remainder. *)
Fixpoint chunks_from {A : Type} (is_cut : A -> bool) (cur : list A) (rows : list A)
    : list (list A) * list A :=
  match rows with
  | [] => ([], cur)
  | r :: rows' =>
      if is_cut r then
        let '(cs, rest) := chunks_from is_cut [] rows' in
        ((cur ++ [r]) :: cs, rest)
      else chunks_from is_cut (cur ++ [r]) rows'
  end.

Definition is_cut_line (r : line) : bool := (cut_off r =? 1)%Z.

Definition chunks_of_lines (df : list line) : list (list line) :=
  fst (chunks_from is_cut_line [] df).

(** ** [core/_10_gen_audio.py] *)

Module Audio.

Definition WARMUP_SIZE : nat := 5.

(** The integer fields of a time string ['HH:MM:SS.ms']. *)
Record srt_time : Type := SrtTime {
  hours : Z;
  minutes : Z;
  seconds : Z;
  milliseconds : Z
}.

Definition parse_df_srt_time (t : srt_time) : Q :=
  inject_Z (hours t * 3600 + minutes t * 60 + seconds t)
  + inject_Z (milliseconds t) / 1000.

(** Clip files, named by the two path templates and ["{number}_{line_index}"]. *)
Inductive path : Type :=
  | TEMP_FILE (number : Z) (line_index : Z)
  | OUTPUT_FILE (number : Z) (line_index : Z).

#[global] Instance path_eq_dec : EqDecision path.
Proof. solve_decision. Defined.

(** The clip directory: a wav file is abstracted to its duration in seconds. *)
Definition files : Type := path -> option Q.

Definition write (p : path) (d : Q) (fs : files) : files :=
  fun q => if decide (q = p) then Some d else fs q.

(** [get_audio_duration]: every failure to read a duration yields 0. *)
Definition get_audio_duration (fs : files) (p : path) : Q :=
  match fs p with
  | Some d => d
  | None => 0
  end.

(** pydub (external): [len(audio)] is the duration in milliseconds, rounded. *)
Definition pydub_len (d : Q) : Z := Py.round_half_even (d * 1000).

(** pydub (external): the duration of [audio[:k]], [k] in milliseconds: the
    first [k] milliseconds, or the whole clip when it is shorter; for a
    negative [k] the clip without its last [|k|] milliseconds. *)
Definition pydub_prefix (d : Q) (k : Z) : Q :=
  if (k <? 0)%Z then Py.max 0 (d + inject_Z k / 1000)
  else Py.min (inject_Z k / 1000) d.

(** A row of the task frame of the audio stage. *)
Record task : Type := Task {
  number : Z;
  start_time_str : srt_time;
  end_time_str : srt_time;
  gap : Q;
  tolerance : Q;
  tol_dur : Q;
  cut_off : Z;
  lines : list string;
  real_dur : Q;
  new_sub_times : option (list (Q * Q))
}.

Definition set_real_dur (d : Q) (r : task) : task :=
  Task (number r) (start_time_str r) (end_time_str r) (gap r) (tolerance r)
       (tol_dur r) (cut_off r) (lines r) d (new_sub_times r).
Definition set_new_sub_times (t : option (list (Q * Q))) (r : task) : task :=
  Task (number r) (start_time_str r) (end_time_str r) (gap r) (tolerance r)
       (tol_dur r) (cut_off r) (lines r) (real_dur r) t.

Definition sumQ (l : list Q) : Q := foldr Qplus 0 l.

Section SpeedChange.

(** [subprocess.run(ffmpeg ... atempo=speed_factor ...)] on an input file, at
    a given attempt: [Some d] when it succeeds and writes an output lasting
    [d] seconds, [None] when it raises [CalledProcessError]. *)
Variable atempo : path -> Q -> nat -> option Q.

Definition max_retries : nat := 2.

(** The body of the [try] once ffmpeg has written an output of duration
    [out]: the drift check. *)
Definition check_drift (fs : files) (output_file : path)
    (input_duration speed_factor : Q) : result files :=
  let output_duration := get_audio_duration fs output_file in
  let* expected_duration := fdiv input_duration speed_factor in
  let diff := output_duration - expected_duration in
  if Py.geb output_duration (expected_duration * (102 # 100))
     && Py.ltb input_duration 3 && Py.leb diff (1 # 10) then
    let audio := output_duration in
    let trimmed_audio := pydub_prefix audio (Py.int (expected_duration * 1000)) in
    Ok (write output_file trimmed_audio fs)
  else if Py.geb output_duration (expected_duration * (102 # 100)) then
    Raise RuntimeError
  else Ok fs.

(** [for attempt in range(max_retries)], with [n] attempts left. *)
Fixpoint attempts (n : nat) (attempt : nat) (fs : files)
    (input_file output_file : path) (input_duration speed_factor : Q)
    : result files :=
  match n with
  | O => Ok fs
  | S n' =>
      match atempo input_file speed_factor attempt with
      | Some out =>
          check_drift (write output_file out fs) output_file
                      input_duration speed_factor
      | None =>
          if (attempt <? max_retries - 1)%nat then
            attempts n' (S attempt) fs input_file output_file
                     input_duration speed_factor
          else Raise CalledProcessError
      end
  end.

Definition adjust_audio_speed (fs : files) (input_file output_file : path)
    (speed_factor : Q) : result files :=
  if Py.ltb (Qabs (speed_factor - 1)) (1 # 1000) then
    (* shutil.copy2(input_file, output_file) *)
    match fs input_file with
    | Some audio => Ok (write output_file audio fs)
    | None => Raise FileNotFoundError
    end
  else
    let input_duration := get_audio_duration fs input_file in
    attempts max_retries 0 fs input_file output_file input_duration speed_factor.

End SpeedChange.

Section Synthesis.

(** [tts_main(text, save_as, ...)] followed by measuring the file: [Some d]
    when a file lasting [d] seconds is there afterwards, [None] when
    [tts_main] raises after its retries. *)
Variable tts_main : string -> path -> option Q.

Fixpoint process_lines (number : Z) (line_index : Z) (lines : list string)
    (real_dur : Q) : result Q :=
  match lines with
  | [] => Ok real_dur
  | line_text :: rest =>
      match tts_main line_text (TEMP_FILE number line_index) with
      | None => Raise SynthesisError
      | Some d => process_lines number (line_index + 1) rest (real_dur + d)
      end
  end.

Definition process_row (row : task) : result (Z * Q) :=
  let* real_dur := process_lines (number row) 0 (lines row) 0 in
  Ok (number row, real_dur).

(** The warm-up loop: rows in order; an exception is re-raised. *)
Fixpoint warmup (rows : list (nat * task)) (tasks_df : list task)
    : result (list task) :=
  match rows with
  | [] => Ok tasks_df
  | (index, row) :: rest =>
      let* (_, real_dur) := process_row row in
      warmup rest (alter (set_real_dur real_dur) index tasks_df)
  end.

(** The [as_completed] loop: the futures are handled in the order in which
    they complete; each result is written at the row's original index. *)
Fixpoint collect (completed : list (nat * task)) (tasks_df : list task)
    : list task :=
  match completed with
  | [] => tasks_df
  | (original_index, row) :: rest =>
      match process_row row with
      | Ok (_, real_dur) =>
          collect rest (alter (set_real_dur real_dur) original_index tasks_df)
      | Raise _ =>
          collect rest (alter (set_real_dur (-1)) original_index tasks_df)
      end
  end.

(** [order] is the completion order of the submitted rows: positions into
    [remaining_tasks]; a run of the source handles each submitted row once. *)
Definition generate_tts_audio (order : list nat) (tasks_df : list task)
    : result (list task) :=
  let tasks_df := set_real_dur 0 <$> tasks_df in
  let warmup_size := Nat.min WARMUP_SIZE (length tasks_df) in
  let* tasks_df := warmup (imap pair (take warmup_size tasks_df)) tasks_df in
  if (warmup_size <? length tasks_df)%nat then
    let remaining_tasks :=
      imap (fun i row => ((warmup_size + i)%nat, row)) (drop warmup_size tasks_df) in
    let completed := omap (fun i => remaining_tasks !! i) order in
    Ok (collect completed tasks_df)
  else Ok tasks_df.

End Synthesis.

(** The decision of [process_chunk] on the four sums. *)
Definition solve_speed (chunk_durs tol_durs durations all_gaps accept min_speed : Q)
    : result (Q * bool) :=
  let speed_var_error := 1 # 10 in
  let* t1 := fdiv (chunk_durs + all_gaps) accept in
  if Py.ltb t1 durations then
    let* s := fdiv (chunk_durs + all_gaps) (durations - speed_var_error) in
    Ok (Py.round3 (Py.max min_speed s), true)
  else
    let* t2 := fdiv chunk_durs accept in
    if Py.ltb t2 durations then
      let* s := fdiv chunk_durs (durations - speed_var_error) in
      Ok (Py.round3 (Py.max min_speed s), false)
    else
      let* t3 := fdiv (chunk_durs + all_gaps) accept in
      if Py.ltb t3 tol_durs then
        let* s := fdiv (chunk_durs + all_gaps) (tol_durs - speed_var_error) in
        Ok (Py.round3 (Py.max min_speed s), true)
      else
        let* s := fdiv chunk_durs (tol_durs - speed_var_error) in
        Ok (Py.round3 s, false).

Definition process_chunk (chunk_df : list task) (accept min_speed : Q)
    : result (Q * bool) :=
  match last chunk_df with
  | None => Raise IndexError
  | Some last_row =>
      let chunk_durs := sumQ (real_dur <$> chunk_df) in
      let tol_durs := sumQ (tol_dur <$> chunk_df) in
      let durations := tol_durs - tolerance last_row in
      let all_gaps := sumQ (gap <$> chunk_df) - gap last_row in
      solve_speed chunk_durs tol_durs durations all_gaps accept min_speed
  end.

Section Render.

Variable atempo : path -> Q -> nat -> option Q.
Variable cfg : config.

(** The task frame together with the clip directory. *)
Definition state : Type := (list task * files)%type.

(** [for line_index, _ in enumerate(lines)]: speed-change each clip of a row
    and append its interval. *)
Fixpoint render_clips (number : Z) (speed_factor : Q) (line_index : Z)
    (lines : list string) (fs : files) (cur_time : Q)
    (new_sub_times : list (Q * Q)) : result (files * Q * list (Q * Q)) :=
  match lines with
  | [] => Ok (fs, cur_time, new_sub_times)
  | _ :: rest =>
      let temp_file := TEMP_FILE number line_index in
      let output_file := OUTPUT_FILE number line_index in
      let* fs := adjust_audio_speed atempo fs temp_file output_file speed_factor in
      let ad_dur := get_audio_duration fs output_file in
      render_clips number speed_factor (line_index + 1) rest fs
                   (cur_time + ad_dur)
                   (new_sub_times ++ [(cur_time, cur_time + ad_dur)])
  end.

(** [tasks_df[tasks_df['number'] == n].index[0]] *)
Definition find_number (n : Z) (tasks_df : list task) : result nat :=
  match list_find (fun r => number r = n) tasks_df with
  | Some (i, _) => Ok i
  | None => Raise IndexError
  end.

(** [for i, chunk_row in chunk_df.iterrows()], from row [i] on. *)
Fixpoint render_rows (chunk_df : list task) (speed_factor : Q) (keep_gaps : bool)
    (i : nat) (rows : list task) (st : state) (cur_time : Q)
    : result (state * Q) :=
  match rows with
  | [] => Ok (st, cur_time)
  | chunk_row :: rest =>
      let* cur_time :=
        (if negb (i =? 0)%nat && keep_gaps then
           match chunk_df !! (i - 1)%nat with
           | None => Raise IndexError
           | Some prev =>
               let* g := fdiv (gap prev) speed_factor in
               Ok (cur_time + g)
           end
         else Ok cur_time) in
      let* (fs, cur_time, new_sub_times) :=
        render_clips (number chunk_row) speed_factor 0 (lines chunk_row)
                     (snd st) cur_time [] in
      let* main_df_idx := find_number (number chunk_row) (fst st) in
      let tasks_df := alter (set_new_sub_times (Some new_sub_times)) main_df_idx (fst st) in
      render_rows chunk_df speed_factor keep_gaps (S i) rest (tasks_df, fs) cur_time
  end.

(** [last_times[-1][1] = chunk_end_time] *)
Definition clamp_last_end (chunk_end_time : Q) (last_times : list (Q * Q))
    : result (list (Q * Q)) :=
  match last last_times with
  | None => Raise IndexError
  | Some (s, _) =>
      Ok (<[(length last_times - 1)%nat := (s, chunk_end_time)]> last_times)
  end.

(** Step 5 of the chunk body: trim an overflow of at most 0.6 s. *)
Definition fix_overflow (chunk_df : list task) (st : state)
    (cur_time chunk_end_time : Q) : result state :=
  if Py.gtb cur_time chunk_end_time then
    let time_diff := cur_time - chunk_end_time in
    if Py.leb time_diff (6 # 10) then
      match last chunk_df with
      | None => Raise IndexError
      | Some last_row_in_chunk =>
          let last_number := number last_row_in_chunk in
          let last_lines := lines last_row_in_chunk in
          let last_line_index := (Z.of_nat (length last_lines) - 1)%Z in
          let last_file := OUTPUT_FILE last_number last_line_index in
          match snd st last_file with
          | None => Raise FileNotFoundError
          | Some audio =>
              let original_duration_ms := pydub_len audio in
              let new_duration_ms := inject_Z original_duration_ms - time_diff * 1000 in
              let trimmed_audio := pydub_prefix audio (Py.int new_duration_ms) in
              let fs := write last_file trimmed_audio (snd st) in
              let* main_df_idx := find_number last_number (fst st) in
              match fst st !! main_df_idx with
              | None => Raise IndexError
              | Some main_row =>
                  match new_sub_times main_row with
                  | None => Raise TypeError
                  | Some last_times =>
                      let* last_times := clamp_last_end chunk_end_time last_times in
                      Ok (alter (set_new_sub_times (Some last_times)) main_df_idx (fst st), fs)
                  end
              end
          end
      end
    else Ok st
  else Ok st.

(** The body of [if row['cut_off'] == 1:] for one chunk. *)
Definition render_chunk (chunk_df : list task) (st : state) : result state :=
  let accept := cfg_accept cfg in
  let min_speed := cfg_min_speed cfg in
  let* (speed_factor, keep_gaps) := process_chunk chunk_df accept min_speed in
  match head chunk_df, last chunk_df with
  | Some first_row, Some last_row =>
      let chunk_start_time := parse_df_srt_time (start_time_str first_row) in
      let chunk_end_time := parse_df_srt_time (end_time_str last_row) + tolerance last_row in
      let cur_time := chunk_start_time in
      let* (st, cur_time) :=
        render_rows chunk_df speed_factor keep_gaps 0 chunk_df st cur_time in
      fix_overflow chunk_df st cur_time chunk_end_time
  | _, _ => Raise IndexError
  end.

(** [for index, row in tasks_df.iterrows()] *)
Fixpoint merge_chunks_loop (rows : list (nat * task)) (chunk_start_index : nat)
    (st : state) : result state :=
  match rows with
  | [] => Ok st
  | (index, row) :: rest =>
      if (cut_off row =? 1)%Z then
        let chunk_df := take (index + 1 - chunk_start_index)
                             (drop chunk_start_index (fst st)) in
        let* st := render_chunk chunk_df st in
        merge_chunks_loop rest (index + 1) st
      else merge_chunks_loop rest chunk_start_index st
  end.

Definition merge_chunks (st : state) : result state :=
  let tasks_df := set_new_sub_times None <$> fst st in
  merge_chunks_loop (imap pair tasks_df) 0 (tasks_df, snd st).

End Render.

End Audio.

(** ** [core/_6_gen_sub.py] *)

Module Align.

Section Aligner.

(** Text is a list of code points.  The Unicode tables behind [\s], [\w],
    [str.lower] and [str.strip] belong to the Python runtime and are taken
    as given; [space] is U+0020. *)
Context {char : Type} `{EqDecision char}.
Variable is_space : char -> bool.
Variable is_word : char -> bool.
Variable lower : list char -> list char.
Variable space : char.

(** A row of [df_words]. *)
Record word : Type := Word {
  text : list char;
  start : Q;
  end_ : Q
}.

(** [re.sub(r'\s+', ' ', text)]: [in_run] tells whether the previous code
    point was whitespace. *)
Fixpoint collapse_spaces (in_run : bool) (s : list char) : list char :=
  match s with
  | [] => []
  | c :: s' =>
      if is_space c then
        if in_run then collapse_spaces true s'
        else space :: collapse_spaces true s'
      else c :: collapse_spaces false s'
  end.

(** [re.sub(r'[^\w\s]', '', text)] *)
Definition drop_punctuation (s : list char) : list char :=
  List.filter (fun c => is_word c || is_space c) s.

Fixpoint lstrip (s : list char) : list char :=
  match s with
  | [] => []
  | c :: s' => if is_space c then lstrip s' else s
  end.

Definition strip (s : list char) : list char :=
  rev (lstrip (rev (lstrip s))).

Definition remove_punctuation (s : list char) : list char :=
  let s := collapse_spaces false s in
  let s := drop_punctuation s in
  strip (lower s).

(** [remove_punctuation(sentence).replace(" ", "")] *)
Definition clean (sentence : list char) : list char :=
  List.filter (fun c => negb (bool_decide (c = space))) (remove_punctuation sentence).

(** The indexing loop: [full_words_str] and [position_to_word_idx], whose
    keys are the positions [0 .. len(full_words_str) - 1] in order. *)
Fixpoint build_index (idx : nat) (words : list word)
    (full_words_str : list char) (position_to_word_idx : list nat)
    : list char * list nat :=
  match words with
  | [] => (full_words_str, position_to_word_idx)
  | w :: words' =>
      let clean_word := remove_punctuation (text w) in
      build_index (S idx) words' (full_words_str ++ clean_word)
                  (position_to_word_idx ++ replicate (length clean_word) idx)
  end.

(** The [while search_pos <= len(full_words_str) - sentence_len] loop.
    [hay] is [full_words_str[search_pos:]], so the loop test reads
    [sentence_len <= len(hay)] and the slice compared is a prefix of [hay]. *)
Fixpoint search (clean_sentence : list char) (hay : list char) (search_pos : nat)
    : option nat :=
  if (length clean_sentence <=? length hay)%nat then
    if bool_decide (take (length clean_sentence) hay = clean_sentence) then
      Some search_pos
    else
      match hay with
      | [] => None
      | _ :: hay' => search clean_sentence hay' (S search_pos)
      end
  else None.

(** The loop over [df_sentences['Source']]. *)
Fixpoint align (words : list word) (full_words_str : list char)
    (position_to_word_idx : list nat) (current_pos : nat)
    (sentences : list (list char)) (time_stamp_list : list (Q * Q))
    : result (list (Q * Q)) :=
  match sentences with
  | [] => Ok time_stamp_list
  | sentence :: rest =>
      let clean_sentence := clean sentence in
      let sentence_len := length clean_sentence in
      match clean_sentence with
      | [] =>
          align words full_words_str position_to_word_idx current_pos rest
                (time_stamp_list ++ [(0, 0)])
      | _ :: _ =>
          match search clean_sentence (drop current_pos full_words_str) current_pos with
          | Some search_pos =>
              match position_to_word_idx !! search_pos,
                    position_to_word_idx !! (search_pos + sentence_len - 1)%nat with
              | Some start_word_idx, Some end_word_idx =>
                  match words !! start_word_idx, words !! end_word_idx with
                  | Some ws, Some we =>
                      align words full_words_str position_to_word_idx
                            (search_pos + sentence_len) rest
                            (time_stamp_list ++ [(start ws, end_ we)])
                  | _, _ => Raise KeyError
                  end
              | _, _ => Raise KeyError
              end
          | None => Raise ValueError
          end
      end
  end.

Definition get_sentence_timestamps (df_words : list word)
    (df_sentences : list (list char)) : result (list (Q * Q)) :=
  let '(full_words_str, position_to_word_idx) := build_index 0 df_words [] [] in
  align df_words full_words_str position_to_word_idx 0 df_sentences [].

(** *** What the aligner is meant to compute *)

(** [occurs_at full p s]: [s] is the slice of [full] that starts at [p]. *)
Definition occurs_at (full : list char) (p : nat) (s : list char) : Prop :=
  (p + length s <= length full)%nat /\ take (length s) (drop p full) = s.

(** The index of the word that position [p] of the concatenation of the
    cleaned words falls into. *)
Fixpoint word_at (idx : nat) (words : list word) (p : nat) : option nat :=
  match words with
  | [] => None
  | w :: words' =>
      let n := length (remove_punctuation (text w)) in
      if (p <? n)%nat then Some idx else word_at (S idx) words' (p - n)
  end.

(** [aligned words full cur sentences intervals cursors]: starting with the
    cursor at [cur], the sentences get these intervals, and [cursors] lists
    the cursor after each sentence.  A sentence that cleans to nothing gets
    (0, 0) and leaves the cursor; any other sentence is matched at the
    earliest position at or after the cursor where its cleaned text occurs,
    gets [start of the word at the first matched position, end of the word
    at the last matched position], and moves the cursor past the match. *)
Inductive aligned (words : list word) (full : list char)
    : nat -> list (list char) -> list (Q * Q) -> list nat -> Prop :=
  | aligned_nil cur : aligned words full cur [] [] []
  | aligned_blank cur s ss ts cs :
      clean s = [] ->
      aligned words full cur ss ts cs ->
      aligned words full cur (s :: ss) ((0, 0) :: ts) (cur :: cs)
  | aligned_match cur s ss ts cs p i j wi wj :
      clean s <> [] ->
      (cur <= p)%nat ->
      occurs_at full p (clean s) ->
      (forall q, (cur <= q < p)%nat -> ~ occurs_at full q (clean s)) ->
      word_at 0 words p = Some i ->
      word_at 0 words (p + length (clean s) - 1) = Some j ->
      words !! i = Some wi ->
      words !! j = Some wj ->
      aligned words full (p + length (clean s)) ss ts cs ->
      aligned words full cur (s :: ss) ((start wi, end_ wj) :: ts)
              ((p + length (clean s))%nat :: cs).

(** A cursor trace that never goes back. *)
Fixpoint nondecreasing (cur : nat) (cs : list nat) : Prop :=
  match cs with
  | [] => True
  | c :: cs' => (cur <= c)%nat /\ nondecreasing c cs'
  end.

End Aligner.

Arguments word : clear implicits.
Arguments Word {char} text start end_.

End Align.

(** ASCII text. *)
#[global] Instance ascii_eq_decision : EqDecision Ascii.ascii := Ascii.ascii_dec.

Definition ascii_is_space (c : Ascii.ascii) : bool :=
  let n := Ascii.nat_of_ascii c in
  ((9 <=? n) && (n <=? 13) || (28 <=? n) && (n <=? 32))%nat.

Definition ascii_is_word (c : Ascii.ascii) : bool :=
  let n := Ascii.nat_of_ascii c in
  ((48 <=? n) && (n <=? 57) || (65 <=? n) && (n <=? 90)
   || (97 <=? n) && (n <=? 122) || (n =? 95))%nat.

Definition ascii_lower (s : list Ascii.ascii) : list Ascii.ascii :=
  (fun c => let n := Ascii.nat_of_ascii c in
            if ((65 <=? n) && (n <=? 90))%nat then Ascii.ascii_of_nat (n + 32) else c)
  <$> s.

Definition ascii_timestamps (df_words : list (Align.word Ascii.ascii))
    (df_sentences : list string) : result (list (Q * Q)) :=
  Align.get_sentence_timestamps ascii_is_space ascii_is_word ascii_lower
    (Ascii.ascii_of_nat 32) df_words (list_ascii_of_string <$> df_sentences).

(** *** [align_timestamp] *)

Module Sub.

(** The timing columns of a row of [df_trans_time]. *)
Record row : Type := Row {
  timestamp : Q * Q;
  duration : Q;
  timestamp_srt : string
}.

End Sub.

(** [for i in range(len(df_trans_time) - 1)]: a gap of less than a second
    after row [i] is closed by moving the end of row [i] to the start of
    row [i + 1].  Iteration [i] writes row [i] only and reads the start of
    row [i + 1], which no iteration has written before; rows without a
    successor are left as they are. *)
Definition close_gaps (timestamps : list (Q * Q)) : list (Q * Q) :=
  imap (fun i t =>
          match timestamps !! S i with
          | Some next =>
              let delta_time := fst next - snd t in
              if Py.ltb 0 delta_time && Py.ltb delta_time 1
              then (fst t, fst next) else t
          | None => t
          end) timestamps.

Section AlignTimestamp.

Context {char : Type} `{EqDecision char}.
Variables (is_space is_word : char -> bool) (lower : list char -> list char).
Variable space : char.

(** [convert_to_srt_format(start_time, end_time)]: the text
    ['HH:MM:SS,mmm --> HH:MM:SS,mmm'], which the source computes from the two
    times with [divmod], [%] and [int] on binary floats.  That arithmetic is
    not the arithmetic of the rationals used here, so the formatter is a
    parameter: what is proved about [align_timestamp] holds whatever text it
    prints. *)
Variable convert_to_srt_format : Q -> Q -> string.

(** The timing part of [align_timestamp]: the columns ['timestamp'],
    ['duration'] and ['timestamp_srt'] of the frame it returns.  The
    duration is taken before the gaps are closed.  The text columns and the
    files written from them are not part of this model. *)
Definition align_timestamp (df_text : list (Align.word char))
    (df_translate : list (list char)) : result (list Sub.row) :=
  let* time_stamp_list :=
    Align.get_sentence_timestamps is_space is_word lower space df_text df_translate in
  let durations := (fun x => snd x - fst x) <$> time_stamp_list in
  let timestamps := close_gaps time_stamp_list in
  Ok (zip_with (fun x d => Sub.Row x d (convert_to_srt_format (fst x) (snd x)))
               timestamps durations).

End AlignTimestamp.

(** ** [core/utils/config_utils.py] *)

Module Yaml.

(** The content of config.yaml as the loader returns it: a mapping from keys
    to values, where a value is a mapping again or anything else (a scalar
    or a sequence, kept as its text). *)
#[warnings="-register-all"]
Inductive yaml : Type :=
  | Scalar (s : string)
  | Mapping (m : gmap string yaml).

(** [key.split('.')]: the pieces between the dots; never the empty list. *)
Fixpoint split_dot (key : string) : list string :=
  match key with
  | EmptyString => [EmptyString]
  | String c key' =>
      if Ascii.eqb c "."%char then EmptyString :: split_dot key'
      else match split_dot key' with
           | piece :: pieces => String c piece :: pieces
           | [] => [String c EmptyString]
           end
  end.

(** [for k in keys: ...] of [load_key], from [value] on. *)
Fixpoint load_key_loop (keys : list string) (value : yaml) : result yaml :=
  match keys with
  | [] => Ok value
  | k :: keys' =>
      match value with
      | Mapping m =>
          match m !! k with
          | Some v => load_key_loop keys' v
          | None => Raise KeyError
          end
      | Scalar _ => Raise KeyError
      end
  end.

Definition load_key (data : yaml) (key : string) : result yaml :=
  load_key_loop (split_dot key) data.

(** [update_key] from [current] on.  The nested mappings are shared with
    [data], so the assignment [current[keys[-1]] = new_value] shows in
    [data]; the result is [current] after the assignment, or [None] where
    the source returns [False]. *)
Fixpoint update_key_loop (keys : list string) (current : yaml) (new_value : yaml)
    : result (option yaml) :=
  match keys with
  | [] => Raise IndexError
  | k :: keys' =>
      match keys' with
      | [] =>
          match current with
          | Mapping m =>
              match m !! k with
              | Some _ => Ok (Some (Mapping (<[k := new_value]> m)))
              | None => Raise KeyError
              end
          | Scalar _ => Raise KeyError
          end
      | _ :: _ =>
          match current with
          | Mapping m =>
              match m !! k with
              | Some v =>
                  let* r := update_key_loop keys' v new_value in
                  match r with
                  | Some v' => Ok (Some (Mapping (<[k := v']> m)))
                  | None => Ok None
                  end
              | None => Ok None
              end
          | Scalar _ => Ok None
          end
      end
  end.

(** [update_key]: the returned flag and the content of config.yaml
    afterwards; the file is written only when the key was found. *)
Definition update_key (data : yaml) (key : string) (new_value : yaml)
    : result (bool * yaml) :=
  let* r := update_key_loop (split_dot key) data new_value in
  match r with
  | Some data' => Ok (true, data')
  | None => Ok (false, data)
  end.

End Yaml.

(** ** [core/utils/decorator.py] *)

Section ExceptHandler.

Context {A : Type}.

(** The decorated function with its arguments: [func i] is the outcome of
    the call made at attempt [i] (the outcomes of an external service may
    differ from call to call). *)
Variable func : nat -> result A.

(** [for i in range(retry + 1)], from attempt [i] on; [remaining] is
    [retry - i], so that [i == retry] reads [remaining = 0].  The second
    component is the time spent in [time.sleep], in seconds. *)
Fixpoint except_handler_loop (delay : Q) (default_return : option A)
    (remaining i : nat) (slept : Q) : result A * Q :=
  match func i with
  | Ok a => (Ok a, slept)
  | Raise last_exception =>
      match remaining with
      | O =>
          match default_return with
          | Some d => (Ok d, slept)
          | None => (Raise last_exception, slept)
          end
      | S remaining' =>
          except_handler_loop delay default_return remaining' (S i)
                              (slept + delay * inject_Z (2 ^ Z.of_nat i))
      end
  end.

(** The wrapper that [except_handler(error_msg, retry, delay,
    default_return)] puts around [func]; [default_return=None] is [None]. *)
Definition except_handler (retry : nat) (delay : Q) (default_return : option A)
    : result A * Q :=
  except_handler_loop delay default_return retry 0 0.

End ExceptHandler.

(** ** [core/asr_backend/audio_preprocess.py]: [split_audio] *)

Section SplitAudio.

(** [detect_silence(audio[ws:we], min_silence_len=500, silence_thresh=-30)]
    (pydub, external): the silent stretches of the window from [ws] to [we]
    milliseconds, each as [start, end] in milliseconds from [ws]. *)
Variable detect_silence : Z -> Z -> list (Z * Z).

Definition safe_margin : Q := 1 # 2.

(** The [while pos < duration] loop.  Every iteration that continues moves
    [pos] forward by at least [target_len], which bounds the iterations when
    [target_len] is positive. *)
Fixpoint split_audio_loop (fuel : nat) (duration target_len win pos : Q)
    (segments : list (Q * Q)) : result (list (Q * Q)) :=
  if Py.ltb pos duration then
    match fuel with
    | O => Raise OutOfFuel
    | S fuel' =>
        if Py.leb (duration - pos) target_len then
          Ok (segments ++ [(pos, duration)])
        else
          let threshold := pos + target_len in
          let ws := Py.int ((threshold - win) * 1000) in
          let we := Py.int ((threshold + win) * 1000) in
          let silence_regions :=
            (fun r => (inject_Z (fst r) / 1000 + (threshold - win),
                       inject_Z (snd r) / 1000 + (threshold - win)))
            <$> detect_silence ws we in
          let valid_regions :=
            List.filter (fun r => Py.geb (snd r - fst r) (safe_margin * 2)
                                  && Py.leb threshold (fst r + safe_margin)
                                  && Py.leb (fst r + safe_margin) (threshold + win))
                        silence_regions in
          let split_at :=
            match valid_regions with
            | (start, _) :: _ => start + safe_margin
            | [] => threshold
            end in
          split_audio_loop fuel' duration target_len win split_at
                           (segments ++ [(pos, split_at)])
    end
  else Ok segments.

(** [split_audio(audio_file, target_len, win)], [duration] being the length
    that [mediainfo] reports. *)
Definition split_audio (duration target_len win : Q) : result (list (Q * Q)) :=
  if Py.leb duration (target_len + win) then Ok [(0, duration)]
  else split_audio_loop (Z.to_nat (Qceiling (duration / target_len)))
                        duration target_len win 0 [].

End SplitAudio.

(** ** [core/tts_backend/tts_main.py] *)

Module Tts.

(** [os.remove(p)] *)
Definition remove (p : Audio.path) (fs : Audio.files) : Audio.files :=
  fun q => if decide (q = p) then None else fs q.

(** [AudioSegment.silent(duration=100)], exported: 100 ms. *)
Definition silence : Q := 1 # 10.

Definition max_retries : nat := 3.

Section TtsMain.

(** External collaborators: the text clean-up [clean_text_for_tts]; the
    length of [re.sub(r'[^\w\s]', '', text).strip()]; [load_key("tts_method")],
    which may raise; the call of the configured back end at a given attempt,
    which leaves the clip directory in some state and may raise; and the
    text correction by [ask_gpt], which may raise or return no ['text']. *)
Variable clean_text_for_tts : string -> string.
Variable cleaned_text_len : string -> nat.
Variable TTS_METHOD : result unit.
Variable backend : string -> Audio.path -> nat -> Audio.files -> Audio.files * option exn.
Variable correct_text : string -> result (option string).

(** [for attempt in range(max_retries)], with [n] attempts left.  [except
    Exception] catches what the body raises: on the last attempt it raises
    the final [Exception], otherwise the loop goes on. *)
Fixpoint attempts (n attempt : nat) (text : string) (save_as : Audio.path)
    (fs : Audio.files) : result Audio.files :=
  match n with
  | O => Ok fs
  | S n' =>
      let is_last := (attempt =? max_retries - 1)%nat in
      let handler (fs : Audio.files) (text : string) : result Audio.files :=
        if is_last then Raise SynthesisError
        else attempts n' (S attempt) text save_as fs in
      match (if is_last then correct_text text else Ok None) with
      | Raise _ => handler fs text
      | Ok correct_text_result =>
          let text := match correct_text_result with
                      | Some corrected => corrected
                      | None => text
                      end in
          match backend text save_as attempt fs with
          | (fs, Some _) => handler fs text
          | (fs, None) =>
              match fs save_as with
              | None => handler fs text   (* FileNotFoundError *)
              | Some _ =>
                  let duration := Audio.get_audio_duration fs save_as in
                  if Py.gtb duration (5 # 100) then Ok fs
                  else
                    let fs := remove save_as fs in
                    if is_last then Ok (Audio.write save_as silence fs)
                    else attempts n' (S attempt) text save_as fs
              end
          end
      end
  end.

Definition tts_main (text : string) (save_as : Audio.path) (fs : Audio.files)
    : result Audio.files :=
  let text := clean_text_for_tts text in
  if (cleaned_text_len text <=? 1)%nat then Ok (Audio.write save_as silence fs)
  else
    match fs save_as with
    | Some _ => Ok fs
    | None =>
        let* _ := TTS_METHOD in
        attempts max_retries 0 text save_as fs
    end.

End TtsMain.

End Tts.

(** *** [dub_chunks_main] *)

Module Dub.

(** A row of [final_df]: a row of the planned frame with the columns
    ['lines'] and ['src_lines']. *)
Record task : Type := Task {
  row : line;
  lines : list string;
  src_lines : list string
}.

(** [l[j]] on a Python list: a negative index counts from the end. *)
Definition getitem {A : Type} (l : list A) (j : Z) : result A :=
  let n := Z.of_nat (length l) in
  let k := if (0 <=? j)%Z then j else (n + j)%Z in
  if (0 <=? k)%Z then
    match l !! Z.to_nat k with
    | Some x => Ok x
    | None => Raise IndexError
    end
  else Raise IndexError.

(** [temp_df[temp_df['number'] == x].index[0]] *)
Definition index_of_number (x : Z) (temp_df : list line) : result nat :=
  match list_find (fun r => number r = x) temp_df with
  | Some (i, _) => Ok i
  | None => Raise IndexError
  end.

(** Step 4 of [dub_chunks_main]: [final_df] is the rows with a cut mark;
    each gets the text lines of the rows of [df] from its own position up
    to the position of the next row of [final_df] (or the end of [df]),
    looked up by [number - 1] in the lines of the two subtitle files. *)
Definition match_lines (df : list line) (content_lines ori_content_lines : list string)
    : result (list task) :=
  let final_df := List.filter is_cut_line df in
  let* original_indices := mapM (fun r => index_of_number (number r) df) final_df in
  mapM (fun p =>
          let i := fst p in
          match original_indices !! i with
          | None => Raise KeyError
          | Some start_original_idx =>
              let end_original_idx :=
                match original_indices !! (i + 1)%nat with
                | Some next => next
                | None => length df
                end in
              let merged_rows :=
                take (end_original_idx - start_original_idx)
                     (drop start_original_idx df) in
              let lines_to_match := (fun r => (number r - 1)%Z) <$> merged_rows in
              let* lines := mapM (getitem content_lines) lines_to_match in
              let* src_lines := mapM (getitem ori_content_lines) lines_to_match in
              Ok (Task (snd p) lines src_lines)
          end)
       (imap pair final_df).

Section Main.

Variable estimate_duration : string -> Q.
Variable whole_dur : Q.
Variable cfg : config.

(** [dub_chunks_main] on the frame read from the task file and the text
    lines of trans.srt and src.srt; the result is the frame it saves. *)
Definition dub_chunks_main (df : list line)
    (content_lines ori_content_lines : list string) : result (list task) :=
  let* df := analyze_subtitle_timing_and_speed estimate_duration whole_dur cfg df in
  let* df := process_cutoffs cfg df in
  match_lines df content_lines ori_content_lines.

End Main.

End Dub.

(** ** [core/_11_merge_audio.py] *)

Module Merge.

(** [load_and_flatten_data]: the flattened ['lines'] and ['new_sub_times']
    columns of the frame that the audio stage saved.  A row without
    intervals holds NaN, which cannot be iterated. *)
Definition load_and_flatten_data (df : list Audio.task)
    : result (list string * list (Q * Q)) :=
  let lines := concat (Audio.lines <$> df) in
  let* new_sub_times :=
    mapM (fun r => match Audio.new_sub_times r with
                   | Some times => Ok times
                   | None => Raise TypeError
                   end) df in
  Ok (lines, concat new_sub_times).

(** [get_audio_files]: one output clip per line of each row. *)
Definition get_audio_files (df : list Audio.task) : list Audio.path :=
  concat ((fun r => imap (fun line_index _ =>
                            Audio.OUTPUT_FILE (Audio.number r) (Z.of_nat line_index))
                         (Audio.lines r)) <$> df).

End Merge.

(** ** Specification vocabulary *)

(** [marks df df']: [df'] is [df] with [cut_off = 1] written on some rows
    and nothing else changed. *)
Definition marks (df df' : list line) : Prop :=
  Forall2 (fun r r' => r' = r \/ r' = set_cut_off 1 r) df df'.

(** A well-formed chunk: unmarked rows followed by one marked row. *)
Definition chunk_ok {A : Type} (is_cut : A -> bool) (c : list A) : Prop :=
  exists body l, c = body ++ [l] /\ is_cut l = true /\
                 Forall (fun r => is_cut r = false) body.

(** The value that the source writes into [real_dur] for a handled row. *)
Definition recorded (tts_main : string -> Audio.path -> option Q)
    (row : Audio.task) : Q :=
  match Audio.process_row tts_main row with
  | Ok (_, real_dur) => real_dur
  | Raise _ => -1
  end.

(** Writing a list of results into the frame, in order. *)
Definition apply_results (l : list (nat * Q)) (df : list Audio.task) : list Audio.task :=
  foldl (fun df p => alter (Audio.set_real_dur p.2) p.1 df) df l.

(** The duration of a recorded interval, and of a list of them. *)
Definition width (iv : Q * Q) : Q := snd iv - fst iv.
Definition sum_widths (ivs : list (Q * Q)) : Q := Audio.sumQ (width <$> ivs).

(** Two task rows that differ at most in [new_sub_times]. *)
Definition same_task (r r' : Audio.task) : Prop :=
  Audio.set_new_sub_times None r' = Audio.set_new_sub_times None r.

(** The scaled gaps that the cursor skips: before each row but the first,
    the gap of the row before it, divided by the speed factor. *)
Fixpoint gaps_between (speed_factor : Q) (prev : option Audio.task)
    (rows : list Audio.task) : list Q :=
  match rows with
  | [] => []
  | r :: rows' =>
      match prev with
      | Some p => Audio.gap p / speed_factor :: gaps_between speed_factor (Some r) rows'
      | None => gaps_between speed_factor (Some r) rows'
      end
  end.

(** The internal gaps of a chunk, scaled: every row's gap but the last's. *)
Definition scaled_internal_gaps (speed_factor : Q) (chunk_df : list Audio.task) : list Q :=
  (fun r => Audio.gap r / speed_factor) <$> take (length chunk_df - 1) chunk_df.

(** The rows of the frame from position [k] on carry these interval lists. *)
Definition records (tasks_df : list Audio.task) (k : nat)
    (tss : list (list (Q * Q))) : Prop :=
  forall j ts, tss !! j = Some ts ->
    exists r, tasks_df !! (k + j)%nat = Some r /\ Audio.new_sub_times r = Some ts.

(** The gap that the cursor skips before a row, given the rows before it. *)
Definition gap_before (speed_factor : Q) (keep_gaps : bool)
    (done : list Audio.task) : Q :=
  if keep_gaps then
    match last done with
    | Some p => Audio.gap p / speed_factor
    | None => 0
    end
  else 0.

(** A row that carries a cut mark at position [j]. *)
Definition marked (df : list line) (j : nat) : Prop :=
  exists r, df !! j = Some r /\ cut_off r = 1%Z.

(** Every window of three consecutive positions below [n] holds a cut row. *)
Definition windowed {A : Type} (is_cut : A -> bool) (l : list A) (n : nat) : Prop :=
  forall i, (i + 2 < n)%nat ->
    exists j r, (i <= j <= i + 2)%nat /\ l !! j = Some r /\ is_cut r = true.

(** [fs'] comes from [fs] by writing output clips: every synthesized clip
    (a [TEMP_FILE]) is as it was, and no file has disappeared. *)
Definition outputs_written (fs fs' : Audio.files) : Prop :=
  (forall number line_index,
     fs' (Audio.TEMP_FILE number line_index) = fs (Audio.TEMP_FILE number line_index)) /\
  (forall p, fs p <> None -> fs' p <> None).

(** Segments that follow one another without gap or overlap, from [from]
    to [to]. *)
Fixpoint chain (from : Q) (segments : list (Q * Q)) (to : Q) : Prop :=
  match segments with
  | [] => from = to
  | seg :: rest => fst seg = from /\ chain (snd seg) rest to
  end.

(** The longest prefix whose elements all satisfy [p]. *)
Fixpoint take_while {A : Type} (p : A -> bool) (l : list A) : list A :=
  match l with
  | [] => []
  | x :: l' => if p x then x :: take_while p l' else []
  end.

(** Each row with a cut mark, together with the unmarked rows that follow
    it up to the next row with a cut mark. *)
Fixpoint cut_groups (rows : list line) : list (line * list line) :=
  match rows with
  | [] => []
  | r :: rows' =>
      if is_cut_line r
      then (r, take_while (fun x => negb (is_cut_line x)) rows') :: cut_groups rows'
      else cut_groups rows'
  end.

(** The positions of the rows with a cut mark, counted from [k]. *)
Fixpoint cut_positions (k : nat) (rows : list line) : list nat :=
  match rows with
  | [] => []
  | r :: rows' =>
      if is_cut_line r then k :: cut_positions (S k) rows'
      else cut_positions (S k) rows'
  end.

(** The text line of a row in a subtitle file: line [number - 1]. *)
Definition line_of (content_lines : list string) (r : line) : string :=
  default EmptyString (content_lines !! Z.to_nat (number r - 1)).

(** The task that a cut group becomes. *)
Definition task_of (content_lines ori_content_lines : list string)
    (g : line * list line) : Dub.task :=
  Dub.Task (fst g) (line_of content_lines <$> fst g :: snd g)
           (line_of ori_content_lines <$> fst g :: snd g).

(** A row whose recorded intervals are one per line. *)
Definition timed (r : Audio.task) : Prop :=
  exists times, Audio.new_sub_times r = Some times /\
                length times = length (Audio.lines r).

(** The clip [OUTPUT_FILE number line_index] of [fs1] is what
    [adjust_audio_speed] made, at this speed factor, of the synthesized clip
    [TEMP_FILE number line_index] of [fs]. *)
Definition adjusted_clip (atempo : Audio.path -> Q -> nat -> option Q)
    (speed_factor : Q) (fs fs1 : Audio.files) (number line_index : Z) : Prop :=
  exists fs0 fs',
    fs0 (Audio.TEMP_FILE number line_index) = fs (Audio.TEMP_FILE number line_index) /\
    Audio.adjust_audio_speed atempo fs0 (Audio.TEMP_FILE number line_index)
      (Audio.OUTPUT_FILE number line_index) speed_factor = Ok fs' /\
    fs1 (Audio.OUTPUT_FILE number line_index)
    = fs' (Audio.OUTPUT_FILE number line_index).

(** The measured durations of the adjusted clips of a row, one per line. *)
Definition clip_durations (fs : Audio.files) (r : Audio.task) : list Q :=
  (fun i => Audio.get_audio_duration fs
              (Audio.OUTPUT_FILE (Audio.number r) (Z.of_nat i)))
  <$> seq 0 (length (Audio.lines r)).

(** The adjusted clip durations of a chunk, summed. *)
Definition sum_clip_durations (fs : Audio.files) (chunk_df : list Audio.task) : Q :=
  Audio.sumQ ((fun r => Audio.sumQ (clip_durations fs r)) <$> chunk_df).

(** ** Worked inputs *)

(** The chunk of the spec's solver example: two lines whose sums are
    chunk_durs = 5.0, all_gaps = 1.0, durations = 5.5, tol_durs = 6.0. *)
Definition solver_example_chunk : list Audio.task :=
  [ Audio.Task 1 (Audio.SrtTime 0 0 0 0) (Audio.SrtTime 0 0 2 500)
               1 (1 # 2) 3 0 [EmptyString] 2 None;
    Audio.Task 2 (Audio.SrtTime 0 0 3 500) (Audio.SrtTime 0 0 6 0)
               2 (1 # 2) 3 1 [EmptyString] 3 None ].

(** The spec's drift example: a raw clip of 2 s, sped up by 1.5, for which
    ffmpeg writes 1.36 s. *)
Definition drift_example_files : Audio.files :=
  Audio.write (Audio.TEMP_FILE 1 0) 2 (fun _ => None).

Definition drift_example_atempo : Audio.path -> Q -> nat -> option Q :=
  fun _ _ _ => Some (136 # 100).

(** A batch of six one-clip lines, and a synthesizer that fails on the clips
    of line [bad] and produces 2 s for every other clip. *)
Definition dispatch_example_frame : list Audio.task :=
  (fun n => Audio.Task n (Audio.SrtTime 0 0 0 0) (Audio.SrtTime 0 0 0 0)
                       0 0 0 1 [EmptyString] 0 None)
  <$> [1; 2; 3; 4; 5; 6]%Z.

Definition dispatch_example_tts (bad : Z) : string -> Audio.path -> option Q :=
  fun _ save_as =>
    match save_as with
    | Audio.TEMP_FILE n _ => if (n =? bad)%Z then None else Some 2
    | Audio.OUTPUT_FILE _ _ => None
    end.

(** Three analysed lines for the planner. *)
Definition planner_example_lines : list line :=
  [ Line 1 (Time 0 0 0 0) (Time 0 0 2 0) 2 EmptyString
         (3 # 10) (3 # 10) (23 # 10) 3 1 0;
    Line 2 (Time 0 0 2 300000) (Time 0 0 4 300000) 2 EmptyString
         (1 # 10) (1 # 10) (21 # 10) 1 (-1) 0;
    Line 3 (Time 0 0 4 400000) (Time 0 0 5 400000) 1 EmptyString
         2 (5 # 10) (15 # 10) 1 0 0 ].

Definition example_config : config := Config (5 # 10) (12 # 10) 1.

(** Four recognised words. *)
Definition aligner_example_words : list (Align.word Ascii.ascii) :=
  [ Align.Word (list_ascii_of_string "Hello,") 1 2;
    Align.Word (list_ascii_of_string " world!") 2 3;
    Align.Word (list_ascii_of_string "Hello") 3 4;
    Align.Word (list_ascii_of_string "again") 5 6 ].

(** A chunk of two one-clip lines.  The clips last 30 s and 0.3 s; the solver
    picks the speed 1.2; ffmpeg writes [first_out] seconds for the first
    clip and 0.25 s for the second.  The nominal chunk end is 25.35 s. *)
Definition render_example_frame : list Audio.task :=
  [ Audio.Task 1 (Audio.SrtTime 0 0 0 0) (Audio.SrtTime 0 0 25 0)
               0 0 25 0 [EmptyString] 30 None;
    Audio.Task 2 (Audio.SrtTime 0 0 25 0) (Audio.SrtTime 0 0 25 350)
               0 0 (35 # 100) 1 [EmptyString] (3 # 10) None ].

Definition render_example_files : Audio.files :=
  Audio.write (Audio.TEMP_FILE 1 0) 30
    (Audio.write (Audio.TEMP_FILE 2 0) (3 # 10) (fun _ => None)).

Definition render_example_atempo (first_out : Q) : Audio.path -> Q -> nat -> option Q :=
  fun input_file _ _ =>
    match input_file with
    | Audio.TEMP_FILE 1 _ => Some first_out
    | _ => Some (25 # 100)
    end.

(** A chunk of two one-clip lines with half a second between them, as the
    analyzer fills its columns in.  The synthesized clips last 12 s and
    11.98 s, so the solver keeps the gap and picks the speed 1.2; ffmpeg
    writes 10.19 s and 10.18 s, each less than 2 % over the theoretical
    duration.  The nominal chunk end is 20.5 s. *)
Definition overflow_example_frame : list Audio.task :=
  [ Audio.Task 1 (Audio.SrtTime 0 0 0 0) (Audio.SrtTime 0 0 10 0)
               (1 # 2) (1 # 2) (21 # 2) 0 [EmptyString] 12 None;
    Audio.Task 2 (Audio.SrtTime 0 0 10 500) (Audio.SrtTime 0 0 20 500)
               0 0 10 1 [EmptyString] (1198 # 100) None ].

Definition overflow_example_files : Audio.files :=
  Audio.write (Audio.TEMP_FILE 1 0) 12
    (Audio.write (Audio.TEMP_FILE 2 0) (1198 # 100) (fun _ => None)).

Definition overflow_example_atempo : Audio.path -> Q -> nat -> option Q :=
  fun input_file _ _ =>
    match input_file with
    | Audio.TEMP_FILE 1 _ => Some (1019 # 100)
    | _ => Some (1018 # 100)
    end.

(** The planner's marks on [planner_example_lines]. *)
Definition planner_example_marked : list line :=
  Eval vm_compute in
    match process_cutoffs example_config planner_example_lines with
    | Ok df => df
    | Raise _ => []
    end.

(** Two recognised words half a second apart. *)
Definition subtitle_example_words : list (Align.word Ascii.ascii) :=
  [ Align.Word (list_ascii_of_string "Good") 0 1;
    Align.Word (list_ascii_of_string "morning.") (3 # 2) 2 ].

(** A configuration with the keys [tolerance] and [speed_factor.accept]. *)
Definition config_example_yaml : Yaml.yaml :=
  Yaml.Mapping
    (<["tolerance"%string := Yaml.Scalar "1.5"]>
       (<["speed_factor"%string :=
            Yaml.Mapping (<["accept"%string := Yaml.Scalar "1.2"]> ∅)]> ∅)).

(** The text lines of the three example rows in the two subtitle files. *)
Definition planner_example_content : list string := ["uno"; "dos"; "tres"]%string.
Definition planner_example_ori_content : list string := ["one"; "two"; "three"]%string.

(** ** Facts about the numeric prelude *)

Lemma ltb_lt (x y : Q) : Py.ltb x y = true <-> x < y.
Proof.
  unfold Py.ltb. rewrite negb_true_iff. split.
  - intros H. apply Qnot_le_lt. intros Hle.
    apply Qle_bool_iff in Hle. congruence.
  - intros H. destruct (Qle_bool y x) eqn:E; [|reflexivity].
    apply Qle_bool_iff in E. lra.
Qed.

Lemma ltb_ge (x y : Q) : Py.ltb x y = false <-> y <= x.
Proof.
  unfold Py.ltb. rewrite negb_false_iff. apply Qle_bool_iff.
Qed.

Lemma leb_le (x y : Q) : Py.leb x y = true <-> x <= y.
Proof. apply Qle_bool_iff. Qed.

Lemma leb_gt (x y : Q) : Py.leb x y = false <-> y < x.
Proof.
  unfold Py.leb. split.
  - intros H. apply Qnot_le_lt. intros Hle.
    apply Qle_bool_iff in Hle. congruence.
  - intros H. destruct (Qle_bool x y) eqn:E; [|reflexivity].
    apply Qle_bool_iff in E. lra.
Qed.

Lemma fdiv_ok (a b : Q) : ~ b == 0 -> fdiv a b = Ok (a / b).
Proof.
  intros Hb. unfold fdiv. destruct (Qeq_bool b 0) eqn:E; [|reflexivity].
  apply Qeq_bool_iff in E. contradiction.
Qed.

Lemma fdiv_zero (a b : Q) : b == 0 -> fdiv a b = Raise ZeroDivisionError.
Proof.
  intros Hb. unfold fdiv. apply Qeq_bool_iff in Hb. now rewrite Hb.
Qed.

Lemma gtb_gt (x y : Q) : Py.gtb x y = true <-> y < x.
Proof. apply ltb_lt. Qed.

Lemma gtb_le (x y : Q) : Py.gtb x y = false <-> x <= y.
Proof. apply ltb_ge. Qed.

(** ** The speed flag *)

(** C5. [calc_if_too_fast] returns 2 exactly when est_dur/accept > tol_dur,
    otherwise 1 exactly when est_dur > tol_dur, otherwise -1 exactly when
    est_dur < duration - tolerance, and 0 in all remaining cases (for a
    non-zero accept speed, so that the quotient exists).  For the line
    duration = 2.0, gap = 0.3 under GLOBAL_TOLERANCE = 0.5 (tolerance =
    min(0.3, 0.5) = 0.3, tol_dur = 2.3) with est_dur = 2.1 the flag is 0 at
    every accept speed that is at least 1. *)
Theorem calc_if_too_fast_classification
    (cfg : config) (est_dur tol_dur duration tolerance : Q)
    (Haccept : ~ cfg_accept cfg == 0) :
  (exists flag : Z,
     calc_if_too_fast cfg est_dur tol_dur duration tolerance = Ok flag /\
     (flag = 2%Z <-> tol_dur < est_dur / cfg_accept cfg) /\
     (flag = 1%Z <->
        ~ tol_dur < est_dur / cfg_accept cfg /\ tol_dur < est_dur) /\
     (flag = (-1)%Z <->
        ~ tol_dur < est_dur / cfg_accept cfg /\ ~ tol_dur < est_dur /\
        est_dur < duration - tolerance) /\
     (flag = 0%Z <->
        ~ tol_dur < est_dur / cfg_accept cfg /\ ~ tol_dur < est_dur /\
        ~ est_dur < duration - tolerance)) /\
  (1 <= cfg_accept cfg ->
   let tolerance' := Py.min (3 # 10) (5 # 10) in
   tolerance' = 3 # 10 /\ 2 + tolerance' == 23 # 10 /\
   calc_if_too_fast cfg (21 # 10) (2 + tolerance') 2 tolerance' = Ok 0%Z).
Proof.
  split.
  - unfold calc_if_too_fast. rewrite (fdiv_ok _ _ Haccept). cbn [bind].
    destruct (Py.gtb (est_dur / cfg_accept cfg) tol_dur) eqn:E2.
    { apply gtb_gt in E2. exists 2%Z.
      repeat split; try discriminate; try tauto. }
    apply gtb_le in E2.
    destruct (Py.gtb est_dur tol_dur) eqn:E1.
    { apply gtb_gt in E1. exists 1%Z.
      repeat split; try discriminate; try tauto; lra. }
    apply gtb_le in E1.
    destruct (Py.ltb est_dur (duration - tolerance)) eqn:E0.
    { apply ltb_lt in E0. exists (-1)%Z.
      repeat split; try discriminate; try tauto; lra. }
    apply ltb_ge in E0. exists 0%Z.
    repeat split; try discriminate; try tauto; lra.
  - intros Hge. cbv zeta.
    assert (Hmin : Py.min (3 # 10) (5 # 10) = 3 # 10) by reflexivity.
    rewrite Hmin. split; [reflexivity|]. split; [reflexivity|].
    unfold calc_if_too_fast. rewrite (fdiv_ok _ _ Haccept). cbn [bind].
    assert (Hq : (21 # 10) / cfg_accept cfg <= 21 # 10).
    { apply Qle_shift_div_r; lra. }
    assert (E2 : Py.gtb ((21 # 10) / cfg_accept cfg) (2 + (3 # 10)) = false).
    { apply gtb_le. lra. }
    rewrite E2.
    assert (E1 : Py.gtb (21 # 10) (2 + (3 # 10)) = false) by reflexivity.
    rewrite E1.
    assert (E0 : Py.ltb (21 # 10) (2 - (3 # 10)) = false) by reflexivity.
    rewrite E0. reflexivity.
Qed.

Lemma calc_if_too_fast_classification_witness :
  calc_if_too_fast example_config (21 # 10) (2 + Py.min (3 # 10) (5 # 10)) 2
                   (Py.min (3 # 10) (5 # 10)) = Ok 0%Z /\
  exists flag : Z,
    calc_if_too_fast example_config 3 (23 # 10) 2 (3 # 10) = Ok flag /\
    (flag = 2%Z <-> 23 # 10 < 3 / cfg_accept example_config).
Proof.
  destruct (calc_if_too_fast_classification example_config 3 (23 # 10) 2 (3 # 10))
    as ((flag & Hflag & H2 & _) & Hexample).
  - discriminate.
  - split.
    + apply Hexample. discriminate.
    + exists flag. split; [exact Hflag|exact H2].
Defined.

(** ** The timing analyzer *)

Lemma calc_if_too_fast_total (cfg : config) (e t d tl : Q) :
  ~ cfg_accept cfg == 0 ->
  exists flag, calc_if_too_fast cfg e t d tl = Ok flag.
Proof.
  intros Hacc. unfold calc_if_too_fast. rewrite (fdiv_ok _ _ Hacc). cbn [bind].
  repeat match goal with |- context [if ?b then _ else _] => destruct b end;
    eauto.
Qed.

Lemma mapM_assign_flag (cfg : config) (l : list line) :
  ~ cfg_accept cfg == 0 ->
  exists l', mapM (assign_flag cfg) l = Ok l' /\
             Forall2 (fun r r' => exists f, r' = set_if_too_fast f r) l l'.
Proof.
  intros Hacc. induction l as [|r l IH]; cbn [mapM].
  - exists []. split; [reflexivity | constructor].
  - destruct IH as (l' & -> & HF). unfold assign_flag at 1.
    destruct (calc_if_too_fast_total cfg (est_dur r) (tol_dur r) (duration r)
                (tolerance r) Hacc) as [f ->].
    cbn [bind]. exists (set_if_too_fast f r :: l').
    split; [reflexivity|]. constructor; eauto.
Qed.

Lemma py_min_Qmin (a b : Q) : Py.min a b == Qmin a b.
Proof.
  unfold Py.min. destruct (Py.ltb b a) eqn:E.
  - apply ltb_lt in E. rewrite Q.min_r; lra.
  - apply ltb_ge in E. rewrite Q.min_l; lra.
Qed.

(** C6. For a non-empty frame the analyzer returns a frame of the same
    length in which, for every line i: gap[i] = start[i+1] - end[i] when
    the line has a successor, gap[i] = whole_dur - end[i] when it is the
    last one, tolerance[i] = min(gap[i], GLOBAL_TOLERANCE), and
    tol_dur[i] = duration[i] + tolerance[i]. *)
Theorem analyze_gap_tolerance_tol_dur
    (estimate_duration : string -> Q) (whole_dur : Q) (cfg : config)
    (df : list line)
    (Hnonempty : df <> [])
    (Haccept : ~ cfg_accept cfg == 0) :
  exists df',
    analyze_subtitle_timing_and_speed estimate_duration whole_dur cfg df = Ok df' /\
    length df' = length df /\
    forall (i : nat) (r r' : line),
      df !! i = Some r -> df' !! i = Some r' ->
      (forall next, df !! S i = Some next ->
         gap r' = seconds_of_time (start_time_dt next) - seconds_of_time (end_time_dt r)) /\
      (S i = length df ->
         gap r' = whole_dur - seconds_of_time (end_time_dt r)) /\
      tolerance r' = Py.min (gap r') (cfg_tolerance cfg) /\
      tolerance r' == Qmin (gap r') (cfg_tolerance cfg) /\
      tol_dur r' = duration r + tolerance r' /\
      duration r' = duration r.
Proof.
  unfold analyze_subtitle_timing_and_speed, assign_last_gap.
  set (df1 := assign_gaps (set_gap 0 <$> df)).
  assert (Hlen1 : length df1 = length df).
  { unfold df1, assign_gaps. now rewrite length_imap, length_fmap. }
  destruct (last df1) as [rl|] eqn:Hlast.
  2:{ apply last_None in Hlast. destruct df; [congruence|].
      rewrite Hlast in Hlen1. discriminate. }
  cbn [bind].
  set (df2 := alter _ _ df1).
  set (df5 := _ <$> (_ <$> (_ <$> df2))).
  destruct (mapM_assign_flag cfg df5 Haccept) as (df' & -> & HF).
  exists df'. split; [reflexivity|].
  assert (Hlen5 : length df5 = length df).
  { unfold df5, df2. now rewrite !length_fmap, length_alter. }
  split. { rewrite <- (Forall2_length _ _ _ HF). exact Hlen5. }
  intros i r r' Hr Hr'.
  destruct (Forall2_lookup_r _ _ _ _ _ HF Hr') as (r5 & Hr5 & f & ->).
  (* the last row of [df1] is the image of the last row of [df] *)
  assert (H1 : df1 !! i = Some
            match df !! S i with
            | Some next => set_gap (time_diff_seconds (end_time_dt r) (start_time_dt next))
                             (set_gap 0 r)
            | None => set_gap 0 r
            end).
  { unfold df1, assign_gaps. rewrite list_lookup_imap, !list_lookup_fmap, Hr.
    cbn. destruct (df !! S i); reflexivity. }
  unfold df5 in Hr5. rewrite !list_lookup_fmap in Hr5. unfold df2 in Hr5.
  rewrite last_lookup in Hlast.
  destruct (decide (S i = length df)) as [Hi|Hi].
  - assert (Hpos : (length df1 - 1)%nat = i) by lia.
    assert (Hnone : df !! S i = None) by (apply lookup_ge_None; lia).
    rewrite Hpos, list_lookup_alter_eq, H1, Hnone in Hr5. cbn in Hr5.
    replace (Init.Nat.pred (length df1)) with i in Hlast by lia.
    rewrite H1, Hnone in Hlast. injection Hlast as <-.
    injection Hr5 as <-. cbn.
    repeat split; try reflexivity.
    + intros next Hnext. congruence.
    + apply py_min_Qmin.
  - assert (Hlt : (i < length df)%nat) by (apply lookup_lt_Some in Hr; exact Hr).
    destruct (df !! S i) as [next|] eqn:Hnext.
    2:{ apply lookup_ge_None in Hnext. lia. }
    rewrite list_lookup_alter_ne, H1 in Hr5 by lia. cbn in Hr5.
    injection Hr5 as <-. cbn.
    repeat split; try reflexivity.
    + intros next' [= <-]. reflexivity.
    + intros Hi'. contradiction.
    + apply py_min_Qmin.
Qed.

Lemma analyze_gap_tolerance_tol_dur_witness :
  exists df' r',
    analyze_subtitle_timing_and_speed (fun _ => 21 # 10) 10 example_config
      planner_example_lines = Ok df' /\
    df' !! 0%nat = Some r' /\
    gap r' == 3 # 10 /\ tolerance r' == 3 # 10 /\ tol_dur r' == 23 # 10.
Proof.
  destruct (analyze_gap_tolerance_tol_dur (fun _ => 21 # 10) 10 example_config
              planner_example_lines) as (df' & Heq & Hlen & Hrows).
  - discriminate.
  - discriminate.
  - destruct (df' !! 0%nat) as [r'|] eqn:Hr'.
    + exists df', r'. split; [exact Heq|]. split; [exact Hr'|].
      destruct (Hrows 0%nat _ r' eq_refl Hr') as (Hgap & _ & Htol & _ & Htd & _).
      rewrite Htd, Htol, (Hgap _ eq_refl). repeat split; reflexivity.
    + apply lookup_ge_None in Hr'. rewrite Hlen in Hr'. cbn in Hr'. lia.
Defined.

(** ** The chunk planner *)

Lemma marks_refl (df : list line) : marks df df.
Proof. apply Forall2_same_length_lookup_2; [reflexivity|]. intros; left; congruence. Qed.

Lemma marks_trans (a b c : list line) : marks a b -> marks b c -> marks a c.
Proof.
  unfold marks. intros Hab. revert c.
  induction Hab as [|x y a b Hxy Hab IH]; intros c Hbc; inversion Hbc; subst.
  - constructor.
  - constructor; [|now apply IH].
    destruct Hxy as [->| ->]; [assumption|].
    match goal with H : _ \/ _ |- _ => destruct H as [->| ->] end; now right.
Qed.

Lemma marks_mark_cut (i : nat) (df : list line) : marks df (mark_cut i df).
Proof.
  unfold marks, mark_cut. revert i.
  induction df as [|r df IH]; intros [|i]; cbn; constructor;
    try (now left); try (now right); try apply IH.
  apply marks_refl.
Qed.

Lemma marks_length (df df' : list line) : marks df df' -> length df' = length df.
Proof. intros H. symmetry. exact (Forall2_length _ _ _ H). Qed.

Lemma marks_keeps_cut (df df' : list line) (i : nat) (r : line) :
  marks df df' -> df !! i = Some r -> cut_off r = 1%Z ->
  exists r', df' !! i = Some r' /\ cut_off r' = 1%Z.
Proof.
  intros H Hr Hc. destruct (Forall2_lookup_l _ _ _ _ _ H Hr) as (r' & Hr' & Hrel).
  exists r'. split; [assumption|]. destruct Hrel as [->| ->]; [assumption|reflexivity].
Qed.

Lemma mark_cut_lookup (i : nat) (df : list line) :
  (i < length df)%nat ->
  exists r, mark_cut i df !! i = Some r /\ cut_off r = 1%Z.
Proof.
  intros Hi. unfold mark_cut. rewrite list_lookup_alter_eq.
  destruct (lookup_lt_is_Some_2 df i Hi) as [r ->]. cbn. eauto.
Qed.

Lemma merge_rows_loop_marks (cfg : config) (fuel : nat) (df : list line)
    (start mc : nat) (m : merged) (df' : list line) (k : nat) :
  merge_rows_loop cfg fuel df start mc m = Ok (df', k) -> marks df df'.
Proof.
  revert mc m. induction fuel as [|fuel IH]; intros mc m; cbn [merge_rows_loop].
  - destruct (_ && _); [discriminate|].
    destruct (_ || _); intros [= <- <-]; [apply marks_mark_cut | apply marks_refl].
  - destruct (_ && _).
    + destruct (df !! (start + mc)%nat) as [next|]; [|discriminate].
      destruct (calc_if_too_fast _ _ _ _ _) as [flag|]; [|discriminate].
      cbn [bind]. destruct (_ || _).
      * intros [= <- <-]. apply marks_mark_cut.
      * apply IH.
    + destruct (_ || _); intros [= <- <-]; [apply marks_mark_cut | apply marks_refl].
Qed.

Lemma merge_rows_marks (cfg : config) (df : list line) (start mc : nat)
    (df' : list line) (k : nat) :
  merge_rows cfg df start mc = Ok (df', k) -> marks df df'.
Proof.
  unfold merge_rows. destruct (df !! start); [|discriminate].
  apply merge_rows_loop_marks.
Qed.

Lemma merge_rows_loop_total (cfg : config) (fuel : nat) (df : list line)
    (start mc : nat) (m : merged) :
  ~ cfg_accept cfg == 0 ->
  (MAX_MERGE_COUNT - mc <= fuel)%nat -> (1 <= mc)%nat ->
  (start + mc <= length df)%nat ->
  exists df' k,
    merge_rows_loop cfg fuel df start mc m = Ok (df', k) /\
    (mc <= k)%nat /\ (start + k <= length df)%nat /\
    exists r, df' !! (start + k - 1)%nat = Some r /\ cut_off r = 1%Z.
Proof.
  intros Hacc. revert mc m.
  induction fuel as [|fuel IH]; intros mc m Hfuel Hmc Hlen; cbn [merge_rows_loop].
  - destruct (Nat.ltb_spec mc MAX_MERGE_COUNT) as [H1|H1]; [lia|]. cbn [andb].
    destruct (Nat.leb_spec MAX_MERGE_COUNT mc) as [H2|H2]; [|lia]. cbn [orb].
    eexists _, _. split; [reflexivity|]. split; [lia|]. split; [lia|].
    apply mark_cut_lookup. lia.
  - destruct (Nat.ltb_spec mc MAX_MERGE_COUNT) as [H1|H1];
      destruct (Nat.ltb_spec (start + mc) (length df)) as [H2|H2]; cbn [andb].
    + destruct (lookup_lt_is_Some_2 df (start + mc) H2) as [next ->].
      match goal with |- context [calc_if_too_fast ?c ?e ?t ?d ?tl] =>
        destruct (calc_if_too_fast_total c e t d tl Hacc) as [flag ->] end.
      cbn [bind]. destruct (_ || _).
      * eexists _, _. split; [reflexivity|]. split; [lia|]. split; [lia|].
        replace (start + S mc - 1)%nat with (start + mc)%nat by lia.
        apply mark_cut_lookup. lia.
      * destruct (IH (S mc) (Merged (m_est_dur m + est_dur next)
                      (m_tol_dur m + tol_dur next) (m_duration m + duration next)))
          as (df' & k & -> & Hk & Hk' & Hr); [lia..|].
        exists df', k. split; [reflexivity|]. split; [lia|]. split; [lia|]. exact Hr.
    + destruct (Nat.leb_spec (length df) (start + mc)) as [H3|H3]; [|lia].
      rewrite orb_true_r.
      eexists _, _. split; [reflexivity|]. split; [lia|]. split; [lia|].
      apply mark_cut_lookup. lia.
    + destruct (Nat.leb_spec MAX_MERGE_COUNT mc) as [H3|H3]; [|lia]. cbn [orb].
      eexists _, _. split; [reflexivity|]. split; [lia|]. split; [lia|].
      apply mark_cut_lookup. lia.
    + destruct (Nat.leb_spec MAX_MERGE_COUNT mc) as [H3|H3]; [|lia]. cbn [orb].
      eexists _, _. split; [reflexivity|]. split; [lia|]. split; [lia|].
      apply mark_cut_lookup. lia.
Qed.

Lemma merge_rows_total (cfg : config) (df : list line) (start : nat) :
  ~ cfg_accept cfg == 0 -> (start + 1 < length df)%nat ->
  exists df' k,
    merge_rows cfg df start 1 = Ok (df', k) /\ marks df df' /\
    (1 <= k)%nat /\ (start + k <= length df)%nat /\
    exists r, df' !! (start + k - 1)%nat = Some r /\ cut_off r = 1%Z.
Proof.
  intros Hacc Hlen. unfold merge_rows.
  destruct (lookup_lt_is_Some_2 df start) as [r Hr]; [lia|]. rewrite Hr.
  destruct (merge_rows_loop_total cfg (MAX_MERGE_COUNT - 1) df start 1
              (Merged (est_dur r) (tol_dur r) (duration r)) Hacc)
    as (df' & k & Heq & Hk & Hk' & Hcut); [lia..|].
  exists df', k. split; [exact Heq|]. split; [|auto].
  eapply merge_rows_loop_marks. exact Heq.
Qed.

Lemma process_cutoffs_loop_marks (cfg : config) (fuel : nat) (df : list line)
    (idx : nat) (df' : list line) :
  process_cutoffs_loop cfg fuel df idx = Ok df' -> marks df df'.
Proof.
  revert df idx. induction fuel as [|fuel IH]; intros df idx; cbn [process_cutoffs_loop].
  - destruct (_ <? _)%nat; [discriminate|]. intros [= <-]. apply marks_refl.
  - destruct (_ <? _)%nat; [|intros [= <-]; apply marks_refl].
    destruct (df !! idx) as [row|]; [|discriminate].
    assert (Hmerge : (let* (df1, k) := merge_rows cfg df idx 1 in
                      process_cutoffs_loop cfg fuel df1 (idx + k)) = Ok df' ->
                     marks df df').
    { destruct (merge_rows cfg df idx 1) as [[df1 k]|] eqn:Hm; [|discriminate].
      cbn [bind]. intros H. eapply marks_trans; [|eapply IH; exact H].
      eapply merge_rows_marks. exact Hm. }
    destruct (_ =? 1)%Z; [apply IH|].
    destruct (_ <=? _)%nat; [intros [= <-]; apply marks_mark_cut|].
    destruct (_ <=? 0)%Z; [|exact Hmerge].
    destruct (df !! (idx + 1)%nat) as [next|]; [|discriminate].
    destruct (_ <=? 0)%Z; [|exact Hmerge].
    intros H. eapply marks_trans; [apply (marks_mark_cut idx)|eapply IH; exact H].
Qed.

Lemma process_cutoffs_loop_total (cfg : config) (fuel : nat) (df : list line)
    (idx : nat) :
  ~ cfg_accept cfg == 0 ->
  (length df - idx <= fuel)%nat -> (idx <= length df)%nat ->
  (idx = 0%nat \/ exists r, df !! (idx - 1)%nat = Some r /\ cut_off r = 1%Z) ->
  exists df',
    process_cutoffs_loop cfg fuel df idx = Ok df' /\
    (length df = 0%nat \/
     exists r, df' !! (length df - 1)%nat = Some r /\ cut_off r = 1%Z).
Proof.
  intros Hacc. revert df idx.
  induction fuel as [|fuel IH]; intros df idx Hfuel Hidx Hinv;
    cbn [process_cutoffs_loop];
    destruct (Nat.ltb_spec idx (length df)) as [Hlt|Hge]; try lia.
  - exists df. split; [reflexivity|].
    destruct Hinv as [->|Hinv]; [left; lia|].
    right. replace (length df - 1)%nat with (idx - 1)%nat by lia. exact Hinv.
  - destruct (lookup_lt_is_Some_2 df idx Hlt) as [row Hrow]. rewrite Hrow.
    assert (Hmerge : (idx + 1 < length df)%nat ->
              exists df',
                (let* (df1, k) := merge_rows cfg df idx 1 in
                 process_cutoffs_loop cfg fuel df1 (idx + k)) = Ok df' /\
                (length df = 0%nat \/
                 exists r, df' !! (length df - 1)%nat = Some r /\ cut_off r = 1%Z)).
    { intros Hnext.
      destruct (merge_rows_total cfg df idx Hacc Hnext)
        as (df1 & k & -> & Hmarks & Hk & Hk' & Hcut).
      cbn [bind]. pose proof (marks_length _ _ Hmarks) as Hlen.
      destruct (IH df1 (idx + k)%nat) as (df' & -> & Hlast); [lia..| |].
      { right. exact Hcut. }
      exists df'. split; [reflexivity|]. rewrite <- Hlen. exact Hlast. }
    destruct (Z.eqb_spec (cut_off row) 1) as [Hc|Hc].
    { destruct (IH df (idx + 1)%nat) as (df' & -> & Hlast); [lia..| |eauto].
      right. exists row. split; [|exact Hc].
      now replace (idx + 1 - 1)%nat with idx by lia. }
    destruct (Nat.leb_spec (length df) (idx + 1)) as [Hend|Hnext].
    { eexists. split; [reflexivity|]. right.
      replace (length df - 1)%nat with idx by lia. now apply mark_cut_lookup. }
    destruct (_ <=? 0)%Z; [|now apply Hmerge].
    destruct (lookup_lt_is_Some_2 df (idx + 1) Hnext) as [next ->].
    destruct (_ <=? 0)%Z; [|now apply Hmerge].
    pose proof (marks_length _ _ (marks_mark_cut idx df)) as Hlen.
    destruct (IH (mark_cut idx df) (idx + 1)%nat) as (df' & -> & Hlast); [lia..| |].
    { right. replace (idx + 1 - 1)%nat with idx by lia. now apply mark_cut_lookup. }
    exists df'. split; [reflexivity|]. rewrite <- Hlen. exact Hlast.
  - exists df. split; [reflexivity|].
    destruct Hinv as [->|Hinv]; [left; lia|].
    right. replace (length df - 1)%nat with (idx - 1)%nat by lia. exact Hinv.
Qed.

(** *** Chunks read off the marks *)

Section Chunks.
Context {A : Type} (is_cut : A -> bool).

Lemma chunks_from_concat (rows cur : list A) :
  concat (fst (chunks_from is_cut cur rows)) ++ snd (chunks_from is_cut cur rows)
  = cur ++ rows.
Proof.
  revert cur. induction rows as [|r rows IH]; intros cur; cbn [chunks_from].
  - cbn. now rewrite app_nil_r.
  - destruct (is_cut r).
    + specialize (IH []). destruct (chunks_from is_cut [] rows) as [cs rest].
      cbn in *. rewrite <- !app_assoc, IH. reflexivity.
    + rewrite IH, <- app_assoc. reflexivity.
Qed.

Lemma chunks_from_shape (rows cur : list A) :
  Forall (fun r => is_cut r = false) cur ->
  Forall (chunk_ok is_cut) (fst (chunks_from is_cut cur rows)) /\
  Forall (fun r => is_cut r = false) (snd (chunks_from is_cut cur rows)).
Proof.
  revert cur. induction rows as [|r rows IH]; intros cur Hcur; cbn [chunks_from].
  - cbn. split; [constructor|assumption].
  - destruct (is_cut r) eqn:Hr.
    + destruct (IH [] (Forall_nil_2 _)) as [H1 H2].
      destruct (chunks_from is_cut [] rows) as [cs rest]. cbn in *.
      split; [|assumption]. constructor; [|assumption].
      exists cur, r. auto.
    + apply IH. apply Forall_app. split; [assumption|]. constructor; [assumption|constructor].
Qed.

Lemma chunks_from_rest_nil (rows cur : list A) (l : A) :
  last rows = Some l -> is_cut l = true ->
  snd (chunks_from is_cut cur rows) = [].
Proof.
  revert cur. induction rows as [|r rows IH]; intros cur Hlast Hl; [discriminate|].
  cbn [chunks_from]. destruct rows as [|r' rows].
  - cbn in Hlast. injection Hlast as ->. rewrite Hl. reflexivity.
  - change (last (r :: r' :: rows)) with (last (r' :: rows)) in Hlast.
    destruct (is_cut r).
    + specialize (IH [] Hlast Hl).
      destruct (chunks_from is_cut [] (r' :: rows)) as [cs rest]. exact IH.
    + now apply IH.
Qed.
End Chunks.

Lemma process_cutoffs_total (cfg : config) (df : list line) :
  ~ cfg_accept cfg == 0 ->
  exists df',
    process_cutoffs cfg df = Ok df' /\
    Forall2 (fun r r' => set_cut_off 0 r' = set_cut_off 0 r) df df' /\
    (forall i r, df !! i = Some r -> cfg_tolerance cfg <= gap r ->
       exists r', df' !! i = Some r' /\ cut_off r' = 1%Z) /\
    (df <> [] -> exists l, last df' = Some l /\ cut_off l = 1%Z).
Proof.
  intros Hacc. unfold process_cutoffs.
  set (df0 := _ <$> (set_cut_off 0 <$> df)).
  assert (Hlen0 : length df0 = length df) by (unfold df0; now rewrite !length_fmap).
  destruct (process_cutoffs_loop_total cfg (length df0) df0 0 Hacc)
    as (df' & Heq & Hlast); [lia..|now left|].
  pose proof (process_cutoffs_loop_marks _ _ _ _ _ Heq) as Hmarks.
  exists df'. split; [exact Heq|]. split; [|split].
  - apply Forall2_same_length_lookup_2.
    { rewrite (marks_length _ _ Hmarks). lia. }
    intros i r r' Hr Hr'.
    assert (H0 : df0 !! i = Some (if Py.geb (gap r) (cfg_tolerance cfg)
                                  then set_cut_off 1 (set_cut_off 0 r)
                                  else set_cut_off 0 r)).
    { unfold df0. rewrite !list_lookup_fmap, Hr. reflexivity. }
    destruct (Forall2_lookup_l _ _ _ _ _ Hmarks H0) as (r2 & Hr2 & Hrel).
    assert (r2 = r') by congruence. subst r2.
    destruct (Py.geb _ _); destruct Hrel as [->| ->]; reflexivity.
  - intros i r Hr Hgap.
    assert (H0 : df0 !! i = Some (set_cut_off 1 (set_cut_off 0 r))).
    { unfold df0. rewrite !list_lookup_fmap, Hr. cbn.
      apply leb_le in Hgap. unfold Py.geb. now rewrite Hgap. }
    eapply marks_keeps_cut; [exact Hmarks|exact H0|reflexivity].
  - intros Hne. destruct Hlast as [Hz|(r & Hr & Hc)].
    { rewrite Hlen0 in Hz. apply length_zero_iff_nil in Hz. contradiction. }
    exists r. split; [|exact Hc].
    rewrite last_lookup, (marks_length _ _ Hmarks).
    now replace (Init.Nat.pred (length df0)) with (length df0 - 1)%nat by lia.
Qed.

Lemma chunks_from_boundary {A : Type} (is_cut : A -> bool)
    (rows cur : list A) (i : nat) (r : A) :
  (cur ++ rows) !! i = Some r -> (length cur <= i)%nat -> is_cut r = true ->
  exists n, concat (take n (fst (chunks_from is_cut cur rows)))
            = take (S i) (cur ++ rows).
Proof.
  revert cur i. induction rows as [|r0 rows IH]; intros cur i Hi Hlen Hr.
  - rewrite app_nil_r in Hi. apply lookup_lt_Some in Hi. lia.
  - cbn [chunks_from]. destruct (is_cut r0) eqn:Hr0.
    + destruct (decide (i = length cur)) as [->|Hne].
      * exists 1%nat. destruct (chunks_from is_cut [] rows) as [cs rest]. cbn.
        rewrite app_nil_r.
        replace (S (length cur)) with (length (cur ++ [r0])) by (rewrite length_app; cbn; lia).
        change (cur ++ r0 :: rows) with (cur ++ [r0] ++ rows).
        rewrite app_assoc, take_app_length. reflexivity.
      * destruct (IH [] (i - length cur - 1)%nat) as [n Hn]; [|cbn; lia|exact Hr|].
        { rewrite lookup_app_r in Hi by lia.
          destruct (i - length cur)%nat as [|j] eqn:Hj; [lia|].
          cbn in Hi. cbn. now replace (j - 0)%nat with j by lia. }
        exists (S n). destruct (chunks_from is_cut [] rows) as [cs rest].
        cbn in Hn |- *. rewrite Hn.
        change (cur ++ r0 :: rows) with (cur ++ [r0] ++ rows).
        rewrite app_assoc.
        rewrite (take_app_ge (cur ++ [r0])) by (rewrite length_app; cbn; lia).
        rewrite length_app. cbn [length].
        now replace (S i - (length cur + 1))%nat with (S (i - length cur - 1)) by lia.
    + assert (Hne : i <> length cur).
      { intros ->. rewrite lookup_app_r, Nat.sub_diag in Hi by lia.
        cbn in Hi. congruence. }
      destruct (IH (cur ++ [r0]) i) as [n Hn].
      * now rewrite <- app_assoc.
      * rewrite length_app. cbn. lia.
      * exact Hr.
      * exists n. rewrite Hn, <- app_assoc. reflexivity.
Qed.

(** C4. For every non-empty line sequence (and a non-zero accept speed, so
    that the speed flags of merged rows exist) [process_cutoffs] returns the
    same lines with only [cut_off] rewritten; the last line has cut_off = 1;
    the chunks obtained by cutting after each cut_off = 1 line concatenate
    to the whole sequence; and each chunk consists of lines without the mark
    followed by exactly one marked line, its last. *)
Theorem process_cutoffs_chunks_partition (cfg : config) (df : list line)
    (Hnonempty : df <> [])
    (Haccept : ~ cfg_accept cfg == 0) :
  exists df',
    process_cutoffs cfg df = Ok df' /\
    Forall2 (fun r r' => set_cut_off 0 r' = set_cut_off 0 r) df df' /\
    (exists l, last df' = Some l /\ cut_off l = 1%Z) /\
    concat (chunks_of_lines df') = df' /\
    Forall (fun c => exists body l,
              c = body ++ [l] /\ cut_off l = 1%Z /\
              Forall (fun r => cut_off r <> 1%Z) body)
           (chunks_of_lines df').
Proof.
  destruct (process_cutoffs_total cfg df Haccept) as (df' & Heq & Hsame & _ & Hlast).
  destruct (Hlast Hnonempty) as (l & Hl & Hcut).
  exists df'. split; [exact Heq|]. split; [exact Hsame|].
  split; [eauto|]. unfold chunks_of_lines. split.
  - pose proof (chunks_from_concat is_cut_line df' []) as Hc.
    rewrite (chunks_from_rest_nil is_cut_line df' [] l Hl) in Hc.
    + now rewrite app_nil_r in Hc.
    + unfold is_cut_line. now apply Z.eqb_eq.
  - destruct (chunks_from_shape is_cut_line df' [] (Forall_nil_2 _)) as [Hshape _].
    eapply Forall_impl; [exact Hshape|].
    intros c (body & l0 & -> & Hl0 & Hbody). exists body, l0.
    split; [reflexivity|]. split; [now apply Z.eqb_eq|].
    eapply Forall_impl; [exact Hbody|]. intros r Hr. now apply Z.eqb_neq.
Qed.

Lemma process_cutoffs_chunks_partition_witness :
  exists df',
    process_cutoffs example_config planner_example_lines = Ok df' /\
    Forall2 (fun r r' => set_cut_off 0 r' = set_cut_off 0 r) planner_example_lines df' /\
    (exists l, last df' = Some l /\ cut_off l = 1%Z) /\
    concat (chunks_of_lines df') = df' /\
    Forall (fun c => exists body l,
              c = body ++ [l] /\ cut_off l = 1%Z /\
              Forall (fun r => cut_off r <> 1%Z) body)
           (chunks_of_lines df').
Proof.
  apply (process_cutoffs_chunks_partition example_config planner_example_lines);
    discriminate.
Defined.

(** C9. Every line whose gap is at least GLOBAL_TOLERANCE has cut_off = 1
    when [process_cutoffs] returns, whatever its speed flag, and the line
    after it starts a new chunk (the chunks up to some count concatenate to
    exactly the lines up to and including it); moreover neither the scan of
    [process_cutoffs] nor [merge_rows] ever takes a cut_off = 1 mark away. *)
Theorem gap_lines_are_chunk_boundaries (cfg : config) (df : list line)
    (Haccept : ~ cfg_accept cfg == 0) :
  (exists df',
     process_cutoffs cfg df = Ok df' /\
     forall (i : nat) (r : line),
       df !! i = Some r -> cfg_tolerance cfg <= gap r ->
       (exists r', df' !! i = Some r' /\ cut_off r' = 1%Z /\
                   if_too_fast r' = if_too_fast r) /\
       (exists n, concat (take n (chunks_of_lines df')) = take (S i) df')) /\
  (forall fuel st idx st',
     process_cutoffs_loop cfg fuel st idx = Ok st' ->
     forall i r, st !! i = Some r -> cut_off r = 1%Z ->
       exists r', st' !! i = Some r' /\ cut_off r' = 1%Z) /\
  (forall st start_idx merge_count st' k,
     merge_rows cfg st start_idx merge_count = Ok (st', k) ->
     forall i r, st !! i = Some r -> cut_off r = 1%Z ->
       exists r', st' !! i = Some r' /\ cut_off r' = 1%Z).
Proof.
  split; [|split].
  - destruct (process_cutoffs_total cfg df Haccept) as (df' & Heq & Hsame & Hgap & _).
    exists df'. split; [exact Heq|]. intros i r Hr Hge.
    destruct (Hgap i r Hr Hge) as (r' & Hr' & Hcut). split.
    + exists r'. split; [exact Hr'|]. split; [exact Hcut|].
      pose proof (Forall2_lookup_lr _ _ _ _ _ _ Hsame Hr Hr') as Hrel.
      cbv beta in Hrel.
      change (if_too_fast (set_cut_off 0 r') = if_too_fast (set_cut_off 0 r)).
      now rewrite Hrel.
    + apply (chunks_from_boundary is_cut_line df' [] i r'); [exact Hr'|cbn; lia|].
      unfold is_cut_line. now apply Z.eqb_eq.
  - intros fuel st idx st' Heq i r Hr Hc.
    eapply marks_keeps_cut; [eapply process_cutoffs_loop_marks; exact Heq|exact Hr|exact Hc].
  - intros st s mc st' k Heq i r Hr Hc.
    eapply marks_keeps_cut; [eapply merge_rows_marks; exact Heq|exact Hr|exact Hc].
Qed.

Lemma gap_lines_are_chunk_boundaries_witness :
  exists df',
    process_cutoffs example_config planner_example_lines = Ok df' /\
    (cut_off <$> df' !! 2%nat) = Some 1%Z.
Proof.
  destruct (gap_lines_are_chunk_boundaries example_config planner_example_lines)
    as ((df' & Heq & Hgap) & _).
  - discriminate.
  - exists df'. split; [exact Heq|].
    destruct (Hgap 2%nat _ eq_refl) as ((r' & -> & Hc & _) & _).
    + discriminate.
    + cbn. now rewrite Hc.
Defined.

(** ** Rounding *)

Lemma round_half_even_bounds (x : Q) :
  (Qfloor x <= Py.round_half_even x <= Qfloor x + 1)%Z.
Proof.
  unfold Py.round_half_even.
  repeat match goal with |- context [if ?b then _ else _] => destruct b end; lia.
Qed.

Lemma round_half_even_mono (x y : Q) :
  x <= y -> (Py.round_half_even x <= Py.round_half_even y)%Z.
Proof.
  intros Hxy. pose proof (Qfloor_resp_le _ _ Hxy) as Hf.
  destruct (Z.eq_dec (Qfloor x) (Qfloor y)) as [Heq|Hne].
  - unfold Py.round_half_even. rewrite <- Heq.
    assert (Hr : x - inject_Z (Qfloor x) <= y - inject_Z (Qfloor x)) by lra.
    destruct (Py.ltb (x - inject_Z (Qfloor x)) (1 # 2)) eqn:E1.
    { repeat match goal with |- context [if ?b then _ else _] => destruct b end; lia. }
    apply ltb_ge in E1.
    assert (E1' : Py.ltb (y - inject_Z (Qfloor x)) (1 # 2) = false) by (apply ltb_ge; lra).
    rewrite E1'.
    destruct (Py.gtb (x - inject_Z (Qfloor x)) (1 # 2)) eqn:E2.
    { apply gtb_gt in E2.
      assert (E2' : Py.gtb (y - inject_Z (Qfloor x)) (1 # 2) = true) by (apply gtb_gt; lra).
      rewrite E2'. lia. }
    repeat match goal with |- context [if ?b then _ else _] => destruct b end; lia.
  - pose proof (round_half_even_bounds x). pose proof (round_half_even_bounds y). lia.
Qed.

Lemma round3_mono (x y : Q) : x <= y -> Py.round3 x <= Py.round3 y.
Proof.
  intros Hxy. unfold Py.round3.
  assert (H : (Py.round_half_even (x * 1000) <= Py.round_half_even (y * 1000))%Z).
  { apply round_half_even_mono. lra. }
  unfold Qle. cbn. lia.
Qed.

Lemma round_half_even_comp (x y : Q) :
  x == y -> Py.round_half_even x = Py.round_half_even y.
Proof.
  intros Hxy. apply Z.le_antisymm; apply round_half_even_mono; lra.
Qed.

Lemma round3_comp (x y : Q) : x == y -> Py.round3 x = Py.round3 y.
Proof.
  intros Hxy. unfold Py.round3.
  rewrite (round_half_even_comp (x * 1000) (y * 1000)); [reflexivity|].
  now rewrite Hxy.
Qed.

Lemma py_max_ge_l (a b : Q) : a <= Py.max a b.
Proof.
  unfold Py.max. destruct (Py.gtb b a) eqn:E; [apply gtb_gt in E|]; lra.
Qed.

Lemma py_max_Qmax (a b : Q) : Py.max a b == Qmax a b.
Proof.
  unfold Py.max. destruct (Py.gtb b a) eqn:E.
  - apply gtb_gt in E. rewrite Q.max_r; lra.
  - apply gtb_le in E. rewrite Q.max_l; lra.
Qed.

(** ** The speed solver *)

Section SolveSpeed.

Variables chunk_durs tol_durs durations all_gaps accept min_speed : Q.
Hypothesis Haccept : ~ accept == 0.

Lemma solve_speed_regime1 :
  (chunk_durs + all_gaps) / accept < durations ->
  ~ durations - (1 # 10) == 0 ->
  Audio.solve_speed chunk_durs tol_durs durations all_gaps accept min_speed
  = Ok (Py.round3 (Py.max min_speed
                     ((chunk_durs + all_gaps) / (durations - (1 # 10)))), true).
Proof.
  intros H1 Hd. unfold Audio.solve_speed.
  rewrite (fdiv_ok _ _ Haccept). cbn [bind].
  apply ltb_lt in H1. rewrite H1, (fdiv_ok _ _ Hd). reflexivity.
Qed.

Lemma solve_speed_regime2 :
  ~ (chunk_durs + all_gaps) / accept < durations ->
  chunk_durs / accept < durations ->
  ~ durations - (1 # 10) == 0 ->
  Audio.solve_speed chunk_durs tol_durs durations all_gaps accept min_speed
  = Ok (Py.round3 (Py.max min_speed (chunk_durs / (durations - (1 # 10)))), false).
Proof.
  intros H1 H2 Hd. unfold Audio.solve_speed.
  rewrite !(fdiv_ok _ _ Haccept). cbn [bind].
  assert (E1 : Py.ltb ((chunk_durs + all_gaps) / accept) durations = false)
    by (apply ltb_ge; lra).
  apply ltb_lt in H2. rewrite E1, H2, (fdiv_ok _ _ Hd). reflexivity.
Qed.

Lemma solve_speed_regime3 :
  ~ (chunk_durs + all_gaps) / accept < durations ->
  ~ chunk_durs / accept < durations ->
  (chunk_durs + all_gaps) / accept < tol_durs ->
  ~ tol_durs - (1 # 10) == 0 ->
  Audio.solve_speed chunk_durs tol_durs durations all_gaps accept min_speed
  = Ok (Py.round3 (Py.max min_speed
                     ((chunk_durs + all_gaps) / (tol_durs - (1 # 10)))), true).
Proof.
  intros H1 H2 H3 Hd. unfold Audio.solve_speed.
  rewrite !(fdiv_ok _ _ Haccept). cbn [bind].
  assert (E1 : Py.ltb ((chunk_durs + all_gaps) / accept) durations = false)
    by (apply ltb_ge; lra).
  assert (E2 : Py.ltb (chunk_durs / accept) durations = false)
    by (apply ltb_ge; lra).
  apply ltb_lt in H3. rewrite E1, E2, H3, (fdiv_ok _ _ Hd). reflexivity.
Qed.

Lemma solve_speed_regime4 :
  ~ (chunk_durs + all_gaps) / accept < durations ->
  ~ chunk_durs / accept < durations ->
  ~ (chunk_durs + all_gaps) / accept < tol_durs ->
  ~ tol_durs - (1 # 10) == 0 ->
  Audio.solve_speed chunk_durs tol_durs durations all_gaps accept min_speed
  = Ok (Py.round3 (chunk_durs / (tol_durs - (1 # 10))), false).
Proof.
  intros H1 H2 H3 Hd. unfold Audio.solve_speed.
  rewrite !(fdiv_ok _ _ Haccept). cbn [bind].
  assert (E1 : Py.ltb ((chunk_durs + all_gaps) / accept) durations = false)
    by (apply ltb_ge; lra).
  assert (E2 : Py.ltb (chunk_durs / accept) durations = false)
    by (apply ltb_ge; lra).
  assert (E3 : Py.ltb ((chunk_durs + all_gaps) / accept) tol_durs = false)
    by (apply ltb_ge; lra).
  rewrite E1, E2, E3, (fdiv_ok _ _ Hd). reflexivity.
Qed.

End SolveSpeed.

(** C1 (as amended). [process_chunk] evaluates the four regimes in order on
    chunk_durs, tol_durs, durations = tol_durs - last tolerance and all_gaps
    = sum of gaps - last gap, with epsilon = 0.1, and returns the regime's
    value rounded to three decimals: regimes 1 and 3 keep the gaps, regimes
    2 and 4 drop them, regimes 1-3 floor the value at min_speed before
    rounding and regime 4 does not.  Hence in regimes 1-3 the returned speed
    is at least round(min_speed, 3), and at least min_speed when min_speed
    has no more than three decimals.  On the spec's input (5.0, 1.0, 5.5,
    6.0, accept 1.2) regime 1 fires and the result is (1.111, true) for every
    min_speed up to 10/9; regime 4 can return less than min_speed. *)
Theorem process_chunk_regimes
    (chunk_df : list Audio.task) (last_row : Audio.task) (accept min_speed : Q)
    (Hlast : last chunk_df = Some last_row)
    (Haccept : ~ accept == 0) :
  let chunk_durs := Audio.sumQ (Audio.real_dur <$> chunk_df) in
  let tol_durs := Audio.sumQ (Audio.tol_dur <$> chunk_df) in
  let durations := tol_durs - Audio.tolerance last_row in
  let all_gaps := Audio.sumQ (Audio.gap <$> chunk_df) - Audio.gap last_row in
  let eps := 1 # 10 in
  let r1 := (chunk_durs + all_gaps) / accept < durations in
  let r2 := chunk_durs / accept < durations in
  let r3 := (chunk_durs + all_gaps) / accept < tol_durs in
  (r1 -> ~ durations - eps == 0 ->
   let v := Py.max min_speed ((chunk_durs + all_gaps) / (durations - eps)) in
   Audio.process_chunk chunk_df accept min_speed = Ok (Py.round3 v, true) /\
   min_speed <= v /\ Py.round3 min_speed <= Py.round3 v /\
   (Py.round3 min_speed == min_speed -> min_speed <= Py.round3 v)) /\
  (~ r1 -> r2 -> ~ durations - eps == 0 ->
   let v := Py.max min_speed (chunk_durs / (durations - eps)) in
   Audio.process_chunk chunk_df accept min_speed = Ok (Py.round3 v, false) /\
   min_speed <= v /\ Py.round3 min_speed <= Py.round3 v /\
   (Py.round3 min_speed == min_speed -> min_speed <= Py.round3 v)) /\
  (~ r1 -> ~ r2 -> r3 -> ~ tol_durs - eps == 0 ->
   let v := Py.max min_speed ((chunk_durs + all_gaps) / (tol_durs - eps)) in
   Audio.process_chunk chunk_df accept min_speed = Ok (Py.round3 v, true) /\
   min_speed <= v /\ Py.round3 min_speed <= Py.round3 v /\
   (Py.round3 min_speed == min_speed -> min_speed <= Py.round3 v)) /\
  (~ r1 -> ~ r2 -> ~ r3 -> ~ tol_durs - eps == 0 ->
   Audio.process_chunk chunk_df accept min_speed
   = Ok (Py.round3 (chunk_durs / (tol_durs - eps)), false)) /\
  (forall m, m <= 10 # 9 ->
     Audio.process_chunk solver_example_chunk (12 # 10) m = Ok (1111 # 1000, true)) /\
  Audio.solve_speed (54 # 10) 6 (45 # 10) 2 (12 # 10) 1 = Ok (915 # 1000, false).
Proof.
  intros chunk_durs tol_durs durations all_gaps eps r1 r2 r3.
  assert (Hfloor : forall v, min_speed <= v ->
            min_speed <= v /\ Py.round3 min_speed <= Py.round3 v /\
            (Py.round3 min_speed == min_speed -> min_speed <= Py.round3 v)).
  { intros v Hv. split; [exact Hv|].
    pose proof (round3_mono _ _ Hv) as Hr. split; [exact Hr|].
    intros Hm. rewrite <- Hm. exact Hr. }
  unfold Audio.process_chunk. rewrite Hlast.
  fold chunk_durs tol_durs. fold durations. fold all_gaps.
  split; [|split; [|split; [|split; [|split]]]].
  - intros H1 Hd. split; [|apply Hfloor, py_max_ge_l].
    now rewrite solve_speed_regime1.
  - intros H1 H2 Hd. split; [|apply Hfloor, py_max_ge_l].
    now rewrite solve_speed_regime2.
  - intros H1 H2 H3 Hd. split; [|apply Hfloor, py_max_ge_l].
    now rewrite solve_speed_regime3.
  - intros H1 H2 H3 Hd. now rewrite solve_speed_regime4.
  - intros m Hm.
    assert (Hs : Audio.sumQ (Audio.real_dur <$> solver_example_chunk) = 5 /\
                 Audio.sumQ (Audio.tol_dur <$> solver_example_chunk) = 6 /\
                 Audio.sumQ (Audio.gap <$> solver_example_chunk) = 3)
      by (repeat split; reflexivity).
    destruct Hs as (Hs1 & Hs2 & Hs3).
    cbn [last solver_example_chunk]. rewrite Hs1, Hs2, Hs3.
    cbn [Audio.tolerance Audio.gap].
    rewrite solve_speed_regime1; [|discriminate|reflexivity|discriminate].
    assert (Hv : (5 + (3 - 2)) / (6 - (1 # 2) - (1 # 10)) == 10 # 9) by reflexivity.
    assert (Hmax : Py.max m ((5 + (3 - 2)) / (6 - (1 # 2) - (1 # 10))) == 10 # 9).
    { rewrite py_max_Qmax, Hv. apply Q.max_r. exact Hm. }
    rewrite (round3_comp _ _ Hmax). reflexivity.
  - reflexivity.
Qed.

Lemma process_chunk_regimes_witness :
  Audio.process_chunk solver_example_chunk (12 # 10) 1 = Ok (1111 # 1000, true) /\
  1 <= 1111 # 1000.
Proof.
  destruct (process_chunk_regimes solver_example_chunk
              (Audio.Task 2 (Audio.SrtTime 0 0 3 500) (Audio.SrtTime 0 0 6 0)
                          2 (1 # 2) 3 1 [EmptyString] 3 None)
              (12 # 10) 1 eq_refl) as (H1 & _).
  - discriminate.
  - destruct H1 as (Heq & _ & _ & Hfloor).
    + reflexivity.
    + discriminate.
    + split.
      * rewrite Heq. reflexivity.
      * discriminate.
Defined.

(** C1 as stated fails: on the spec's own input the returned speed is 1.111,
    not max(min_speed, 6.0/5.4) = 10/9; and with min_speed = 1.1114 regime 1
    fires and returns 1.111, which is below min_speed. *)
Lemma process_chunk_returns_rounded_speed :
  Audio.process_chunk solver_example_chunk (12 # 10) 1 = Ok (1111 # 1000, true) /\
  ~ 1111 # 1000 == Py.max 1 ((5 + 1) / ((55 # 10) - (1 # 10))) /\
  (5 + 1) / (12 # 10) < 55 # 10 /\
  Audio.process_chunk solver_example_chunk (12 # 10) (11114 # 10000)
  = Ok (1111 # 1000, true) /\
  1111 # 1000 < 11114 # 10000.
Proof.
  split; [reflexivity|]. split; [discriminate|]. split; [reflexivity|].
  split; reflexivity.
Qed.

(** ** The speed-change corrector *)

Lemma get_audio_duration_write (fs : Audio.files) (p : Audio.path) (d : Q) :
  Audio.get_audio_duration (Audio.write p d fs) p = d.
Proof.
  unfold Audio.get_audio_duration, Audio.write.
  destruct (decide (p = p)); [reflexivity|contradiction].
Qed.

Lemma py_int_nonneg (x : Q) :
  0 <= x -> inject_Z (Py.int x) <= x /\ x < inject_Z (Py.int x) + 1.
Proof.
  intros Hx.
  assert (Hq : Py.int x = Qfloor x).
  { unfold Py.int. destruct x as [n d]. cbn.
    apply Z.quot_div_nonneg; [|lia].
    unfold Qle in Hx. cbn in Hx. lia. }
  rewrite Hq. split; [apply Qfloor_le|].
  pose proof (Qlt_floor x) as H. rewrite inject_Z_plus in H. exact H.
Qed.

Section Drift.

Variable atempo : Audio.path -> Q -> nat -> option Q.
Variables (fs : Audio.files) (input_file output_file : Audio.path).
Variables (speed_factor out : Q).

Let raw := Audio.get_audio_duration fs input_file.
Let expected := raw / speed_factor.
Let fs1 := Audio.write output_file out fs.

Hypothesis Hfar : ~ Qabs (speed_factor - 1) < 1 # 1000.
Hypothesis Hspeed : ~ speed_factor == 0.
Hypothesis Hout :
  atempo input_file speed_factor 0 = Some out \/
  (atempo input_file speed_factor 0 = None /\
   atempo input_file speed_factor 1 = Some out).

Lemma fs1_output : Audio.get_audio_duration fs1 output_file = out.
Proof. apply get_audio_duration_write. Qed.

Lemma adjust_audio_speed_runs_check :
  Audio.adjust_audio_speed atempo fs input_file output_file speed_factor
  = Audio.check_drift fs1 output_file raw speed_factor.
Proof.
  unfold Audio.adjust_audio_speed.
  assert (E : Py.ltb (Qabs (speed_factor - 1)) (1 # 1000) = false).
  { apply ltb_ge. apply Qnot_lt_le. exact Hfar. }
  rewrite E. cbn [Audio.attempts Audio.max_retries].
  destruct Hout as [->|[-> ->]]; reflexivity.
Qed.

Lemma check_drift_trim :
  expected * (102 # 100) <= out -> raw < 3 -> out - expected <= 1 # 10 ->
  Audio.check_drift fs1 output_file raw speed_factor
  = Ok (Audio.write output_file
          (Audio.pydub_prefix out (Py.int (expected * 1000))) fs1).
Proof.
  intros H1 H2 H3. unfold Audio.check_drift.
  rewrite (fdiv_ok _ _ Hspeed). cbn [bind]. fold expected.
  rewrite !fs1_output.
  apply leb_le in H1. apply ltb_lt in H2. apply leb_le in H3.
  unfold Py.geb. rewrite H1, H2, H3. reflexivity.
Qed.

Lemma check_drift_fatal :
  expected * (102 # 100) <= out -> ~ (raw < 3 /\ out - expected <= 1 # 10) ->
  Audio.check_drift fs1 output_file raw speed_factor = Raise RuntimeError.
Proof.
  intros H1 H2. unfold Audio.check_drift.
  rewrite (fdiv_ok _ _ Hspeed). cbn [bind]. fold expected.
  rewrite !fs1_output.
  apply leb_le in H1. unfold Py.geb. rewrite H1. cbn [andb].
  destruct (Py.ltb raw 3) eqn:E2; cbn [andb]; [|reflexivity].
  destruct (Py.leb (out - expected) (1 # 10)) eqn:E3; [|reflexivity].
  exfalso. apply H2. split; [now apply ltb_lt|now apply leb_le].
Qed.

Lemma check_drift_keep :
  out < expected * (102 # 100) ->
  Audio.check_drift fs1 output_file raw speed_factor = Ok fs1.
Proof.
  intros H1. unfold Audio.check_drift.
  rewrite (fdiv_ok _ _ Hspeed). cbn [bind]. fold expected.
  rewrite !fs1_output.
  apply leb_gt in H1. unfold Py.geb. rewrite H1. reflexivity.
Qed.

Lemma trimmed_duration :
  0 <= expected -> expected * (102 # 100) <= out ->
  Audio.pydub_prefix out (Py.int (expected * 1000))
  = inject_Z (Py.int (expected * 1000)) / 1000 /\
  inject_Z (Py.int (expected * 1000)) / 1000 <= expected /\
  expected < inject_Z (Py.int (expected * 1000)) / 1000 + (1 # 1000).
Proof.
  intros H0 H1.
  destruct (py_int_nonneg (expected * 1000)) as [Hlo Hhi]; [lra|].
  set (k := Py.int (expected * 1000)) in *.
  assert (Hk : (0 <= k)%Z).
  { assert (Hk' : inject_Z (-1) < inject_Z k).
    { change (inject_Z (-1)) with (-1 # 1). lra. }
    rewrite <- Zlt_Qlt in Hk'. lia. }
  assert (Hdiv : inject_Z k / 1000 == inject_Z k * (1 # 1000)) by reflexivity.
  split; [|split; lra].
  unfold Audio.pydub_prefix.
  destruct (Z.ltb_spec k 0) as [Hneg|_]; [lia|].
  unfold Py.min.
  assert (E : Py.ltb out (inject_Z k / 1000) = false) by (apply ltb_ge; lra).
  now rewrite E.
Qed.

End Drift.

(** C3 (as amended). When ffmpeg (at the first attempt, or at the second
    after a failed first) writes an output whose duration is at least 2
    percent above the theoretical duration raw / speed_factor: if the raw
    clip is under 3 s and the absolute excess is at most 0.1 s, the call
    succeeds and the output is cut to its first int(expected * 1000)
    milliseconds, that is, to the theoretical duration truncated to whole
    milliseconds (less than 1 ms below it); otherwise the drift error is
    raised.  Below 2 percent the output is left as ffmpeg wrote it.  On raw
    = 2 s, factor = 1.5, output 1.36 s the clip is cut to 1.333 s. *)
Theorem adjust_audio_speed_drift_correction
    (atempo : Audio.path -> Q -> nat -> option Q) (fs : Audio.files)
    (input_file output_file : Audio.path) (speed_factor out : Q)
    (Hfar : ~ Qabs (speed_factor - 1) < 1 # 1000)
    (Hspeed : ~ speed_factor == 0)
    (Hout : atempo input_file speed_factor 0%nat = Some out \/
            (atempo input_file speed_factor 0%nat = None /\
             atempo input_file speed_factor 1%nat = Some out)) :
  let raw := Audio.get_audio_duration fs input_file in
  let expected := raw / speed_factor in
  let fs1 := Audio.write output_file out fs in
  let k := Py.int (expected * 1000) in
  let run := Audio.adjust_audio_speed atempo fs input_file output_file speed_factor in
  (expected * (102 # 100) <= out -> raw < 3 -> out - expected <= 1 # 10 ->
   run = Ok (Audio.write output_file (Audio.pydub_prefix out k) fs1) /\
   (0 <= expected ->
    Audio.get_audio_duration
      (Audio.write output_file (Audio.pydub_prefix out k) fs1) output_file
    = inject_Z k / 1000 /\
    inject_Z k / 1000 <= expected /\
    expected < inject_Z k / 1000 + (1 # 1000))) /\
  (expected * (102 # 100) <= out -> ~ (raw < 3 /\ out - expected <= 1 # 10) ->
   run = Raise RuntimeError) /\
  (out < expected * (102 # 100) ->
   run = Ok fs1 /\ Audio.get_audio_duration fs1 output_file = out) /\
  (exists fs',
     Audio.adjust_audio_speed drift_example_atempo drift_example_files
       (Audio.TEMP_FILE 1 0) (Audio.OUTPUT_FILE 1 0) (3 # 2) = Ok fs' /\
     Audio.get_audio_duration fs' (Audio.OUTPUT_FILE 1 0) = 1333 # 1000).
Proof.
  intros raw expected fs1 k run. unfold run.
  rewrite (adjust_audio_speed_runs_check atempo fs input_file output_file
             speed_factor out Hfar Hout).
  fold raw fs1. split; [|split; [|split]].
  - intros H1 H2 H3. split.
    + now apply check_drift_trim.
    + intros H0. rewrite get_audio_duration_write.
      now apply trimmed_duration.
  - intros H1 H2. now apply check_drift_fatal.
  - intros H1. split; [now apply check_drift_keep|].
    apply get_audio_duration_write.
  - eexists. split; reflexivity.
Qed.

Lemma adjust_audio_speed_drift_correction_witness :
  Audio.adjust_audio_speed drift_example_atempo drift_example_files
    (Audio.TEMP_FILE 1 0) (Audio.OUTPUT_FILE 1 0) (3 # 2)
  = Ok (Audio.write (Audio.OUTPUT_FILE 1 0)
          (Audio.pydub_prefix (136 # 100) 1333)
          (Audio.write (Audio.OUTPUT_FILE 1 0) (136 # 100) drift_example_files)).
Proof.
  destruct (adjust_audio_speed_drift_correction drift_example_atempo
              drift_example_files (Audio.TEMP_FILE 1 0) (Audio.OUTPUT_FILE 1 0)
              (3 # 2) (136 # 100)) as (Htrim & _).
  - discriminate.
  - discriminate.
  - left. reflexivity.
  - destruct Htrim as [Heq _].
    + discriminate.
    + reflexivity.
    + discriminate.
    + exact Heq.
Defined.

(** C3 as stated fails on its own example: the clip is cut to 1333 ms, which
    is not the theoretical duration 2 / 1.5 s. *)
Lemma drift_trim_is_not_exact :
  exists fs',
    Audio.adjust_audio_speed drift_example_atempo drift_example_files
      (Audio.TEMP_FILE 1 0) (Audio.OUTPUT_FILE 1 0) (3 # 2) = Ok fs' /\
    Audio.get_audio_duration fs' (Audio.OUTPUT_FILE 1 0) = 1333 # 1000 /\
    ~ 1333 # 1000 == 2 / (3 # 2).
Proof.
  eexists. split; [reflexivity|]. split; [reflexivity|discriminate].
Qed.

(** C10. When the speed factor differs from 1.0 by less than 0.001, the
    input clip is copied to the output and the call returns at once: the
    output lasts exactly as long as the raw clip, and ffmpeg, the drift
    check, the trim and the drift error play no part (the result is the
    same whatever ffmpeg would have done). *)
Theorem adjust_audio_speed_unit_factor_copies
    (atempo : Audio.path -> Q -> nat -> option Q) (fs : Audio.files)
    (input_file output_file : Audio.path) (speed_factor audio : Q)
    (Hnear : Qabs (speed_factor - 1) < 1 # 1000)
    (Hinput : fs input_file = Some audio) :
  Audio.adjust_audio_speed atempo fs input_file output_file speed_factor
  = Ok (Audio.write output_file audio fs) /\
  Audio.get_audio_duration (Audio.write output_file audio fs) output_file
  = Audio.get_audio_duration fs input_file /\
  (forall q, q <> output_file -> Audio.write output_file audio fs q = fs q) /\
  (forall atempo',
     Audio.adjust_audio_speed atempo' fs input_file output_file speed_factor
     = Audio.adjust_audio_speed atempo fs input_file output_file speed_factor).
Proof.
  assert (E : Py.ltb (Qabs (speed_factor - 1)) (1 # 1000) = true)
    by now apply ltb_lt.
  repeat split.
  - unfold Audio.adjust_audio_speed. now rewrite E, Hinput.
  - rewrite get_audio_duration_write. unfold Audio.get_audio_duration.
    now rewrite Hinput.
  - intros q Hq. unfold Audio.write. now destruct (decide (q = output_file)).
  - intros atempo'. unfold Audio.adjust_audio_speed. now rewrite E.
Qed.

Lemma adjust_audio_speed_unit_factor_copies_witness :
  Audio.adjust_audio_speed (fun _ _ _ => Some 100) drift_example_files
    (Audio.TEMP_FILE 1 0) (Audio.OUTPUT_FILE 1 0) (10004 # 10000)
  = Ok (Audio.write (Audio.OUTPUT_FILE 1 0) 2 drift_example_files).
Proof.
  apply (adjust_audio_speed_unit_factor_copies (fun _ _ _ => Some 100)
           drift_example_files (Audio.TEMP_FILE 1 0) (Audio.OUTPUT_FILE 1 0)
           (10004 # 10000) 2).
  - reflexivity.
  - reflexivity.
Defined.

(** ** The synthesis dispatcher *)

Section Dispatcher.

Variable tts_main : string -> Audio.path -> option Q.

Lemma process_lines_raise (n i : Z) (ls : list string) (acc : Q) (e : exn) :
  Audio.process_lines tts_main n i ls acc = Raise e -> e = SynthesisError.
Proof.
  revert i acc. induction ls as [|l ls IH]; intros i acc; cbn; [discriminate|].
  destruct (tts_main l _); [apply IH|]. now intros [= <-].
Qed.

Lemma process_row_raise (row : Audio.task) (e : exn) :
  Audio.process_row tts_main row = Raise e -> e = SynthesisError.
Proof.
  unfold Audio.process_row.
  destruct (Audio.process_lines _ _ _ _ _) eqn:E; cbn; [discriminate|].
  intros [= <-]. eapply process_lines_raise. exact E.
Qed.

Lemma apply_results_length (l : list (nat * Q)) (df : list Audio.task) :
  length (apply_results l df) = length df.
Proof.
  revert df. induction l as [|p l IH]; intros df; cbn; [reflexivity|].
  unfold apply_results in IH. now rewrite IH, length_alter.
Qed.

Lemma apply_results_other (l : list (nat * Q)) (df : list Audio.task) (j : nat) :
  j ∉ l.*1 -> apply_results l df !! j = df !! j.
Proof.
  revert df. induction l as [|[i v] l IH]; intros df Hj; [reflexivity|].
  cbn in Hj. apply not_elem_of_cons in Hj as [Hji Hj].
  cbn. unfold apply_results in IH. rewrite IH by assumption.
  now apply list_lookup_alter_ne.
Qed.

Lemma apply_results_at (l : list (nat * Q)) (df : list Audio.task) (j : nat) (v : Q) :
  (j, v) ∈ l -> (forall v', (j, v') ∈ l -> v' = v) ->
  apply_results l df !! j = Audio.set_real_dur v <$> df !! j.
Proof.
  revert df. induction l as [|[i v0] l IH]; intros df Hin Hall.
  - now apply elem_of_nil in Hin.
  - cbn. fold (apply_results l (alter (Audio.set_real_dur v0) i df)).
    destruct (decide (j ∈ l.*1)) as [Hjl|Hjl].
    + apply list_elem_of_fmap in Hjl as ([j' v'] & Hj' & Hin'). cbn in Hj'. subst j'.
      assert (v' = v) by (apply Hall; now right). subst v'.
      rewrite IH; [|exact Hin'|intros v'' H''; apply Hall; now right].
      destruct (decide (i = j)) as [->|Hne].
      * rewrite list_lookup_alter_eq. now destruct (df !! j).
      * now rewrite list_lookup_alter_ne.
    + rewrite apply_results_other by assumption.
      apply elem_of_cons in Hin as [[= -> ->]|Hin].
      * apply list_lookup_alter_eq.
      * exfalso. apply Hjl. apply list_elem_of_fmap. now exists (j, v).
Qed.

Lemma warmup_ok (rows : list (nat * Audio.task)) (df : list Audio.task) :
  (forall p, p ∈ rows -> exists v, Audio.process_row tts_main p.2 = Ok v) ->
  Audio.warmup tts_main rows df
  = Ok (apply_results ((fun p => (p.1, recorded tts_main p.2)) <$> rows) df).
Proof.
  revert df. induction rows as [|[i row] rows IH]; intros df Hok; [reflexivity|].
  cbn [Audio.warmup].
  destruct (Hok (i, row)) as [[n d] Hrow]; [now left|]. cbn in Hrow.
  rewrite Hrow. cbn [bind]. rewrite IH by (intros p Hp; apply Hok; now right).
  cbn. unfold recorded at 2. now rewrite Hrow.
Qed.

Lemma warmup_raise (rows : list (nat * Audio.task)) (df : list Audio.task)
    (p : nat * Audio.task) (e : exn) :
  p ∈ rows -> Audio.process_row tts_main p.2 = Raise e ->
  Audio.warmup tts_main rows df = Raise SynthesisError.
Proof.
  revert df. induction rows as [|[i row] rows IH]; intros df Hin Hp.
  - now apply elem_of_nil in Hin.
  - cbn [Audio.warmup].
    destruct (Audio.process_row tts_main row) as [[n d]|e'] eqn:Hrow; cbn [bind].
    + apply elem_of_cons in Hin as [->|Hin]; [cbn in Hp; congruence|].
      now apply IH.
    + now rewrite (process_row_raise _ _ Hrow).
Qed.

Lemma collect_results (rows : list (nat * Audio.task)) (df : list Audio.task) :
  Audio.collect tts_main rows df
  = apply_results ((fun p => (p.1, recorded tts_main p.2)) <$> rows) df.
Proof.
  revert df. induction rows as [|[i row] rows IH]; intros df; [reflexivity|].
  cbn [Audio.collect]. unfold recorded at 1.
  cbn [fmap list_fmap apply_results foldl fst snd].
  destruct (Audio.process_row tts_main row) as [[n d]|e]; rewrite IH; reflexivity.
Qed.

End Dispatcher.

Lemma warm_rows_elem (df : list Audio.task) (w : nat) (p : nat * Audio.task) :
  p ∈ imap pair (take w df) <-> (p.1 < w)%nat /\ df !! p.1 = Some p.2.
Proof.
  rewrite elem_of_lookup_imap. split.
  - intros (i & x & -> & Hx). apply lookup_take_Some in Hx as [Hx Hi]. now cbn.
  - destruct p as [i x]. cbn. intros [Hi Hx]. exists i, x. split; [reflexivity|].
    apply lookup_take_Some. now split.
Qed.

Lemma completed_elem (df : list Audio.task) (w : nat) (order : list nat)
    (p : nat * Audio.task) :
  p ∈ omap (fun i => imap (fun i row => ((w + i)%nat, row)) (drop w df) !! i) order
  <-> exists k, k ∈ order /\ p.1 = (w + k)%nat /\ df !! p.1 = Some p.2.
Proof.
  rewrite list_elem_of_omap. split.
  - intros (k & Hk & Hp). exists k. split; [exact Hk|].
    rewrite list_lookup_imap, lookup_drop in Hp.
    destruct (df !! (w + k)%nat) as [row|] eqn:Hrow; [|discriminate].
    cbn in Hp. injection Hp as <-. now cbn.
  - intros (k & Hk & Hp1 & Hp2). exists k. split; [exact Hk|].
    rewrite list_lookup_imap, lookup_drop. destruct p as [i row]. cbn in *.
    subst i. now rewrite Hp2.
Qed.

(** C8 (as amended). A synthesis failure is tolerated only in the parallel
    phase.  If the synthesis of one of the first min(WARMUP_SIZE, len) = up
    to 5 lines fails, [generate_tts_audio] re-raises and the batch is
    aborted.  If the warm-up lines succeed, the batch runs to completion
    whatever the order in which the remaining lines complete: every line
    whose synthesis fails is marked real_dur = -1, every other line gets its
    measured duration, and nothing else in the frame changes. *)
Theorem generate_tts_audio_failure_handling
    (tts_main : string -> Audio.path -> option Q) (order : list nat)
    (tasks_df : list Audio.task)
    (Horder : order ≡ₚ
              seq 0 (length tasks_df - Nat.min Audio.WARMUP_SIZE (length tasks_df))) :
  let warmup_size := Nat.min Audio.WARMUP_SIZE (length tasks_df) in
  (forall i row e,
     (i < warmup_size)%nat -> tasks_df !! i = Some row ->
     Audio.process_row tts_main row = Raise e ->
     Audio.generate_tts_audio tts_main order tasks_df = Raise SynthesisError) /\
  ((forall i row,
      (i < warmup_size)%nat -> tasks_df !! i = Some row ->
      exists v, Audio.process_row tts_main row = Ok v) ->
   exists df',
     Audio.generate_tts_audio tts_main order tasks_df = Ok df' /\
     length df' = length tasks_df /\
     forall i row,
       tasks_df !! i = Some row ->
       df' !! i = Some (Audio.set_real_dur (recorded tts_main row) row) /\
       (forall e, Audio.process_row tts_main row = Raise e ->
          (warmup_size <= i)%nat /\
          Audio.real_dur (Audio.set_real_dur (recorded tts_main row) row) = -1)).
Proof.
  intros w. unfold Audio.generate_tts_audio.
  set (df0 := Audio.set_real_dur 0 <$> tasks_df).
  assert (Hlen0 : length df0 = length tasks_df) by (unfold df0; apply length_fmap).
  rewrite Hlen0. fold w.
  assert (Hdf0 : forall i row, tasks_df !! i = Some row ->
                   df0 !! i = Some (Audio.set_real_dur 0 row)).
  { intros i row Hrow. unfold df0. now rewrite list_lookup_fmap, Hrow. }
  split.
  - intros i row e Hi Hrow Hfail.
    rewrite (warmup_raise tts_main _ df0 (i, Audio.set_real_dur 0 row) e);
      [reflexivity| |exact Hfail].
    apply warm_rows_elem. split; [exact Hi|]. now apply Hdf0.
  - intros Hwarm. rewrite warmup_ok.
    2:{ intros [i row0] Hp. apply warm_rows_elem in Hp as [Hi Hrow0]. cbn [fst snd] in *.
        unfold df0 in Hrow0. rewrite list_lookup_fmap in Hrow0.
        destruct (tasks_df !! i) as [row|] eqn:Hrow; [|discriminate].
        injection Hrow0 as <-. exact (Hwarm i row Hi Hrow). }
    cbn [bind].
    set (res1 := (fun p => (p.1, recorded tts_main p.2)) <$> imap pair (take w df0)).
    set (df1 := apply_results res1 df0).
    assert (Hlen1 : length df1 = length tasks_df).
    { unfold df1. now rewrite apply_results_length. }
    rewrite Hlen1.
    (* the frame after the warm-up *)
    assert (Hdf1 : forall i row, tasks_df !! i = Some row ->
              df1 !! i = Some (if decide (i < w)%nat
                               then Audio.set_real_dur (recorded tts_main row) row
                               else Audio.set_real_dur 0 row)).
    { intros i row Hrow. unfold df1. destruct (decide (i < w)%nat) as [Hi|Hi].
      - rewrite (apply_results_at res1 df0 i (recorded tts_main row)).
        + now rewrite (Hdf0 i row Hrow).
        + unfold res1. apply list_elem_of_fmap.
          exists (i, Audio.set_real_dur 0 row). split; [reflexivity|].
          apply warm_rows_elem. split; [exact Hi|]. now apply Hdf0.
        + intros v' Hv'. unfold res1 in Hv'.
          apply list_elem_of_fmap in Hv' as ([i' row'] & [= -> ->] & Hp).
          apply warm_rows_elem in Hp as [_ Hrow']. cbn [fst snd] in Hrow'.
          rewrite (Hdf0 _ _ Hrow) in Hrow'. now injection Hrow' as <-.
      - rewrite apply_results_other; [now apply Hdf0|].
        intros Hin. apply list_elem_of_fmap in Hin as ([i' v'] & Hi' & Hin).
        cbn [fst snd] in Hi'. subst i'. unfold res1 in Hin.
        apply list_elem_of_fmap in Hin as ([i' row'] & [= -> ->] & Hp).
        apply warm_rows_elem in Hp as [Hlt _]. cbn [fst snd] in Hlt. lia. }
    assert (Hfail : forall i row e, tasks_df !! i = Some row ->
              Audio.process_row tts_main row = Raise e ->
              (w <= i)%nat /\
              Audio.real_dur (Audio.set_real_dur (recorded tts_main row) row) = -1).
    { intros i row e Hrow He. split.
      - destruct (Nat.lt_ge_cases i w) as [Hi|Hi]; [|exact Hi].
        destruct (Hwarm i row Hi Hrow) as [v Hv]. congruence.
      - cbn [Audio.real_dur Audio.set_real_dur]. unfold recorded. now rewrite He. }
    destruct (Nat.ltb_spec w (length tasks_df)) as [Hlt|Hge].
    + eexists. split; [reflexivity|]. rewrite collect_results.
      split; [now rewrite apply_results_length|].
      intros i row Hrow. split; [|intros e; now apply (Hfail i)].
      set (res2 := (fun p => (p.1, recorded tts_main p.2)) <$> _).
      destruct (decide (i < w)%nat) as [Hi|Hi].
      * rewrite apply_results_other.
        { rewrite (Hdf1 i row Hrow). now destruct (decide (i < w)%nat). }
        intros Hin. apply list_elem_of_fmap in Hin as ([i' v'] & Hi' & Hin).
        cbn [fst snd] in Hi'. subst i'. unfold res2 in Hin.
        apply list_elem_of_fmap in Hin as ([i' row'] & [= -> ->] & Hp).
        apply completed_elem in Hp as (k & _ & Hk & _). cbn [fst snd] in Hk. lia.
      * rewrite (apply_results_at res2 df1 i (recorded tts_main row)).
        { rewrite (Hdf1 i row Hrow). now destruct (decide (i < w)%nat). }
        { unfold res2. apply list_elem_of_fmap.
          exists (i, Audio.set_real_dur 0 row). split; [reflexivity|].
          apply completed_elem. exists (i - w)%nat.
          assert (Hil : (i < length tasks_df)%nat) by now apply lookup_lt_Some in Hrow.
          split; [|split].
          - rewrite Horder. apply elem_of_seq. fold w. lia.
          - cbn [fst]. lia.
          - cbn [fst snd]. rewrite (Hdf1 i row Hrow). now destruct (decide (i < w)%nat). }
        { intros v' Hv'. unfold res2 in Hv'.
          apply list_elem_of_fmap in Hv' as ([i' row'] & [= -> ->] & Hp).
          apply completed_elem in Hp as (k & _ & _ & Hrow'). cbn [fst snd] in Hrow'.
          rewrite (Hdf1 _ _ Hrow) in Hrow'. destruct (decide (i' < w)%nat); [lia|].
          now injection Hrow' as <-. }
    + exists df1. split; [reflexivity|]. split; [exact Hlen1|].
      intros i row Hrow. split; [|intros e; now apply (Hfail i)].
      rewrite (Hdf1 i row Hrow).
      assert (Hil : (i < length tasks_df)%nat) by now apply lookup_lt_Some in Hrow.
      destruct (decide (i < w)%nat); [reflexivity|lia].
Qed.

Lemma generate_tts_audio_failure_handling_witness :
  exists df',
    Audio.generate_tts_audio (dispatch_example_tts 6) [0%nat] dispatch_example_frame
    = Ok df' /\
    Audio.real_dur <$> df' !! 5%nat = Some (-1).
Proof.
  destruct (generate_tts_audio_failure_handling (dispatch_example_tts 6) [0%nat]
              dispatch_example_frame) as [_ H].
  - reflexivity.
  - destruct H as (df' & Heq & _ & Hrows).
    + intros i row Hi Hrow.
      destruct i as [|[|[|[|[|i]]]]]; cbn in Hi; [..|lia];
        injection Hrow as <-; eexists; reflexivity.
    + exists df'. split; [exact Heq|].
      destruct (Hrows 5%nat _ eq_refl) as [-> _]. reflexivity.
Defined.

(** C8 as stated fails: a one-line batch whose synthesis fails is aborted by
    the warm-up phase; no sentinel is written and no frame is returned. *)
Lemma warmup_failure_aborts_batch :
  Audio.generate_tts_audio (dispatch_example_tts 1) [] (take 1 dispatch_example_frame)
  = Raise SynthesisError /\
  Audio.process_row (dispatch_example_tts 1)
    (Audio.Task 1 (Audio.SrtTime 0 0 0 0) (Audio.SrtTime 0 0 0 0)
                0 0 0 1 [EmptyString] 0 None)
  = Raise SynthesisError.
Proof. split; reflexivity. Qed.

(** ** The timestamp aligner *)

Section AlignerFacts.

Context {char : Type} `{EqDecision char}.
Variables (is_space is_word : char -> bool) (lower : list char -> list char).
Variable space : char.

Let clean := Align.clean is_space is_word lower space.
Let clean_word (w : Align.word char) : list char :=
  Align.remove_punctuation is_space is_word lower space (Align.text w).
Let word_at := Align.word_at is_space is_word lower space.
Let aligned := Align.aligned is_space is_word lower space.
Let align := Align.align is_space is_word lower space.
Let build_index := Align.build_index is_space is_word lower space.

Lemma occurs_at_cons (c : char) (hay s : list char) (k : nat) :
  Align.occurs_at (c :: hay) (S k) s <-> Align.occurs_at hay k s.
Proof. unfold Align.occurs_at. cbn. split; intros [H1 H2]; (split; [lia|exact H2]). Qed.

Lemma search_spec (s hay : list char) (pos : nat) :
  s <> [] ->
  match Align.search s hay pos with
  | Some p => exists k, p = (pos + k)%nat /\ Align.occurs_at hay k s /\
                        forall k', (k' < k)%nat -> ~ Align.occurs_at hay k' s
  | None => forall k, ~ Align.occurs_at hay k s
  end.
Proof.
  intros Hs.
  assert (Hlen : (1 <= length s)%nat) by (destruct s; [congruence|cbn; lia]).
  revert pos. induction hay as [|c hay IH]; intros pos.
  - cbn [Align.search]. destruct (Nat.leb_spec (length s) (length (@nil char))) as [Hle|Hgt].
    + cbn in Hle. lia.
    + intros k [Hk _]. cbn in Hk. lia.
  - cbn [Align.search].
    destruct (Nat.leb_spec (length s) (length (c :: hay))) as [Hle|Hgt].
    + destruct (bool_decide_reflect (take (length s) (c :: hay) = s)) as [Heq|Hne].
      * exists 0%nat. split; [lia|]. split; [|intros k' Hk'; lia].
        split; [cbn [length] in *; lia|exact Heq].
      * specialize (IH (S pos)).
        destruct (Align.search s hay (S pos)) as [p|].
        -- destruct IH as (k & -> & Hocc & Hearly). exists (S k).
           split; [lia|]. split; [now apply occurs_at_cons|].
           intros [|k'] Hk'.
           ++ intros [_ Heq]. now apply Hne.
           ++ rewrite occurs_at_cons. apply Hearly. lia.
        -- intros [|k].
           ++ intros [_ Heq]. now apply Hne.
           ++ rewrite occurs_at_cons. apply IH.
    + intros k [Hk _]. lia.
Qed.

Lemma occurs_at_drop (full s : list char) (cur k : nat) :
  s <> [] ->
  Align.occurs_at (drop cur full) k s <-> Align.occurs_at full (cur + k) s.
Proof.
  intros Hs.
  assert (Hlen : (1 <= length s)%nat) by (destruct s; [congruence|cbn; lia]).
  unfold Align.occurs_at. rewrite drop_drop, length_drop. split; intros [H1 H2].
  - split; [lia|exact H2].
  - split; [lia|exact H2].
Qed.

Lemma build_index_spec (words : list (Align.word char)) (idx : nat)
    (full : list char) (pm : list nat) :
  fst (build_index idx words full pm) = full ++ concat (clean_word <$> words) /\
  (forall q, (q < length pm)%nat -> snd (build_index idx words full pm) !! q = pm !! q) /\
  (forall p, snd (build_index idx words full pm) !! (length pm + p)%nat
             = word_at idx words p).
Proof.
  revert idx full pm. induction words as [|w words IH]; intros idx full pm.
  - cbn. rewrite app_nil_r. split; [reflexivity|]. split; [reflexivity|].
    intros p. apply lookup_ge_None. lia.
  - cbn [build_index Align.build_index Align.word_at word_at fmap list_fmap concat].
    fold build_index. fold (clean_word w). fold word_at.
    destruct (IH (S idx) (full ++ clean_word w)
                 (pm ++ replicate (length (clean_word w)) idx)) as (IH1 & IH2 & IH3).
    split; [|split].
    + rewrite IH1, <- app_assoc. reflexivity.
    + intros q Hq. rewrite IH2 by (rewrite length_app; lia).
      now apply lookup_app_l.
    + intros p. destruct (Nat.ltb_spec p (length (clean_word w))) as [Hp|Hp].
      * rewrite IH2 by (rewrite length_app, length_replicate; lia).
        rewrite lookup_app_r by lia.
        replace (length pm + p - length pm)%nat with p by lia.
        now apply lookup_replicate_2.
      * specialize (IH3 (p - length (clean_word w))%nat).
        rewrite length_app, length_replicate in IH3.
        replace (length pm + length (clean_word w) + (p - length (clean_word w)))%nat
          with (length pm + p)%nat in IH3 by lia.
        exact IH3.
Qed.

Lemma aligned_nondecreasing (words : list (Align.word char)) (full : list char)
    (cur : nat) (ss : list (list char)) (ts : list (Q * Q)) (cs : list nat) :
  aligned words full cur ss ts cs -> Align.nondecreasing cur cs.
Proof.
  induction 1; cbn; [exact I|split; [lia|assumption]|split; [lia|assumption]].
Qed.

Lemma aligned_functional (words : list (Align.word char)) (full : list char)
    (cur : nat) (ss : list (list char)) (ts ts' : list (Q * Q)) (cs cs' : list nat) :
  aligned words full cur ss ts cs -> aligned words full cur ss ts' cs' ->
  ts' = ts /\ cs' = cs.
Proof.
  intros Ha. revert ts' cs'.
  induction Ha as [cur|cur s ss ts cs Hblank Ha IH
                   |cur s ss ts cs p i j wi wj Hne Hle Hocc Hearly Hi Hj Hwi Hwj Ha IH];
    intros ts' cs' Hb; inversion Hb; subst.
  - split; reflexivity.
  - destruct (IH _ _ ltac:(eassumption)) as [-> ->]. split; reflexivity.
  - contradiction.
  - contradiction.
  - match goal with
    | Hocc' : Align.occurs_at full ?p' _,
      Hearly' : forall q, (cur <= q < ?p')%nat -> _ |- _ =>
        assert (Hp : p' = p);
        [ destruct (Nat.lt_trichotomy p' p) as [Hlt|[Heq|Hgt]];
          [ exfalso; apply (Hearly p'); [lia|exact Hocc']
          | exact Heq
          | exfalso; apply (Hearly' p); [lia|exact Hocc] ]
        | subst p' ]
    end.
    repeat match goal with
           | H1 : ?x = Some ?a, H2 : ?x = Some ?b |- _ =>
               assert (b = a) by congruence; subst b; clear H2
           end.
    destruct (IH _ _ ltac:(eassumption)) as [-> ->]. split; reflexivity.
Qed.

Lemma search_earliest (full s : list char) (cur p : nat) :
  s <> [] -> (cur <= p)%nat -> Align.occurs_at full p s ->
  (forall q, (cur <= q < p)%nat -> ~ Align.occurs_at full q s) ->
  Align.search s (drop cur full) cur = Some p.
Proof.
  intros Hs Hle Hocc Hearly.
  pose proof (search_spec s (drop cur full) cur Hs) as Hspec.
  destruct (Align.search s (drop cur full) cur) as [p'|].
  - destruct Hspec as (k & -> & Hocc' & Hearly'). f_equal.
    apply occurs_at_drop in Hocc'; [|exact Hs].
    destruct (Nat.lt_trichotomy (cur + k) p) as [Hlt|[Heq|Hgt]]; [|exact Heq|].
    + exfalso. apply (Hearly (cur + k)%nat); [lia|exact Hocc'].
    + exfalso. apply (Hearly' (p - cur)%nat); [lia|].
      apply occurs_at_drop; [exact Hs|].
      now replace (cur + (p - cur))%nat with p by lia.
  - exfalso. apply (Hspec (p - cur)%nat). apply occurs_at_drop; [exact Hs|].
    now replace (cur + (p - cur))%nat with p by lia.
Qed.

Lemma align_sound (words : list (Align.word char)) (full : list char)
    (pm : list nat) (ss : list (list char)) :
  (forall p, pm !! p = word_at 0 words p) ->
  forall cur acc ts,
    align words full pm cur ss acc = Ok ts ->
    exists ts' cs, ts = acc ++ ts' /\ aligned words full cur ss ts' cs.
Proof.
  intros Hpm. induction ss as [|s ss IH]; intros cur acc ts; cbn [align Align.align].
  - intros [= <-]. exists [], []. split; [now rewrite app_nil_r|constructor].
  - fold align. fold (clean s).
    destruct (clean s) as [|c l] eqn:E.
    + intros Hrun. destruct (IH _ _ _ Hrun) as (ts' & cs & -> & Ha).
      exists ((0, 0) :: ts'), (cur :: cs). split; [now rewrite <- app_assoc|].
      now apply Align.aligned_blank.
    + rewrite <- E.
      assert (Hne : clean s <> []) by (rewrite E; discriminate).
      pose proof (search_spec (clean s) (drop cur full) cur Hne) as Hspec.
      destruct (Align.search (clean s) (drop cur full) cur) as [p|]; [|discriminate].
      destruct Hspec as (k & -> & Hocc & Hearly).
      rewrite !Hpm.
      destruct (word_at 0 words (cur + k)) as [i|] eqn:Hi; [|discriminate].
      destruct (word_at 0 words (cur + k + length (clean s) - 1)) as [j|] eqn:Hj;
        [|discriminate].
      destruct (words !! i) as [wi|] eqn:Hwi; [|discriminate].
      destruct (words !! j) as [wj|] eqn:Hwj; [|discriminate].
      intros Hrun. destruct (IH _ _ _ Hrun) as (ts' & cs & -> & Ha).
      exists ((Align.start wi, Align.end_ wj) :: ts'),
             ((cur + k + length (clean s))%nat :: cs).
      split; [now rewrite <- app_assoc|].
      eapply Align.aligned_match; try eassumption.
      * lia.
      * now apply occurs_at_drop.
      * intros q Hq Hoccq. apply (Hearly (q - cur)%nat); [lia|].
        apply occurs_at_drop; [exact Hne|].
        now replace (cur + (q - cur))%nat with q by lia.
Qed.

Lemma align_complete (words : list (Align.word char)) (full : list char)
    (pm : list nat) (cur : nat) (ss : list (list char)) (ts : list (Q * Q))
    (cs : list nat) :
  (forall p, pm !! p = word_at 0 words p) ->
  aligned words full cur ss ts cs ->
  forall acc, align words full pm cur ss acc = Ok (acc ++ ts).
Proof.
  intros Hpm Ha.
  induction Ha as [cur|cur s ss ts cs Hblank Ha IH
                   |cur s ss ts cs p i j wi wj Hne Hle Hocc Hearly Hi Hj Hwi Hwj Ha IH];
    intros acc; cbn [align Align.align].
  - now rewrite app_nil_r.
  - fold align. rewrite Hblank, IH, <- app_assoc. reflexivity.
  - fold align.
    assert (Hstep : forall (A : Type) (x y : A),
              match Align.clean is_space is_word lower space s with
              | [] => x
              | _ :: _ => y
              end = y).
    { intros A x y. destruct (Align.clean is_space is_word lower space s);
        [contradiction|reflexivity]. }
    rewrite Hstep.
    rewrite (search_earliest full _ cur p Hne Hle Hocc Hearly).
    fold word_at in Hi, Hj. rewrite !Hpm, Hi, Hj, Hwi, Hwj, IH, <- app_assoc.
    reflexivity.
Qed.

(** C7 (as amended). When [get_sentence_timestamps] accepts its input, the
    intervals it returns are the ones described by [aligned] on the
    concatenation of the cleaned words, with the cursor starting at 0: a
    sentence whose cleaned text is empty gets (0, 0) and leaves the cursor
    where it is; every other sentence is matched at the earliest position
    at or after the cursor where its cleaned text occurs as a slice, gets
    [start of the word at the first matched position, end of the word at
    the last matched position], and moves the cursor just past the match.
    The cursor never decreases, and the intervals and cursors are uniquely
    determined by the input. *)
Theorem get_sentence_timestamps_aligned
    (df_words : list (Align.word char)) (df_sentences : list (list char))
    (time_stamp_list : list (Q * Q))
    (Hrun : Align.get_sentence_timestamps is_space is_word lower space
              df_words df_sentences = Ok time_stamp_list) :
  let full_words_str :=
    concat ((fun w => Align.remove_punctuation is_space is_word lower space
                        (Align.text w)) <$> df_words) in
  exists cursors,
    Align.aligned is_space is_word lower space df_words full_words_str 0
                  df_sentences time_stamp_list cursors /\
    Align.nondecreasing 0 cursors /\
    length time_stamp_list = length df_sentences /\
    forall ts' cs',
      Align.aligned is_space is_word lower space df_words full_words_str 0
                    df_sentences ts' cs' ->
      ts' = time_stamp_list /\ cs' = cursors.
Proof.
  intros full. unfold Align.get_sentence_timestamps in Hrun.
  destruct (build_index_spec df_words 0 [] []) as (Hfull & _ & Hpm).
  unfold build_index in Hfull, Hpm.
  destruct (Align.build_index is_space is_word lower space 0 df_words [] [])
    as [full' pm].
  cbn [fst snd] in Hfull, Hpm. cbn [app] in Hfull. subst full'.
  fold full in Hrun.
  destruct (align_sound df_words full pm df_sentences Hpm 0 [] _ Hrun)
    as (ts' & cs & Hts & Ha).
  cbn [app] in Hts. subst ts'. exists cs. split; [exact Ha|].
  split; [eapply aligned_nondecreasing; exact Ha|]. split.
  - clear -Ha. induction Ha; cbn; congruence.
  - intros ts' cs' Ha'. eapply aligned_functional; eassumption.
Qed.

(** The converse: intervals that [aligned] describes are returned. *)
Lemma get_sentence_timestamps_complete
    (df_words : list (Align.word char)) (df_sentences : list (list char))
    (ts : list (Q * Q)) (cs : list nat) :
  Align.aligned is_space is_word lower space df_words
    (concat ((fun w => Align.remove_punctuation is_space is_word lower space
                         (Align.text w)) <$> df_words))
    0 df_sentences ts cs ->
  Align.get_sentence_timestamps is_space is_word lower space df_words df_sentences
  = Ok ts.
Proof.
  intros Ha. unfold Align.get_sentence_timestamps.
  destruct (build_index_spec df_words 0 [] []) as (Hfull & _ & Hpm).
  unfold build_index in Hfull, Hpm.
  destruct (Align.build_index is_space is_word lower space 0 df_words [] [])
    as [full' pm].
  cbn [fst snd] in Hfull, Hpm. cbn [app] in Hfull. subst full'.
  apply (align_complete df_words _ pm 0 df_sentences ts cs Hpm Ha []).
Qed.

End AlignerFacts.

Lemma get_sentence_timestamps_aligned_witness :
  ascii_timestamps aligner_example_words ["hello world"; "Hello again"]%string
  = Ok [(1, 3); (3, 6)] /\
  exists cursors,
    Align.aligned ascii_is_space ascii_is_word ascii_lower (Ascii.ascii_of_nat 32)
      aligner_example_words
      (list_ascii_of_string "helloworldhelloagain") 0
      (list_ascii_of_string <$> ["hello world"; "Hello again"]%string)
      [(1, 3); (3, 6)] cursors /\
    Align.nondecreasing 0 cursors.
Proof.
  assert (Hrun : ascii_timestamps aligner_example_words
                   ["hello world"; "Hello again"]%string = Ok [(1, 3); (3, 6)])
    by (vm_compute; reflexivity).
  split; [exact Hrun|].
  destruct (get_sentence_timestamps_aligned ascii_is_space ascii_is_word
              ascii_lower (Ascii.ascii_of_nat 32) aligner_example_words
              (list_ascii_of_string <$> ["hello world"; "Hello again"]%string)
              [(1, 3); (3, 6)] Hrun) as (cs & Ha & Hn & _).
  exists cs. split; [exact Ha|exact Hn].
Defined.

(** C7 as stated fails: a sentence made of punctuation only is not matched
    against the words at all; it gets the interval (0, 0), which is neither
    the start nor the end time of any word. *)
Lemma punctuation_sentence_gets_zero_interval :
  ascii_timestamps aligner_example_words ["hello world"; "..."; "Hello again"]%string
  = Ok [(1, 3); (0, 0); (3, 6)] /\
  Align.clean ascii_is_space ascii_is_word ascii_lower (Ascii.ascii_of_nat 32)
    (list_ascii_of_string "...") = [] /\
  Forall (fun w => ~ Align.start w == 0 /\ ~ Align.end_ w == 0) aligner_example_words.
Proof.
  split; [vm_compute; reflexivity|]. split; [reflexivity|].
  repeat constructor; discriminate.
Qed.

(** ** The timeline renderer *)

Lemma sumQ_app (l1 l2 : list Q) :
  Audio.sumQ (l1 ++ l2) == Audio.sumQ l1 + Audio.sumQ l2.
Proof.
  unfold Audio.sumQ. induction l1 as [|x l1 IH]; cbn [app foldr]; [lra|].
  rewrite IH. lra.
Qed.

Lemma sum_widths_cons (iv : Q * Q) (ivs : list (Q * Q)) :
  sum_widths (iv :: ivs) == width iv + sum_widths ivs.
Proof. reflexivity. Qed.

Lemma sumQ_cons (x : Q) (l : list Q) : Audio.sumQ (x :: l) == x + Audio.sumQ l.
Proof. reflexivity. Qed.

Lemma gaps_between_some (speed_factor : Q) (p : Audio.task) (rows : list Audio.task) :
  gaps_between speed_factor (Some p) rows
  = (fun r => Audio.gap r / speed_factor) <$> take (length rows) (p :: rows).
Proof.
  revert p. induction rows as [|r rows IH]; intros p; [reflexivity|].
  cbn [gaps_between length]. rewrite IH. reflexivity.
Qed.

Lemma gaps_between_none (speed_factor : Q) (rows : list Audio.task) :
  gaps_between speed_factor None rows = scaled_internal_gaps speed_factor rows.
Proof.
  unfold scaled_internal_gaps. destruct rows as [|r rows]; [reflexivity|].
  cbn [gaps_between length]. rewrite gaps_between_some.
  now replace (S (length rows) - 1)%nat with (length rows) by lia.
Qed.

Lemma same_task_refl (l : list Audio.task) : Forall2 same_task l l.
Proof. apply Forall2_same_length_lookup_2; [reflexivity|]. intros; congruence. Qed.

Lemma same_task_number (r r' : Audio.task) :
  same_task r r' -> Audio.number r' = Audio.number r.
Proof. intros H. apply (f_equal Audio.number) in H. exact H. Qed.

Lemma same_task_alter (l l' : list Audio.task) (t : option (list (Q * Q))) (i : nat) :
  Forall2 same_task l l' ->
  Forall2 same_task l (alter (Audio.set_new_sub_times t) i l').
Proof.
  intros H. revert i. induction H as [|r r' l l' Hr H IH]; intros i; [constructor|].
  destruct i as [|i]; cbn; constructor; auto.
Qed.

Lemma same_task_numbers (l l' : list Audio.task) :
  Forall2 same_task l l' -> Audio.number <$> l' = Audio.number <$> l.
Proof.
  induction 1 as [|r r' l l' Hr H IH]; [reflexivity|].
  cbn. now rewrite IH, (same_task_number _ _ Hr).
Qed.

Section RenderFacts.

Variable atempo : Audio.path -> Q -> nat -> option Q.
Variable cfg : config.

Lemma find_number_nodup (l : list Audio.task) (j : nat) (r : Audio.task) :
  NoDup (Audio.number <$> l) -> l !! j = Some r ->
  Audio.find_number (Audio.number r) l = Ok j.
Proof.
  intros Hnd Hj. unfold Audio.find_number.
  destruct (list_find (fun r0 => Audio.number r0 = Audio.number r) l)
    as [[i x]|] eqn:Hfind.
  - apply list_find_Some in Hfind as (Hi & Hx & _). f_equal.
    eapply NoDup_lookup; [exact Hnd| |].
    + rewrite list_lookup_fmap, Hi. reflexivity.
    + rewrite list_lookup_fmap, Hj. cbn. now rewrite Hx.
  - exfalso. apply list_find_None in Hfind.
    rewrite Forall_forall in Hfind. apply (Hfind r); [|reflexivity].
    eapply list_elem_of_lookup_2. exact Hj.
Qed.

End RenderFacts.

Lemma write_other (fs : Audio.files) (p q : Audio.path) (d : Q) :
  p <> q -> Audio.write q d fs p = fs p.
Proof. intros Hp. unfold Audio.write. destruct (decide (p = q)); [contradiction|reflexivity]. Qed.

Lemma sumQ_pointwise {A B : Type} (f : A -> Q) (g : B -> Q) (l : list A) (m : list B) :
  length l = length m ->
  (forall j a b, l !! j = Some a -> m !! j = Some b -> f a == g b) ->
  Audio.sumQ (f <$> l) == Audio.sumQ (g <$> m).
Proof.
  revert m. induction l as [|a l IH]; intros [|b m] Hlen Hfg; try discriminate;
    [reflexivity|].
  cbn [fmap list_fmap]. rewrite !sumQ_cons.
  rewrite (Hfg 0%nat a b eq_refl eq_refl).
  rewrite (IH m); [reflexivity|cbn in Hlen; lia|].
  intros j a' b' Ha Hb. exact (Hfg (S j) a' b' Ha Hb).
Qed.

Lemma sum_widths_clip_durations (fs : Audio.files) (r : Audio.task) (ts : list (Q * Q)) :
  length ts = length (Audio.lines r) ->
  (forall i iv, ts !! i = Some iv ->
     width iv == Audio.get_audio_duration fs
                   (Audio.OUTPUT_FILE (Audio.number r) (Z.of_nat i))) ->
  sum_widths ts == Audio.sumQ (clip_durations fs r).
Proof.
  intros Hlen Hw. unfold sum_widths, clip_durations.
  apply sumQ_pointwise; [now rewrite length_seq|].
  intros j iv i Hiv Hi. apply lookup_seq in Hi as [-> _]. now apply Hw.
Qed.

Section SpeedChangeFrame.

Variable atempo : Audio.path -> Q -> nat -> option Q.

Lemma check_drift_other (fs fs' : Audio.files) (output_file : Audio.path)
    (input_duration speed_factor : Q) (p : Audio.path) :
  Audio.check_drift fs output_file input_duration speed_factor = Ok fs' ->
  p <> output_file -> fs' p = fs p.
Proof.
  unfold Audio.check_drift. destruct (fdiv _ _) as [expected|]; [|discriminate].
  cbn [bind]. destruct (_ && _).
  - intros [= <-] Hp. now apply write_other.
  - destruct (Py.geb _ _); [discriminate|]. now intros [= <-].
Qed.

Lemma attempts_other (n attempt : nat) (fs fs' : Audio.files)
    (input_file output_file : Audio.path) (input_duration speed_factor : Q)
    (p : Audio.path) :
  Audio.attempts atempo n attempt fs input_file output_file input_duration speed_factor
  = Ok fs' ->
  p <> output_file -> fs' p = fs p.
Proof.
  revert attempt. induction n as [|n IH]; intros attempt; cbn [Audio.attempts].
  - now intros [= <-].
  - destruct (atempo _ _ _) as [out|].
    + intros H Hp. rewrite (check_drift_other _ _ _ _ _ p H Hp). now apply write_other.
    + destruct (_ <? _)%nat; [apply IH|discriminate].
Qed.

(** [adjust_audio_speed] writes its output file and nothing else. *)
Lemma adjust_audio_speed_other (fs fs' : Audio.files) (input_file output_file : Audio.path)
    (speed_factor : Q) (p : Audio.path) :
  Audio.adjust_audio_speed atempo fs input_file output_file speed_factor = Ok fs' ->
  p <> output_file -> fs' p = fs p.
Proof.
  unfold Audio.adjust_audio_speed. destruct (Py.ltb _ _).
  - destruct (fs input_file); [|discriminate].
    intros [= <-] Hp. now apply write_other.
  - apply attempts_other.
Qed.

Lemma render_clips_spec (number : Z) (speed_factor : Q) (lines : list string) :
  forall (line_index : Z) (fs : Audio.files) (cur_time : Q) (acc : list (Q * Q))
         (fs' : Audio.files) (cur' : Q) (times : list (Q * Q)),
    Audio.render_clips atempo number speed_factor line_index lines fs cur_time acc
    = Ok (fs', cur', times) ->
    exists new,
      times = acc ++ new /\ length new = length lines /\
      cur' == cur_time + sum_widths new /\
      (forall iv, last new = Some iv -> snd iv = cur') /\
      (forall p,
         (forall i, (i < length lines)%nat ->
                    p <> Audio.OUTPUT_FILE number (line_index + Z.of_nat i)) ->
         fs' p = fs p) /\
      (forall i iv, new !! i = Some iv ->
         width iv == Audio.get_audio_duration fs'
                       (Audio.OUTPUT_FILE number (line_index + Z.of_nat i)) /\
         adjusted_clip atempo speed_factor fs fs' number (line_index + Z.of_nat i)).
Proof.
  induction lines as [|l lines IH]; intros li fs cur acc fs' cur' times;
    cbn [Audio.render_clips].
  - intros [= <- <- <-]. exists []. rewrite app_nil_r.
    split; [reflexivity|]. split; [reflexivity|]. split; [unfold sum_widths; cbn; lra|].
    split; [discriminate|]. split; [reflexivity|]. intros i iv; discriminate.
  - destruct (Audio.adjust_audio_speed atempo fs _ _ speed_factor) as [fs1|] eqn:Hadj;
      [|discriminate]. cbn [bind]. intros Hrun.
    destruct (IH _ _ _ _ _ _ _ Hrun) as (new & -> & Hlen & Hcur & Hlast & Hframe & Hw).
    set (ad := Audio.get_audio_duration fs1 (Audio.OUTPUT_FILE number li)) in *.
    (* the clips after this one leave its output alone *)
    assert (Hkeep : fs' (Audio.OUTPUT_FILE number li) = fs1 (Audio.OUTPUT_FILE number li)).
    { apply Hframe. intros i _ [= Hi]. lia. }
    exists ((cur, cur + ad) :: new). split; [now rewrite <- app_assoc|].
    split; [cbn; now rewrite Hlen|]. split; [|split; [|split]].
    + rewrite Hcur, sum_widths_cons. unfold width. cbn [fst snd]. lra.
    + intros iv Hiv. destruct new as [|iv' new'].
      * cbn in Hiv. injection Hiv as <-.
        destruct lines; [|discriminate].
        cbn in Hrun. injection Hrun as _ <- _. reflexivity.
      * apply Hlast. exact Hiv.
    + intros p Hp. rewrite Hframe.
      * apply (adjust_audio_speed_other _ _ _ _ _ p Hadj).
        specialize (Hp 0%nat ltac:(cbn; lia)). now rewrite Z.add_0_r in Hp.
      * intros i Hi. specialize (Hp (S i) ltac:(cbn; lia)).
        now replace (li + 1 + Z.of_nat i)%Z with (li + Z.of_nat (S i))%Z by lia.
    + intros [|i] iv Hiv.
      * cbn in Hiv. injection Hiv as <-. rewrite Z.add_0_r. split.
        -- unfold width, Audio.get_audio_duration. cbn [fst snd]. rewrite Hkeep.
           fold (Audio.get_audio_duration fs1 (Audio.OUTPUT_FILE number li)).
           fold ad. lra.
        -- exists fs, fs1. split; [reflexivity|]. split; [exact Hadj|exact Hkeep].
      * cbn in Hiv. destruct (Hw i iv Hiv) as [Hwi (fs0 & fs2 & Htemp & Hadj2 & Hout)].
        replace (li + Z.of_nat (S i))%Z with (li + 1 + Z.of_nat i)%Z by lia.
        split; [exact Hwi|]. exists fs0, fs2. split; [|split; assumption].
        rewrite Htemp. now apply (adjust_audio_speed_other _ _ _ _ _ _ Hadj).
Qed.

End SpeedChangeFrame.

Section RenderRows.

Variable atempo : Audio.path -> Q -> nat -> option Q.
Variables (df0 : list Audio.task) (k : nat) (chunk_df : list Audio.task).
Variables (speed_factor : Q) (keep_gaps : bool).

Hypothesis Hnodup : NoDup (Audio.number <$> df0).
Hypothesis Hchunk : forall j r, chunk_df !! j = Some r -> df0 !! (k + j)%nat = Some r.

Lemma gap_step (done rows : list Audio.task) (cur cur1 : Q) :
  chunk_df = done ++ rows ->
  (if negb (length done =? 0)%nat && keep_gaps then
     match chunk_df !! (length done - 1)%nat with
     | None => Raise IndexError
     | Some prev =>
         let* g := fdiv (Audio.gap prev) speed_factor in
         Ok (cur + g)
     end
   else Ok cur) = Ok cur1 ->
  cur1 == cur + gap_before speed_factor keep_gaps done.
Proof.
  intros Hsplit. unfold gap_before.
  destruct done as [|d done] using rev_ind.
  - cbn. intros [= <-]. destruct keep_gaps; lra.
  - clear IHdone. rewrite length_app. cbn [length].
    replace (length done + 1 =? 0)%nat with false by (symmetry; apply Nat.eqb_neq; lia).
    cbn [negb andb]. rewrite last_snoc.
    destruct keep_gaps; [|intros [= <-]; lra].
    assert (Hprev : chunk_df !! (length done + 1 - 1)%nat = Some d).
    { rewrite Hsplit, <- app_assoc.
      replace (length done + 1 - 1)%nat with (length done) by lia.
      now apply list_lookup_middle. }
    rewrite Hprev. unfold fdiv.
    destruct (Qeq_bool speed_factor 0); [discriminate|].
    cbn [bind]. intros [= <-]. reflexivity.
Qed.

(** Two rows of the chunk at different positions have different numbers. *)
Lemma chunk_numbers_differ (i j : nat) (r r' : Audio.task) :
  chunk_df !! i = Some r -> chunk_df !! j = Some r' -> i <> j ->
  Audio.number r <> Audio.number r'.
Proof.
  intros Hi Hj Hij Heq. apply Hchunk in Hi, Hj.
  assert (k + i = k + j)%nat; [|lia].
  eapply NoDup_lookup; [exact Hnodup| |].
  - rewrite list_lookup_fmap, Hi. reflexivity.
  - rewrite list_lookup_fmap, Hj. cbn. now rewrite Heq.
Qed.

Lemma render_rows_spec (rows : list Audio.task) :
  forall (done : list Audio.task) (st : Audio.state) (cur : Q)
         (st' : Audio.state) (cur' : Q),
    chunk_df = done ++ rows ->
    Forall2 same_task df0 (fst st) ->
    Audio.render_rows atempo chunk_df speed_factor keep_gaps (length done) rows st cur
    = Ok (st', cur') ->
    Forall2 same_task df0 (fst st') /\
    (forall q, (q < k + length done \/ k + length chunk_df <= q)%nat ->
               fst st' !! q = fst st !! q) /\
    (forall p, (forall r i, r ∈ rows -> p <> Audio.OUTPUT_FILE (Audio.number r) i) ->
               snd st' p = snd st p) /\
    exists tss,
      length tss = length rows /\
      records (fst st') (k + length done) tss /\
      cur' == cur + Audio.sumQ (sum_widths <$> tss)
              + (if keep_gaps
                 then Audio.sumQ (gaps_between speed_factor (last done) rows)
                 else 0) /\
      (forall ts iv, last tss = Some ts -> last ts = Some iv -> snd iv = cur') /\
      (forall j ts r, tss !! j = Some ts -> rows !! j = Some r ->
                      length ts = length (Audio.lines r)) /\
      (forall j ts r i iv,
         tss !! j = Some ts -> rows !! j = Some r -> ts !! i = Some iv ->
         width iv == Audio.get_audio_duration (snd st')
                       (Audio.OUTPUT_FILE (Audio.number r) (Z.of_nat i)) /\
         adjusted_clip atempo speed_factor (snd st) (snd st')
                       (Audio.number r) (Z.of_nat i)).
Proof.
  induction rows as [|r rows IH]; intros done st cur st' cur' Hsplit Hsame;
    cbn [Audio.render_rows].
  - intros [= <- <-]. split; [exact Hsame|]. split; [reflexivity|].
    split; [reflexivity|].
    exists []. split; [reflexivity|]. split; [intros j ts Hj; discriminate|].
    split; [destruct keep_gaps; cbn; lra|].
    split; [intros; discriminate|]. split; intros; discriminate.
  - match goal with
    | |- bind ?g _ = _ -> _ => destruct g as [cur1|] eqn:Hgap; [|discriminate]
    end.
    cbn [bind]. apply (gap_step done (r :: rows) cur cur1 Hsplit) in Hgap.
    destruct (Audio.render_clips atempo (Audio.number r) speed_factor 0
                (Audio.lines r) (snd st) cur1 []) as [[[fs1 cur2] times]|] eqn:Hclips;
      [|discriminate].
    cbn [bind].
    destruct (render_clips_spec atempo _ _ _ _ _ _ _ _ _ _ Hclips)
      as (new & Hnew & Hlen & Hcur2 & Hlast2 & Hframe2 & Hw2).
    cbn [app] in Hnew. subst new.
    (* the row is written at its own position *)
    assert (Hr : chunk_df !! length done = Some r).
    { rewrite Hsplit. now apply list_lookup_middle. }
    pose proof (Hchunk _ _ Hr) as Hr0.
    destruct (Forall2_lookup_l _ _ _ _ _ Hsame Hr0) as (r' & Hr' & Hrel).
    assert (Hfind : Audio.find_number (Audio.number r) (fst st)
                    = Ok (k + length done)%nat).
    { rewrite <- (same_task_number _ _ Hrel).
      apply find_number_nodup; [|exact Hr'].
      now rewrite (same_task_numbers _ _ Hsame). }
    rewrite Hfind. cbn [bind]. intros Hrun.
    assert (Hsplit' : chunk_df = (done ++ [r]) ++ rows) by now rewrite <- app_assoc.
    assert (Hlen' : length (done ++ [r]) = S (length done))
      by (rewrite length_app; cbn; lia).
    rewrite <- Hlen' in Hrun.
    destruct (IH (done ++ [r])
                 (alter (Audio.set_new_sub_times (Some times)) (k + length done)%nat
                        (fst st), fs1)
                 cur2 st' cur' Hsplit'
                 (same_task_alter _ _ (Some times) (k + length done) Hsame) Hrun)
      as (Hsame' & Hkeep & Hframe & tss & Htss & Hrec & Hcur' & Hlast' & Hlens & Hw).
    cbn [fst snd] in Hkeep, Hframe, Hw. rewrite Hlen' in Hkeep, Hrec.
    (* the rows after this one write clips of other numbers *)
    assert (Hlater : forall r1 i i1, r1 ∈ rows ->
              Audio.OUTPUT_FILE (Audio.number r) i
              <> Audio.OUTPUT_FILE (Audio.number r1) i1).
    { intros r1 i i1 Hin [= Hnum _].
      apply list_elem_of_lookup_1 in Hin as [j Hj].
      assert (Hj' : chunk_df !! (S (length done) + j)%nat = Some r1).
      { rewrite Hsplit', lookup_app_r; rewrite Hlen'; [|lia].
        now replace (S (length done) + j - S (length done))%nat with j by lia. }
      apply (chunk_numbers_differ _ _ _ _ Hr Hj'); [lia|exact Hnum]. }
    split; [exact Hsame'|]. split; [|split].
    + intros q Hq. rewrite Hkeep by lia. apply list_lookup_alter_ne.
      assert (Hlenc : length chunk_df = (length done + S (length rows))%nat)
        by (rewrite Hsplit, length_app; reflexivity).
      lia.
    + intros p Hp. rewrite Hframe.
      * apply Hframe2. intros i _. apply Hp. apply list_elem_of_here.
      * intros r1 i Hin. apply Hp. now apply list_elem_of_further.
    + exists (times :: tss). split; [cbn; now rewrite Htss|].
      split; [|split; [|split; [|split]]].
      * intros [|j] ts Hj.
        -- cbn in Hj. injection Hj as <-. rewrite Nat.add_0_r, Hkeep by lia.
           rewrite list_lookup_alter_eq, Hr'. cbn. eauto.
        -- cbn in Hj. replace (k + length done + S j)%nat
             with (k + S (length done) + j)%nat by lia.
           now apply Hrec.
      * rewrite Hcur', Hcur2, Hgap, last_snoc.
        cbn [fmap list_fmap]. rewrite sumQ_cons.
        unfold gap_before. cbn [gaps_between].
        destruct keep_gaps; [|lra].
        destruct (last done) as [p|]; [rewrite sumQ_cons|]; lra.
      * intros ts iv Hts Hiv. destruct tss as [|ts' tss'].
        -- cbn in Hts. injection Hts as <-.
           destruct rows; [|discriminate].
           cbn in Hrun. injection Hrun as _ <-. now apply Hlast2.
        -- eapply Hlast'; [exact Hts|exact Hiv].
      * intros [|j] ts r0 Hj Hr0'.
        -- cbn in Hj, Hr0'. injection Hj as <-. injection Hr0' as <-. exact Hlen.
        -- cbn in Hj, Hr0'. eapply Hlens; eassumption.
      * intros [|j] ts r0 i iv Hj Hr0' Hiv.
        -- cbn in Hj, Hr0'. injection Hj as <-. injection Hr0' as <-.
           destruct (Hw2 i iv Hiv) as [Hwi (fs0 & fs2 & Htemp & Hadj & Hout)].
           rewrite Z.add_0_l in Hwi, Htemp, Hadj, Hout.
           assert (Hsame_out : snd st' (Audio.OUTPUT_FILE (Audio.number r) (Z.of_nat i))
                               = fs1 (Audio.OUTPUT_FILE (Audio.number r) (Z.of_nat i))).
           { apply Hframe. intros r1 i1 Hin. now apply Hlater. }
           split.
           ++ rewrite Hwi. unfold Audio.get_audio_duration. now rewrite Hsame_out.
           ++ exists fs0, fs2. split; [exact Htemp|]. split; [exact Hadj|].
              now rewrite Hsame_out.
        -- cbn in Hj, Hr0'.
           destruct (Hw j ts r0 i iv Hj Hr0' Hiv)
             as [Hwi (fs0 & fs2 & Htemp & Hadj & Hout)].
           split; [exact Hwi|]. exists fs0, fs2. split; [|split; assumption].
           rewrite Htemp. apply Hframe2. intros i1 _. discriminate.
Qed.

End RenderRows.

Lemma records_alter_last (df1 : list Audio.task) (k : nat)
    (tss : list (list (Q * Q))) (ts' : list (Q * Q)) :
  records df1 k tss -> tss <> [] ->
  records (alter (Audio.set_new_sub_times (Some ts')) (k + (length tss - 1))%nat df1)
          k (<[(length tss - 1)%nat := ts']> tss).
Proof.
  intros Hrec Hne j ts Hj.
  assert (Hpos : (0 < length tss)%nat) by (destruct tss; [congruence|cbn; lia]).
  destruct (decide (j = length tss - 1)%nat) as [->|Hneq].
  - rewrite list_lookup_insert_eq in Hj by lia. injection Hj as <-.
    destruct (lookup_lt_is_Some_2 tss (length tss - 1)) as [ts0 Hts0]; [lia|].
    destruct (Hrec _ _ Hts0) as (r & Hr & _).
    rewrite list_lookup_alter_eq, Hr. cbn. eauto.
  - rewrite list_lookup_insert_ne in Hj by congruence.
    rewrite list_lookup_alter_ne by lia. now apply Hrec.
Qed.

Lemma overflow_trim_length (audio time_diff : Q) :
  time_diff * 1000 <= inject_Z (Audio.pydub_len audio) ->
  let k_ms := Py.int (inject_Z (Audio.pydub_len audio) - time_diff * 1000) in
  (0 <= k_ms)%Z /\
  inject_Z k_ms <= inject_Z (Audio.pydub_len audio) - time_diff * 1000 /\
  inject_Z (Audio.pydub_len audio) - time_diff * 1000 < inject_Z k_ms + 1 /\
  Audio.pydub_prefix audio k_ms = Py.min (inject_Z k_ms / 1000) audio.
Proof.
  intros Hlen k_ms.
  destruct (py_int_nonneg (inject_Z (Audio.pydub_len audio) - time_diff * 1000))
    as [Hlo Hhi]; [lra|].
  fold k_ms in Hlo, Hhi.
  assert (Hk : (0 <= k_ms)%Z).
  { assert (Hk' : inject_Z (-1) < inject_Z k_ms).
    { change (inject_Z (-1)) with (-1 # 1). lra. }
    rewrite <- Zlt_Qlt in Hk'. lia. }
  split; [exact Hk|]. split; [exact Hlo|]. split; [exact Hhi|].
  unfold Audio.pydub_prefix. destruct (Z.ltb_spec k_ms 0); [lia|reflexivity].
Qed.

Section FixOverflow.

Variables (df0 : list Audio.task) (k : nat) (chunk_df : list Audio.task).
Variables (df1 : list Audio.task) (fs1 : Audio.files).
Variables (last_row : Audio.task) (tss : list (list (Q * Q))).
Variables (cur_time chunk_end_time : Q).

Hypothesis Hnodup : NoDup (Audio.number <$> df0).
Hypothesis Hchunk : forall j r, chunk_df !! j = Some r -> df0 !! (k + j)%nat = Some r.
Hypothesis Hsame : Forall2 same_task df0 df1.
Hypothesis Hlast : last chunk_df = Some last_row.
Hypothesis Hlen : length tss = length chunk_df.
Hypothesis Hrec : records df1 k tss.

Let last_file : Audio.path :=
  Audio.OUTPUT_FILE (Audio.number last_row)
                    (Z.of_nat (length (Audio.lines last_row)) - 1).

Lemma fix_overflow_untouched :
  cur_time <= chunk_end_time \/ 6 # 10 < cur_time - chunk_end_time ->
  Audio.fix_overflow chunk_df (df1, fs1) cur_time chunk_end_time = Ok (df1, fs1).
Proof.
  intros Hcase. unfold Audio.fix_overflow.
  destruct (Py.gtb cur_time chunk_end_time) eqn:E1; [|reflexivity].
  apply gtb_gt in E1.
  destruct (Py.leb (cur_time - chunk_end_time) (6 # 10)) eqn:E2; [|reflexivity].
  apply leb_le in E2. lra.
Qed.

Lemma fix_overflow_trims (st'' : Audio.state) :
  chunk_end_time < cur_time -> cur_time - chunk_end_time <= 6 # 10 ->
  Audio.fix_overflow chunk_df (df1, fs1) cur_time chunk_end_time = Ok st'' ->
  exists tsl s e audio,
    last tss = Some tsl /\ last tsl = Some (s, e) /\
    fs1 last_file = Some audio /\
    records (fst st'') k
      (<[(length tss - 1)%nat :=
           <[(length tsl - 1)%nat := (s, chunk_end_time)]> tsl]> tss) /\
    snd st'' = Audio.write last_file
                 (Audio.pydub_prefix audio
                    (Py.int (inject_Z (Audio.pydub_len audio)
                             - (cur_time - chunk_end_time) * 1000)))
                 fs1.
Proof.
  intros H1 H2. unfold Audio.fix_overflow.
  apply gtb_gt in H1. apply leb_le in H2. rewrite H1, H2, Hlast.
  cbn [fst snd]. fold last_file.
  destruct (fs1 last_file) as [audio|]; [|discriminate].
  (* the last row of the chunk sits at position k + n - 1 of the frame *)
  assert (Hn : (0 < length chunk_df)%nat).
  { destruct chunk_df; [discriminate|cbn; lia]. }
  assert (Hl : chunk_df !! (length chunk_df - 1)%nat = Some last_row).
  { rewrite last_lookup in Hlast.
    now replace (length chunk_df - 1)%nat with (Init.Nat.pred (length chunk_df)) by lia. }
  pose proof (Hchunk _ _ Hl) as Hl0.
  destruct (Forall2_lookup_l _ _ _ _ _ Hsame Hl0) as (r1 & Hr1 & Hrel).
  assert (Hfind : Audio.find_number (Audio.number last_row) df1
                  = Ok (k + (length chunk_df - 1))%nat).
  { rewrite <- (same_task_number _ _ Hrel). apply find_number_nodup; [|exact Hr1].
    now rewrite (same_task_numbers _ _ Hsame). }
  rewrite Hfind. cbn [bind]. rewrite Hr1.
  destruct (lookup_lt_is_Some_2 tss (length tss - 1)) as [tsl Htsl]; [lia|].
  destruct (Hrec _ _ Htsl) as (r1' & Hr1' & Htimes).
  rewrite Hlen in Hr1'. rewrite Hr1 in Hr1'. injection Hr1' as <-.
  rewrite Htimes. unfold Audio.clamp_last_end.
  destruct (last tsl) as [[s e]|] eqn:Hltsl; [|discriminate].
  cbn [bind]. intros [= <-]. exists tsl, s, e, audio.
  split.
  { rewrite last_lookup.
    now replace (Init.Nat.pred (length tss)) with (length tss - 1)%nat by lia. }
  split; [exact Hltsl|]. split; [reflexivity|]. split; [|reflexivity].
  cbn [fst]. rewrite <- Hlen. apply records_alter_last; [exact Hrec|].
  destruct tss; [cbn in Hlen; lia|discriminate].
Qed.

End FixOverflow.

(** The chunk that [merge_chunks] cuts out of the frame has the shape that
    the chunk theorem below asks for. *)
Lemma chunk_of_frame_shape (tasks_df : list Audio.task) (n k : nat) :
  take n (drop k tasks_df)
  = take (length (take n (drop k tasks_df))) (drop k tasks_df).
Proof.
  rewrite length_take.
  destruct (Nat.le_ge_cases n (length (drop k tasks_df))) as [Hle|Hge].
  - now rewrite Nat.min_l.
  - rewrite Nat.min_r by exact Hge. now rewrite !take_ge.
Qed.

Lemma overflow_trim_whole_ms (audio time_diff : Q) :
  0 < time_diff ->
  time_diff * 1000 <= inject_Z (Audio.pydub_len audio) ->
  inject_Z (Audio.pydub_len audio) == audio * 1000 ->
  let k_ms := Py.int (inject_Z (Audio.pydub_len audio) - time_diff * 1000) in
  Audio.pydub_prefix audio k_ms = inject_Z k_ms / 1000 /\
  audio - time_diff - (1 # 1000) < inject_Z k_ms / 1000 /\
  inject_Z k_ms / 1000 <= audio - time_diff.
Proof.
  intros Hpos Hfit Hgrid k_ms.
  destruct (overflow_trim_length audio time_diff Hfit) as (Hk & Hlo & Hhi & Hcut).
  fold k_ms in Hk, Hlo, Hhi, Hcut.
  assert (Hle : inject_Z k_ms / 1000 <= audio - time_diff).
  { apply Qle_shift_div_r; [reflexivity|]. lra. }
  assert (Hgt : audio - time_diff - (1 # 1000) < inject_Z k_ms / 1000).
  { apply Qlt_shift_div_l; [reflexivity|]. lra. }
  split; [|split; assumption].
  rewrite Hcut. unfold Py.min.
  destruct (Py.ltb audio (inject_Z k_ms / 1000)) eqn:E; [|reflexivity].
  apply ltb_lt in E. lra.
Qed.

(** C2 (as amended). For a chunk of a frame with distinct line numbers that
    [merge_chunks] renders without an exception: every line of the chunk has
    one recorded interval, as wide as the adjusted clip lasts that
    [adjust_audio_speed] made of the line's synthesized clip; the rendered
    span (the cursor after the chunk minus the chunk start) is the sum of
    these adjusted clip durations plus, when keep_gaps is true, every
    internal gap divided by the speed factor (nothing for gaps otherwise);
    and the last recorded interval ends at the cursor.  If the cursor then
    exceeds the nominal end (last line's end + tolerance) by at most 0.6 s,
    the last recorded end time is set exactly to the nominal end, no clip
    but the final one is touched, and a final clip at least as long as the
    excess is cut to its first int(len_ms - 1000 * excess) milliseconds:
    by the excess rounded up to a whole millisecond.  If the cursor is
    within the nominal end, or exceeds it by more than 0.6 s, nothing is
    corrected; in the latter case the last recorded end stays more than
    0.6 s past the nominal end. *)
Theorem render_chunk_span_and_overflow
    (atempo : Audio.path -> Q -> nat -> option Q) (cfg : config)
    (df0 : list Audio.task) (fs : Audio.files) (k : nat)
    (chunk_df : list Audio.task) (st'' : Audio.state)
    (Hnodup : NoDup (Audio.number <$> df0))
    (Hchunk : chunk_df = take (length chunk_df) (drop k df0))
    (Hrun : Audio.render_chunk atempo cfg chunk_df (df0, fs) = Ok st'') :
  exists speed_factor keep_gaps first_row last_row tss cur_time df1 fs1,
    Audio.process_chunk chunk_df (cfg_accept cfg) (cfg_min_speed cfg)
    = Ok (speed_factor, keep_gaps) /\
    head chunk_df = Some first_row /\ last chunk_df = Some last_row /\
    let chunk_start_time := Audio.parse_df_srt_time (Audio.start_time_str first_row) in
    let chunk_end_time :=
      Audio.parse_df_srt_time (Audio.end_time_str last_row) + Audio.tolerance last_row in
    let last_file :=
      Audio.OUTPUT_FILE (Audio.number last_row)
                        (Z.of_nat (length (Audio.lines last_row)) - 1) in
    Audio.render_rows atempo chunk_df speed_factor keep_gaps 0 chunk_df (df0, fs)
                      chunk_start_time = Ok ((df1, fs1), cur_time) /\
    length tss = length chunk_df /\
    records df1 k tss /\
    (forall j ts r, tss !! j = Some ts -> chunk_df !! j = Some r ->
                    length ts = length (Audio.lines r)) /\
    (forall j ts r i iv,
       tss !! j = Some ts -> chunk_df !! j = Some r -> ts !! i = Some iv ->
       width iv == Audio.get_audio_duration fs1
                     (Audio.OUTPUT_FILE (Audio.number r) (Z.of_nat i)) /\
       adjusted_clip atempo speed_factor fs fs1 (Audio.number r) (Z.of_nat i)) /\
    cur_time - chunk_start_time
    == sum_clip_durations fs1 chunk_df
       + (if keep_gaps then Audio.sumQ (scaled_internal_gaps speed_factor chunk_df)
          else 0) /\
    (forall ts iv, last tss = Some ts -> last ts = Some iv -> snd iv = cur_time) /\
    (cur_time <= chunk_end_time \/ 6 # 10 < cur_time - chunk_end_time ->
     st'' = (df1, fs1)) /\
    (6 # 10 < cur_time - chunk_end_time ->
     forall ts iv, last tss = Some ts -> last ts = Some iv ->
                   6 # 10 < Qabs (snd iv - chunk_end_time)) /\
    (chunk_end_time < cur_time -> cur_time - chunk_end_time <= 6 # 10 ->
     exists tsl s e audio,
       last tss = Some tsl /\ last tsl = Some (s, e) /\
       fs1 last_file = Some audio /\
       records (fst st'') k
         (<[(length tss - 1)%nat :=
              <[(length tsl - 1)%nat := (s, chunk_end_time)]> tsl]> tss) /\
       (forall p, p <> last_file -> snd st'' p = fs1 p) /\
       let excess := cur_time - chunk_end_time in
       let k_ms := Py.int (inject_Z (Audio.pydub_len audio) - excess * 1000) in
       (excess * 1000 <= inject_Z (Audio.pydub_len audio) ->
        (0 <= k_ms)%Z /\
        inject_Z k_ms <= inject_Z (Audio.pydub_len audio) - excess * 1000 /\
        inject_Z (Audio.pydub_len audio) - excess * 1000 < inject_Z k_ms + 1 /\
        snd st'' last_file = Some (Py.min (inject_Z k_ms / 1000) audio) /\
        (inject_Z (Audio.pydub_len audio) == audio * 1000 ->
         snd st'' last_file = Some (inject_Z k_ms / 1000) /\
         audio - excess - (1 # 1000) < inject_Z k_ms / 1000 /\
         inject_Z k_ms / 1000 <= audio - excess))).
Proof.
  unfold Audio.render_chunk in Hrun.
  destruct (Audio.process_chunk chunk_df (cfg_accept cfg) (cfg_min_speed cfg))
    as [[speed_factor keep_gaps]|] eqn:Hsolve; [|discriminate].
  cbn [bind] in Hrun.
  destruct (head chunk_df) as [first_row|] eqn:Hhead; [|discriminate].
  destruct (last chunk_df) as [last_row|] eqn:Hlast; [|discriminate].
  destruct (Audio.render_rows atempo chunk_df speed_factor keep_gaps 0 chunk_df
              (df0, fs) (Audio.parse_df_srt_time (Audio.start_time_str first_row)))
    as [[[df1 fs1] cur_time]|] eqn:Hrows; [|discriminate].
  cbn [bind] in Hrun.
  assert (Hpos : forall j r, chunk_df !! j = Some r -> df0 !! (k + j)%nat = Some r).
  { intros j r Hj. rewrite Hchunk in Hj. apply lookup_take_Some in Hj as [Hj _].
    now rewrite lookup_drop in Hj. }
  destruct (render_rows_spec atempo df0 k chunk_df speed_factor keep_gaps Hnodup Hpos
              chunk_df [] (df0, fs) _ _ _ eq_refl (same_task_refl df0) Hrows)
    as (Hsame & _ & _ & tss & Hlen & Hrec & Hcur & Hlastiv & Hlens & Hw).
  cbn [fst snd length] in Hsame, Hrec, Hw. rewrite Nat.add_0_r in Hrec.
  cbn [last] in Hcur. rewrite gaps_between_none in Hcur.
  assert (Hsum : Audio.sumQ (sum_widths <$> tss) == sum_clip_durations fs1 chunk_df).
  { unfold sum_clip_durations. apply sumQ_pointwise; [exact Hlen|].
    intros j ts r Hts Hr. apply sum_widths_clip_durations.
    - exact (Hlens j ts r Hts Hr).
    - intros i iv Hiv. exact (proj1 (Hw j ts r i iv Hts Hr Hiv)). }
  exists speed_factor, keep_gaps, first_row, last_row, tss, cur_time, df1, fs1.
  split; [reflexivity|]. split; [reflexivity|]. split; [reflexivity|].
  cbv zeta. split; [exact Hrows|]. split; [exact Hlen|]. split; [exact Hrec|].
  split; [exact Hlens|]. split; [exact Hw|].
  split; [rewrite <- Hsum, Hcur; lra|]. split; [exact Hlastiv|].
  split; [|split].
  - intros Hcase.
    rewrite (fix_overflow_untouched chunk_df df1 fs1 _ _ Hcase) in Hrun.
    now injection Hrun as <-.
  - intros Hbig ts iv Hts Hiv. rewrite (Hlastiv ts iv Hts Hiv).
    rewrite Qabs_pos; lra.
  - intros H1 H2.
    destruct (fix_overflow_trims df0 k chunk_df df1 fs1 last_row tss cur_time _
                Hnodup Hpos Hsame Hlast Hlen Hrec st'' H1 H2 Hrun)
      as (tsl & s & e & audio & Htsl & Hse & Haudio & Hrec' & Hfs).
    exists tsl, s, e, audio. split; [exact Htsl|]. split; [exact Hse|].
    split; [exact Haudio|]. split; [exact Hrec'|].
    split; [intros p Hp; rewrite Hfs; now apply write_other|].
    intros Hfit.
    destruct (overflow_trim_length audio _ Hfit) as (Hk & Hlo & Hhi & Hcut).
    split; [exact Hk|]. split; [exact Hlo|]. split; [exact Hhi|].
    split.
    + rewrite Hfs, <- Hcut. unfold Audio.write.
      destruct (decide _); [reflexivity|contradiction].
    + intros Hgrid.
      assert (Hex : 0 < cur_time
                        - (Audio.parse_df_srt_time (Audio.end_time_str last_row)
                           + Audio.tolerance last_row)) by lra.
      destruct (overflow_trim_whole_ms audio _ Hex Hfit Hgrid)
        as (Hcut' & Hgt & Hle).
      split; [|split; assumption].
      rewrite Hfs, <- Hcut'. unfold Audio.write.
      destruct (decide _); [reflexivity|contradiction].
Qed.

Lemma render_chunk_span_and_overflow_witness :
  exists st'' speed_factor keep_gaps first_row cur_time fs1,
    Audio.render_chunk overflow_example_atempo example_config
      overflow_example_frame (overflow_example_frame, overflow_example_files) = Ok st'' /\
    Audio.process_chunk overflow_example_frame (12 # 10) 1 = Ok (speed_factor, keep_gaps) /\
    head overflow_example_frame = Some first_row /\
    cur_time - Audio.parse_df_srt_time (Audio.start_time_str first_row)
    == sum_clip_durations fs1 overflow_example_frame
       + (if keep_gaps
          then Audio.sumQ (scaled_internal_gaps speed_factor overflow_example_frame)
          else 0).
Proof.
  destruct (Audio.render_chunk overflow_example_atempo example_config
              overflow_example_frame (overflow_example_frame, overflow_example_files))
    as [st''|e] eqn:Hrun.
  2:{ vm_compute in Hrun. discriminate. }
  destruct (render_chunk_span_and_overflow overflow_example_atempo
              example_config overflow_example_frame overflow_example_files 0
              overflow_example_frame st'')
    as (speed & keep & first_row & last_row & tss & cur & df1 & fs1
        & Hsolve & Hhead & _ & _ & _ & _ & _ & _ & Hspan & _).
  - apply NoDup_cons. split; [|apply NoDup_singleton].
    intros Hin. apply list_elem_of_singleton in Hin. discriminate.
  - reflexivity.
  - exact Hrun.
  - exists st'', speed, keep, first_row, cur, fs1.
    split; [reflexivity|]. split; [exact Hsolve|]. split; [exact Hhead|exact Hspan].
Defined.

(** C2 as stated fails: the final clip is not trimmed by the excess, because
    the cut is made in whole milliseconds.  On [overflow_example_frame] the
    solver returns the speed 1.2 and keeps the gap; the cursor ends at
    10.19 + 0.5 / 1.2 + 10.18 s, which is 43/150 s (0.28666.. s) past the
    nominal end 20.5 s; the final clip of 10.18 s is cut to
    int(10180 - 286.66..) = 9893 ms, that is by 0.287 s. *)
Lemma final_clip_not_trimmed_by_excess :
  exists speed_factor st1 cur_time df' fs' before after,
    Audio.process_chunk overflow_example_frame
      (cfg_accept example_config) (cfg_min_speed example_config)
    = Ok (speed_factor, true) /\
    speed_factor == 12 # 10 /\
    Audio.render_rows overflow_example_atempo overflow_example_frame
      speed_factor true 0 overflow_example_frame
      (overflow_example_frame, overflow_example_files) 0 = Ok (st1, cur_time) /\
    Audio.parse_df_srt_time (Audio.SrtTime 0 0 20 500) + 0 == 205 # 10 /\
    cur_time - (205 # 10) == 43 # 150 /\
    snd st1 (Audio.OUTPUT_FILE 2 0) = Some before /\ before == 1018 # 100 /\
    Audio.merge_chunks overflow_example_atempo example_config
      (overflow_example_frame, overflow_example_files) = Ok (df', fs') /\
    fs' (Audio.OUTPUT_FILE 2 0) = Some after /\ after == 9893 # 1000 /\
    ~ after == before - (cur_time - (205 # 10)).
Proof.
  do 7 eexists.
  split; [vm_compute; reflexivity|]. split; [reflexivity|].
  split; [vm_compute; reflexivity|]. split; [reflexivity|]. split; [reflexivity|].
  split; [vm_compute; reflexivity|]. split; [reflexivity|].
  split; [vm_compute; reflexivity|]. split; [vm_compute; reflexivity|].
  split; [reflexivity|discriminate].
Qed.

(** ** The speed flag is monotone *)

Ltac py_compare :=
  repeat match goal with
         | H : Py.gtb _ _ = true |- _ => apply gtb_gt in H
         | H : Py.gtb _ _ = false |- _ => apply gtb_le in H
         | H : Py.ltb _ _ = true |- _ => apply ltb_lt in H
         | H : Py.ltb _ _ = false |- _ => apply ltb_ge in H
         | H : Py.leb _ _ = true |- _ => apply leb_le in H
         | H : Py.leb _ _ = false |- _ => apply leb_gt in H
         end.

(** X1. [calc_if_too_fast] is monotone in the estimated duration: with a
    positive accepted speed, a line whose reading takes longer never gets a
    smaller flag, the other three arguments being equal. *)
Theorem calc_if_too_fast_monotone (cfg : config)
    (e1 e2 tol_dur duration tolerance : Q)
    (Haccept : 0 < cfg_accept cfg) (Hle : e1 <= e2) :
  exists f1 f2 : Z,
    calc_if_too_fast cfg e1 tol_dur duration tolerance = Ok f1 /\
    calc_if_too_fast cfg e2 tol_dur duration tolerance = Ok f2 /\
    (f1 <= f2)%Z.
Proof.
  assert (Hne : ~ cfg_accept cfg == 0) by lra.
  assert (Hdiv : e1 / cfg_accept cfg <= e2 / cfg_accept cfg).
  { unfold Qdiv. apply Qmult_le_compat_r; [assumption|].
    apply Qlt_le_weak, Qinv_lt_0_compat; assumption. }
  unfold calc_if_too_fast. rewrite !(fdiv_ok _ _ Hne). cbn [bind].
  destruct (Py.gtb (e1 / _) tol_dur) eqn:A1; destruct (Py.gtb (e2 / _) tol_dur) eqn:A2;
    destruct (Py.gtb e1 tol_dur) eqn:B1; destruct (Py.gtb e2 tol_dur) eqn:B2;
    destruct (Py.ltb e1 (duration - tolerance)) eqn:C1;
    destruct (Py.ltb e2 (duration - tolerance)) eqn:C2;
    eexists _, _; (split; [reflexivity|split; [reflexivity|]]); try lia;
    exfalso; py_compare; lra.
Qed.

Lemma calc_if_too_fast_monotone_witness :
  exists f1 f2 : Z,
    calc_if_too_fast example_config 1 (23 # 10) 2 (3 # 10) = Ok f1 /\
    calc_if_too_fast example_config 3 (23 # 10) 2 (3 # 10) = Ok f2 /\
    (f1 <= f2)%Z.
Proof.
  apply (calc_if_too_fast_monotone example_config 1 3 (23 # 10) 2 (3 # 10));
    [reflexivity|discriminate].
Defined.

(** ** Groups formed by [merge_rows] *)

Lemma merge_rows_one (cfg : config) (df : list line) (start_idx : nat) (r : line) :
  ~ cfg_accept cfg == 0 -> df !! start_idx = Some r ->
  exists k,
    merge_rows cfg df start_idx 1 = Ok (mark_cut (start_idx + k - 1) df, k) /\
    (1 <= k <= 3)%nat /\ (start_idx + k <= length df)%nat /\
    (k = 1%nat <-> (start_idx + 1)%nat = length df) /\
    (k = 3%nat ->
     exists next f,
       df !! (start_idx + 1)%nat = Some next /\
       calc_if_too_fast cfg (est_dur r + est_dur next) (tol_dur r + tol_dur next)
                        (duration r + duration next) (tolerance next) = Ok f /\
       (0 < f)%Z).
Proof.
  intros Hacc Hr. pose proof (lookup_lt_Some _ _ _ Hr) as Hlt.
  unfold merge_rows. rewrite Hr.
  change (MAX_MERGE_COUNT - 1)%nat with 4%nat. cbn [merge_rows_loop].
  change (1 <? MAX_MERGE_COUNT)%nat with true. cbn [andb].
  destruct (Nat.ltb_spec (start_idx + 1) (length df)) as [H1|H1].
  - destruct (lookup_lt_is_Some_2 df (start_idx + 1) H1) as [next Hnext].
    rewrite Hnext. cbn [m_est_dur m_tol_dur m_duration].
    destruct (calc_if_too_fast_total cfg (est_dur r + est_dur next)
                (tol_dur r + tol_dur next) (duration r + duration next)
                (tolerance next) Hacc) as [flag Hflag].
    rewrite Hflag. cbn [bind]. change (1 =? 2)%nat with false. rewrite orb_false_r.
    destruct (Z.leb_spec flag 0) as [Hf|Hf].
    + exists 2%nat. replace (start_idx + 2 - 1)%nat with (start_idx + 1)%nat by lia.
      split; [reflexivity|]. repeat split; try lia.
    + change (2 <? MAX_MERGE_COUNT)%nat with true. cbn [andb].
      destruct (Nat.ltb_spec (start_idx + 2) (length df)) as [H2|H2].
      * destruct (lookup_lt_is_Some_2 df (start_idx + 2) H2) as [next2 ->].
        match goal with |- context [calc_if_too_fast ?c ?e ?t ?d ?tl] =>
          destruct (calc_if_too_fast_total c e t d tl Hacc) as [flag2 ->] end.
        cbn [bind]. change (2 =? 2)%nat with true. rewrite orb_true_r.
        exists 3%nat. replace (start_idx + 3 - 1)%nat with (start_idx + 2)%nat by lia.
        split; [reflexivity|]. repeat split; try lia.
        intros _. exists next, flag. auto.
      * change (MAX_MERGE_COUNT <=? 2)%nat with false. cbn [orb].
        destruct (Nat.leb_spec (length df) (start_idx + 2)) as [_|H3]; [|lia].
        exists 2%nat. split; [reflexivity|]. repeat split; try lia.
  - change (MAX_MERGE_COUNT <=? 1)%nat with false. cbn [orb].
    destruct (Nat.leb_spec (length df) (start_idx + 1)) as [_|H3]; [|lia].
    exists 1%nat. split; [reflexivity|]. repeat split; try lia.
Qed.

(** X2. Called as the planner calls it (merge count 1, on an existing row),
    [merge_rows] forms a group of one, two or three rows inside the frame and
    changes the frame by exactly one write: the cut mark on the group's last
    row.  The group is a single row exactly when the start row is the last
    row of the frame, and it reaches three rows only when the two-row group
    is still flagged too fast; five rows ([MAX_MERGE_COUNT]) are never
    reached. *)
Theorem merge_rows_group_of_at_most_three (cfg : config) (df : list line)
    (start_idx : nat) (r : line)
    (Haccept : ~ cfg_accept cfg == 0)
    (Hrow : df !! start_idx = Some r) :
  exists k,
    merge_rows cfg df start_idx 1 = Ok (mark_cut (start_idx + k - 1) df, k) /\
    (1 <= k <= 3)%nat /\ (k < MAX_MERGE_COUNT)%nat /\
    (start_idx + k <= length df)%nat /\
    (k = 1%nat <-> (start_idx + 1)%nat = length df) /\
    (k = 3%nat ->
     exists next f,
       df !! (start_idx + 1)%nat = Some next /\
       calc_if_too_fast cfg (est_dur r + est_dur next) (tol_dur r + tol_dur next)
                        (duration r + duration next) (tolerance next) = Ok f /\
       (0 < f)%Z).
Proof.
  destruct (merge_rows_one cfg df start_idx r Haccept Hrow)
    as (k & Heq & Hk & Hlen & H1 & H3).
  exists k. unfold MAX_MERGE_COUNT. repeat split; try lia; try tauto.
Qed.

Lemma merge_rows_group_of_at_most_three_witness :
  exists k,
    merge_rows example_config planner_example_lines 0 1
    = Ok (mark_cut (0 + k - 1) planner_example_lines, k) /\
    (1 <= k <= 3)%nat.
Proof.
  destruct (merge_rows_group_of_at_most_three example_config planner_example_lines 0
              (Line 1 (Time 0 0 0 0) (Time 0 0 2 0) 2 EmptyString
                    (3 # 10) (3 # 10) (23 # 10) 3 1 0))
    as (k & Heq & Hk & _); [discriminate|reflexivity|].
  exists k. split; [exact Heq|exact Hk].
Defined.

(** ** No chunk of the planner exceeds three rows *)

Lemma windowed_marks (df df' : list line) (n : nat) :
  marks df df' -> windowed is_cut_line df n -> windowed is_cut_line df' n.
Proof.
  intros Hm Hw i Hi. destruct (Hw i Hi) as (j & r & Hj & Hr & Hc).
  apply Z.eqb_eq in Hc.
  destruct (marks_keeps_cut _ _ _ _ Hm Hr Hc) as (r' & Hr' & Hc').
  exists j, r'. split; [assumption|]. split; [assumption|]. now apply Z.eqb_eq.
Qed.

Lemma windowed_step (df : list line) (idx k : nat) :
  windowed is_cut_line df idx ->
  (idx = 0%nat \/ marked df (idx - 1)) ->
  (1 <= k <= 3)%nat -> marked df (idx + k - 1) ->
  windowed is_cut_line df (idx + k).
Proof.
  intros Hw Hprev Hk (r & Hr & Hc) i Hi.
  destruct (Nat.lt_ge_cases (i + 2) idx) as [Hlow|Hhigh]; [now apply Hw|].
  destruct (Nat.le_gt_cases idx i) as [Hge|Hlt].
  - exists (idx + k - 1)%nat, r. split; [lia|]. split; [assumption|]. now apply Z.eqb_eq.
  - destruct Hprev as [->|(p & Hp & Hpc)]; [lia|].
    exists (idx - 1)%nat, p. split; [lia|]. split; [assumption|]. now apply Z.eqb_eq.
Qed.

Lemma marked_mark_cut (df : list line) (i : nat) :
  (i < length df)%nat -> marked (mark_cut i df) i.
Proof. apply mark_cut_lookup. Qed.

Lemma process_cutoffs_loop_windowed (cfg : config) (fuel : nat) :
  ~ cfg_accept cfg == 0 ->
  forall (df : list line) (idx : nat) (df' : list line),
    process_cutoffs_loop cfg fuel df idx = Ok df' ->
    (idx <= length df)%nat ->
    (idx = 0%nat \/ marked df (idx - 1)) ->
    windowed is_cut_line df idx ->
    windowed is_cut_line df' (length df).
Proof.
  intros Hacc. induction fuel as [|fuel IH]; intros df idx df' Hrun Hidx Hprev Hw;
    cbn [process_cutoffs_loop] in Hrun;
    destruct (Nat.ltb_spec idx (length df)) as [Hlt|Hge]; try discriminate.
  - injection Hrun as <-. now replace (length df) with idx by lia.
  - destruct (lookup_lt_is_Some_2 df idx Hlt) as [row Hrow]. rewrite Hrow in Hrun.
    assert (Hone : forall df1, marks df df1 -> marked df1 idx ->
              process_cutoffs_loop cfg fuel df1 (idx + 1) = Ok df' ->
              windowed is_cut_line df' (length df)).
    { intros df1 Hm Hmk H. rewrite <- (marks_length _ _ Hm).
      apply (IH df1 (idx + 1)%nat df' H).
      - rewrite (marks_length _ _ Hm). lia.
      - right. now replace (idx + 1 - 1)%nat with idx by lia.
      - apply windowed_step; [now apply (windowed_marks df)| |lia|].
        + destruct Hprev as [->|(p & Hp & Hpc)]; [now left|right].
          eapply marks_keeps_cut; eassumption.
        + now replace (idx + 1 - 1)%nat with idx by lia. }
    assert (Hmerge : (let* (df1, k) := merge_rows cfg df idx 1 in
                      process_cutoffs_loop cfg fuel df1 (idx + k)) = Ok df' ->
                     windowed is_cut_line df' (length df)).
    { destruct (merge_rows_one cfg df idx row Hacc Hrow) as (k & -> & Hk & Hlen & _).
      cbn [bind]. intros H.
      pose proof (marks_mark_cut (idx + k - 1) df) as Hm.
      rewrite <- (marks_length _ _ Hm).
      apply (IH _ (idx + k)%nat df' H).
      - rewrite (marks_length _ _ Hm). lia.
      - right. apply marked_mark_cut. lia.
      - apply windowed_step; [now apply (windowed_marks df)| |lia|].
        + destruct Hprev as [->|(p & Hp & Hpc)]; [now left|right].
          eapply marks_keeps_cut; eassumption.
        + apply marked_mark_cut. lia. }
    destruct (Z.eqb_spec (cut_off row) 1) as [Hc|Hc].
    { apply (Hone df); [apply marks_refl|now exists row|exact Hrun]. }
    destruct (Nat.leb_spec (length df) (idx + 1)) as [Hend|Hnext].
    { injection Hrun as <-.
      replace (length df) with (idx + 1)%nat by lia.
      apply windowed_step; [apply (windowed_marks df); [apply marks_mark_cut|exact Hw]| |lia|].
      - destruct Hprev as [->|(p & Hp & Hpc)]; [now left|right].
        eapply marks_keeps_cut; [apply marks_mark_cut|eassumption..].
      - replace (idx + 1 - 1)%nat with idx by lia. now apply marked_mark_cut. }
    destruct (_ <=? 0)%Z; [|now apply Hmerge].
    destruct (df !! (idx + 1)%nat) as [next|]; [|discriminate].
    destruct (_ <=? 0)%Z; [|now apply Hmerge].
    apply (Hone (mark_cut idx df)); [apply marks_mark_cut|now apply marked_mark_cut|exact Hrun].
  - injection Hrun as <-. now replace (length df) with idx by lia.
Qed.

Section ChunkSize.
Context {A : Type} (is_cut : A -> bool).

Lemma windowed_drop (l : list A) (n : nat) :
  windowed is_cut l (length l) -> windowed is_cut (drop n l) (length (drop n l)).
Proof.
  intros Hw i Hi. rewrite length_drop in Hi.
  destruct (Hw (n + i)%nat) as (j & r & Hj & Hr & Hc); [lia|].
  exists (j - n)%nat, r. split; [lia|]. split; [|assumption].
  rewrite lookup_drop. now replace (n + (j - n))%nat with j by lia.
Qed.

Lemma chunks_from_windowed (rows cur : list A) :
  Forall (fun r => is_cut r = false) cur ->
  windowed is_cut (cur ++ rows) (length (cur ++ rows)) ->
  Forall (fun c => (length c <= 3)%nat) (fst (chunks_from is_cut cur rows)).
Proof.
  revert cur. induction rows as [|r rows IH]; intros cur Hcur Hw; cbn [chunks_from].
  - constructor.
  - destruct (is_cut r) eqn:Hr.
    + assert (Hrest : windowed is_cut ([] ++ rows) (length ([] ++ rows))).
      { pose proof (windowed_drop _ (length (cur ++ [r])) Hw) as H.
        change (cur ++ r :: rows) with (cur ++ [r] ++ rows) in H.
        rewrite app_assoc, drop_app_length in H. exact H. }
      specialize (IH [] (Forall_nil_2 _) Hrest).
      destruct (chunks_from is_cut [] rows) as [cs rest]. cbn [fst] in *.
      constructor; [|exact IH].
      rewrite length_app. cbn [length].
      destruct (Nat.le_gt_cases (length cur) 2) as [Hle|Hgt]; [lia|exfalso].
      destruct (Hw 0%nat) as (j & x & Hj & Hx & Hc).
      { rewrite length_app. lia. }
      rewrite lookup_app_l in Hx by lia.
      rewrite Forall_forall in Hcur.
      rewrite (Hcur x) in Hc; [discriminate|].
      eapply list_elem_of_lookup_2. exact Hx.
    + apply IH.
      * apply Forall_app. split; [assumption|]. constructor; [assumption|constructor].
      * now rewrite <- app_assoc.
Qed.
End ChunkSize.

(** X3. The chunks that [process_cutoffs] plans never span more than three
    rows: in the marked frame every three consecutive rows hold a cut mark,
    so every chunk read off the marks has at most three rows. *)
Theorem process_cutoffs_chunks_at_most_three (cfg : config) (df : list line)
    (Haccept : ~ cfg_accept cfg == 0) :
  exists df',
    process_cutoffs cfg df = Ok df' /\
    (forall i, (i + 2 < length df')%nat ->
       exists j r, (i <= j <= i + 2)%nat /\ df' !! j = Some r /\ cut_off r = 1%Z) /\
    Forall (fun c => (length c <= 3)%nat) (chunks_of_lines df').
Proof.
  destruct (process_cutoffs_total cfg df Haccept) as (df' & Heq & _).
  exists df'. split; [exact Heq|].
  assert (Hw : windowed is_cut_line df' (length df')).
  { unfold process_cutoffs in Heq.
    pose proof (process_cutoffs_loop_marks _ _ _ _ _ Heq) as Hm.
    rewrite (marks_length _ _ Hm).
    apply (process_cutoffs_loop_windowed cfg _ Haccept _ 0%nat df' Heq); [lia|now left|].
    intros i Hi. lia. }
  split.
  - intros i Hi. destruct (Hw i Hi) as (j & r & Hj & Hr & Hc).
    exists j, r. split; [assumption|]. split; [assumption|]. now apply Z.eqb_eq.
  - apply (chunks_from_windowed is_cut_line df' []); [constructor|exact Hw].
Qed.

Lemma process_cutoffs_chunks_at_most_three_witness :
  exists df',
    process_cutoffs example_config planner_example_lines = Ok df' /\
    Forall (fun c => (length c <= 3)%nat) (chunks_of_lines df').
Proof.
  destruct (process_cutoffs_chunks_at_most_three example_config planner_example_lines)
    as (df' & Heq & _ & Hsize); [discriminate|].
  exists df'. split; [exact Heq|exact Hsize].
Defined.

(** ** The planner ignores and reproduces its own marks *)

Lemma premark_fixed (tol : Q) (r x : line) :
  let premark := fun r => if Py.geb (gap r) tol then set_cut_off 1 r else r in
  x = premark (set_cut_off 0 r) \/ x = set_cut_off 1 (premark (set_cut_off 0 r)) ->
  premark (set_cut_off 0 x) = premark (set_cut_off 0 r).
Proof.
  intros premark H. unfold premark in *. destruct r as [n s e d t g tl td ed f c].
  cbn in *. destruct (Py.geb g tol) eqn:E; destruct H as [->| ->]; cbn; rewrite E;
    reflexivity.
Qed.

Lemma premark_marks (tol : Q) (df df' : list line) :
  marks ((fun r => if Py.geb (gap r) tol then set_cut_off 1 r else r)
           <$> (set_cut_off 0 <$> df)) df' ->
  (fun r => if Py.geb (gap r) tol then set_cut_off 1 r else r)
    <$> (set_cut_off 0 <$> df')
  = (fun r => if Py.geb (gap r) tol then set_cut_off 1 r else r)
      <$> (set_cut_off 0 <$> df).
Proof.
  unfold marks. revert df'. induction df as [|r df IH]; intros df' H; inversion H; subst.
  - reflexivity.
  - cbn [fmap list_fmap]. f_equal; [|now apply IH].
    now apply premark_fixed.
Qed.

(** X4. [process_cutoffs] is idempotent: it resets the [cut_off] column
    before it plans and reads no other column that it writes, so planning
    again on its own result returns that result. *)
Theorem process_cutoffs_idempotent (cfg : config) (df df' : list line)
    (Hrun : process_cutoffs cfg df = Ok df') :
  process_cutoffs cfg df' = Ok df'.
Proof.
  unfold process_cutoffs in *.
  pose proof (process_cutoffs_loop_marks _ _ _ _ _ Hrun) as Hm.
  rewrite (premark_marks _ _ _ Hm). exact Hrun.
Qed.

Lemma process_cutoffs_idempotent_witness :
  process_cutoffs example_config planner_example_marked = Ok planner_example_marked.
Proof.
  apply (process_cutoffs_idempotent example_config planner_example_lines).
  vm_compute. reflexivity.
Defined.

(** ** Exhausted retries of the speed change *)

Lemma check_drift_raise (fs : Audio.files) (output_file : Audio.path)
    (input_duration speed_factor : Q) (e : exn) :
  Audio.check_drift fs output_file input_duration speed_factor = Raise e ->
  e = ZeroDivisionError \/ e = RuntimeError.
Proof.
  unfold Audio.check_drift, fdiv. destruct (Qeq_bool _ _); cbn [bind].
  - intros [= <-]. now left.
  - destruct (_ && _); [discriminate|].
    destruct (Py.geb _ _); [|discriminate]. intros [= <-]. now right.
Qed.

(** X6. [adjust_audio_speed] raises [CalledProcessError] exactly when the
    speed factor is not within 0.001 of 1 and ffmpeg fails on both attempts:
    a failure of the first attempt alone is retried, and no third attempt is
    made. *)
Theorem adjust_audio_speed_retries_exhausted
    (atempo : Audio.path -> Q -> nat -> option Q) (fs : Audio.files)
    (input_file output_file : Audio.path) (speed_factor : Q) :
  Audio.adjust_audio_speed atempo fs input_file output_file speed_factor
  = Raise CalledProcessError
  <-> (~ Qabs (speed_factor - 1) < 1 # 1000 /\
       atempo input_file speed_factor 0%nat = None /\
       atempo input_file speed_factor 1%nat = None).
Proof.
  unfold Audio.adjust_audio_speed.
  destruct (Py.ltb (Qabs (speed_factor - 1)) (1 # 1000)) eqn:Hnear.
  - apply ltb_lt in Hnear. split.
    + destruct (fs input_file); discriminate.
    + intros (Hfar & _). contradiction.
  - apply ltb_ge in Hnear.
    change Audio.max_retries with 2%nat. cbn [Audio.attempts].
    destruct (atempo input_file speed_factor 0%nat) as [out|] eqn:H0.
    + split.
      * intros H. apply check_drift_raise in H. destruct H; discriminate.
      * intros (_ & H & _). discriminate.
    + change (0 <? Audio.max_retries - 1)%nat with true. cbn iota.
      destruct (atempo input_file speed_factor 1%nat) as [out|] eqn:H1.
      * split.
        -- intros H. apply check_drift_raise in H. destruct H; discriminate.
        -- intros (_ & _ & H). discriminate.
      * change (1 <? Audio.max_retries - 1)%nat with false. cbn iota.
        split; [|reflexivity]. intros _. repeat split. lra.
Qed.

(** ** What the renderer leaves alone *)

Lemma outputs_written_refl (fs : Audio.files) : outputs_written fs fs.
Proof. split; auto. Qed.

Lemma outputs_written_trans (a b c : Audio.files) :
  outputs_written a b -> outputs_written b c -> outputs_written a c.
Proof.
  intros [H1 H2] [H3 H4]. split.
  - intros n i. now rewrite H3, H1.
  - intros p Hp. now apply H4, H2.
Qed.

Lemma outputs_written_write (fs : Audio.files) (number line_index : Z) (d : Q) :
  outputs_written fs (Audio.write (Audio.OUTPUT_FILE number line_index) d fs).
Proof.
  unfold Audio.write. split.
  - intros n i. destruct (decide _); [discriminate|reflexivity].
  - intros p Hp. destruct (decide _); [discriminate|assumption].
Qed.

Section RendererFrame.

Variable atempo : Audio.path -> Q -> nat -> option Q.
Variable cfg : config.

Lemma check_drift_outputs (fs fs' : Audio.files) (number line_index : Z)
    (input_duration speed_factor : Q) :
  Audio.check_drift fs (Audio.OUTPUT_FILE number line_index) input_duration speed_factor
  = Ok fs' ->
  outputs_written fs fs'.
Proof.
  unfold Audio.check_drift. destruct (fdiv _ _) as [expected|]; [|discriminate].
  cbn [bind]. destruct (_ && _).
  - intros [= <-]. apply outputs_written_write.
  - destruct (Py.geb _ _); [discriminate|]. intros [= <-]. apply outputs_written_refl.
Qed.

Lemma attempts_outputs (n attempt : nat) (fs fs' : Audio.files)
    (input_file : Audio.path) (number line_index : Z) (input_duration speed_factor : Q) :
  Audio.attempts atempo n attempt fs input_file (Audio.OUTPUT_FILE number line_index)
                 input_duration speed_factor = Ok fs' ->
  outputs_written fs fs'.
Proof.
  revert attempt. induction n as [|n IH]; intros attempt; cbn [Audio.attempts].
  - intros [= <-]. apply outputs_written_refl.
  - destruct (atempo _ _ _) as [out|].
    + intros H. eapply outputs_written_trans; [apply outputs_written_write|].
      eapply check_drift_outputs. exact H.
    + destruct (_ <? _)%nat; [apply IH|discriminate].
Qed.

Lemma adjust_audio_speed_outputs (fs fs' : Audio.files) (input_file : Audio.path)
    (number line_index : Z) (speed_factor : Q) :
  Audio.adjust_audio_speed atempo fs input_file (Audio.OUTPUT_FILE number line_index)
                           speed_factor = Ok fs' ->
  outputs_written fs fs'.
Proof.
  unfold Audio.adjust_audio_speed. destruct (Py.ltb _ _).
  - destruct (fs input_file); [|discriminate].
    intros [= <-]. apply outputs_written_write.
  - apply attempts_outputs.
Qed.

Lemma render_clips_outputs (number : Z) (speed_factor : Q) (lines : list string) :
  forall (line_index : Z) (fs : Audio.files) (cur_time : Q) (acc : list (Q * Q))
         (fs' : Audio.files) (cur' : Q) (times : list (Q * Q)),
    Audio.render_clips atempo number speed_factor line_index lines fs cur_time acc
    = Ok (fs', cur', times) ->
    outputs_written fs fs'.
Proof.
  induction lines as [|l lines IH]; intros line_index fs cur_time acc fs' cur' times;
    cbn [Audio.render_clips].
  - intros [= <- _ _]. apply outputs_written_refl.
  - destruct (Audio.adjust_audio_speed _ _ _ _ _) as [fs1|] eqn:Hadj; [|discriminate].
    cbn [bind]. intros H.
    eapply outputs_written_trans; [eapply adjust_audio_speed_outputs; exact Hadj|].
    eapply IH. exact H.
Qed.

Lemma render_rows_frame (df0 chunk_df : list Audio.task) (speed_factor : Q)
    (keep_gaps : bool) (rows : list Audio.task) :
  forall (i : nat) (st : Audio.state) (cur : Q) (st' : Audio.state) (cur' : Q),
    Forall2 same_task df0 (fst st) ->
    Audio.render_rows atempo chunk_df speed_factor keep_gaps i rows st cur
    = Ok (st', cur') ->
    Forall2 same_task df0 (fst st') /\ outputs_written (snd st) (snd st').
Proof.
  induction rows as [|row rows IH]; intros i st cur st' cur' Hsame;
    cbn [Audio.render_rows].
  - intros [= <- _]. split; [assumption|apply outputs_written_refl].
  - destruct (if negb (i =? 0)%nat && keep_gaps then _ else _) as [cur1|];
      [|discriminate].
    cbn [bind].
    destruct (Audio.render_clips _ _ _ _ _ _ _ _) as [[[fs1 cur2] times]|] eqn:Hclips;
      [|discriminate].
    cbn [bind]. destruct (Audio.find_number _ _) as [idx|]; [|discriminate].
    cbn [bind]. intros H.
    destruct (IH (S i) (alter (Audio.set_new_sub_times (Some times)) idx (fst st), fs1)
                cur2 st' cur' (same_task_alter _ _ (Some times) idx Hsame) H)
      as [H1 H2].
    split; [exact H1|].
    eapply outputs_written_trans; [|exact H2].
    eapply render_clips_outputs. exact Hclips.
Qed.

Lemma fix_overflow_frame (df0 chunk_df : list Audio.task) (st st' : Audio.state)
    (cur_time chunk_end_time : Q) :
  Forall2 same_task df0 (fst st) ->
  Audio.fix_overflow chunk_df st cur_time chunk_end_time = Ok st' ->
  Forall2 same_task df0 (fst st') /\ outputs_written (snd st) (snd st').
Proof.
  intros Hsame. unfold Audio.fix_overflow.
  destruct (Py.gtb _ _);
    [|intros [= <-]; split; [assumption|apply outputs_written_refl]].
  destruct (Py.leb _ _);
    [|intros [= <-]; split; [assumption|apply outputs_written_refl]].
  destruct (last chunk_df) as [last_row|]; [|discriminate].
  destruct (snd st _) as [audio|]; [|discriminate].
  destruct (Audio.find_number _ _) as [idx|]; [|discriminate]. cbn [bind].
  destruct (fst st !! idx) as [main_row|]; [|discriminate].
  destruct (Audio.new_sub_times main_row) as [last_times|]; [|discriminate].
  destruct (Audio.clamp_last_end _ _) as [times|]; [|discriminate]. cbn [bind].
  intros [= <-]. cbn [fst snd]. split.
  - now apply same_task_alter.
  - apply outputs_written_write.
Qed.

Lemma render_chunk_frame (df0 chunk_df : list Audio.task) (st st' : Audio.state) :
  Forall2 same_task df0 (fst st) ->
  Audio.render_chunk atempo cfg chunk_df st = Ok st' ->
  Forall2 same_task df0 (fst st') /\ outputs_written (snd st) (snd st').
Proof.
  intros Hsame. unfold Audio.render_chunk.
  destruct (Audio.process_chunk _ _ _) as [[speed_factor keep_gaps]|]; [|discriminate].
  cbn [bind]. destruct (head chunk_df) as [first_row|]; [|discriminate].
  destruct (last chunk_df) as [last_row|]; [|discriminate].
  destruct (Audio.render_rows _ _ _ _ _ _ _ _) as [[st1 cur_time]|] eqn:Hrows;
    [|discriminate].
  cbn [bind]. intros H.
  destruct (render_rows_frame _ _ _ _ _ _ _ _ _ _ Hsame Hrows) as [H1 H2].
  destruct (fix_overflow_frame _ _ _ _ _ _ H1 H) as [H3 H4].
  split; [exact H3|]. eapply outputs_written_trans; eassumption.
Qed.

Lemma merge_chunks_loop_frame (df0 : list Audio.task) (rows : list (nat * Audio.task)) :
  forall (chunk_start_index : nat) (st st' : Audio.state),
    Forall2 same_task df0 (fst st) ->
    Audio.merge_chunks_loop atempo cfg rows chunk_start_index st = Ok st' ->
    Forall2 same_task df0 (fst st') /\ outputs_written (snd st) (snd st').
Proof.
  induction rows as [|[index row] rows IH]; intros chunk_start_index st st' Hsame;
    cbn [Audio.merge_chunks_loop].
  - intros [= <-]. split; [assumption|apply outputs_written_refl].
  - destruct (_ =? 1)%Z; [|now apply IH].
    destruct (Audio.render_chunk _ _ _ _) as [st1|] eqn:Hchunk; [|discriminate].
    cbn [bind]. intros H.
    destruct (render_chunk_frame _ _ _ _ Hsame Hchunk) as [H1 H2].
    destruct (IH _ _ _ H1 H) as [H3 H4].
    split; [exact H3|]. eapply outputs_written_trans; eassumption.
Qed.

End RendererFrame.

(** X7. A run of [merge_chunks] that returns changes no column of the task
    frame other than [new_sub_times] (same rows, same order), leaves every
    synthesized clip file ([TEMP_FILE]) exactly as it was, and removes no
    file: its writes all go to output clips. *)
Theorem merge_chunks_frame
    (atempo : Audio.path -> Q -> nat -> option Q) (cfg : config)
    (st st' : Audio.state)
    (Hrun : Audio.merge_chunks atempo cfg st = Ok st') :
  Forall2 same_task (fst st) (fst st') /\
  length (fst st') = length (fst st) /\
  (forall number line_index,
     snd st' (Audio.TEMP_FILE number line_index)
     = snd st (Audio.TEMP_FILE number line_index)) /\
  (forall p, snd st p <> None -> snd st' p <> None).
Proof.
  unfold Audio.merge_chunks in Hrun.
  assert (Hsame : Forall2 same_task (fst st) (Audio.set_new_sub_times None <$> fst st)).
  { apply Forall2_fmap_r, Forall_Forall2_diag, Forall_forall. intros r _.
    destruct r; reflexivity. }
  destruct (merge_chunks_loop_frame atempo cfg (fst st) _ 0%nat
              (Audio.set_new_sub_times None <$> fst st, snd st) st' Hsame Hrun)
    as [H1 [H2 H3]].
  split; [exact H1|]. split; [symmetry; exact (Forall2_length _ _ _ H1)|].
  split; [exact H2|exact H3].
Qed.

Lemma merge_chunks_frame_witness :
  exists st',
    Audio.merge_chunks (render_example_atempo (2515 # 100)) example_config
      (render_example_frame, render_example_files) = Ok st' /\
    Forall2 same_task render_example_frame (fst st') /\
    snd st' (Audio.TEMP_FILE 1 0) = Some 30.
Proof.
  destruct (Audio.merge_chunks (render_example_atempo (2515 # 100)) example_config
              (render_example_frame, render_example_files)) as [st'|e] eqn:Hrun.
  2:{ vm_compute in Hrun. discriminate. }
  destruct (merge_chunks_frame _ _ _ _ Hrun) as (Hsame & _ & Htemp & _).
  exists st'. split; [reflexivity|]. split; [exact Hsame|].
  rewrite Htemp. reflexivity.
Defined.

(** ** When the aligner fails *)

Section AlignerFailure.

Context {char : Type} `{EqDecision char}.
Variables (is_space is_word : char -> bool) (lower : list char -> list char).
Variable space : char.

Let clean := Align.clean is_space is_word lower space.
Let clean_word (w : Align.word char) : list char :=
  Align.remove_punctuation is_space is_word lower space (Align.text w).
Let word_at := Align.word_at is_space is_word lower space.
Let aligned := Align.aligned is_space is_word lower space.
Let align := Align.align is_space is_word lower space.

Lemma word_at_some (words : list (Align.word char)) (idx p : nat) :
  (p < length (concat (clean_word <$> words)))%nat ->
  exists i w, word_at idx words p = Some i /\ words !! (i - idx)%nat = Some w /\
              (idx <= i)%nat.
Proof.
  revert idx p. induction words as [|w words IH]; intros idx p Hp.
  - cbn in Hp. lia.
  - cbn [fmap list_fmap concat] in Hp. rewrite length_app in Hp.
    cbn [word_at Align.word_at]. fold word_at. fold (clean_word w).
    destruct (Nat.ltb_spec p (length (clean_word w))) as [Hlt|Hge].
    + exists idx, w. rewrite Nat.sub_diag. auto.
    + destruct (IH (S idx) (p - length (clean_word w))%nat) as (i & x & Hi & Hx & Hle);
        [lia|].
      exists i, x. split; [exact Hi|]. split; [|lia].
      replace (i - idx)%nat with (S (i - S idx)) by lia. exact Hx.
Qed.

Lemma last_cursor_cons (cur c : nat) (cs : list nat) :
  default cur (last (c :: cs)) = default c (last cs).
Proof. rewrite last_cons. destruct (last cs); reflexivity. Qed.

Lemma align_raise (words : list (Align.word char)) (pm : list nat)
    (ss : list (list char)) :
  let full := concat (clean_word <$> words) in
  (forall p, pm !! p = word_at 0 words p) ->
  forall cur acc e,
    align words full pm cur ss acc = Raise e ->
    e = ValueError /\
    exists done s rest ts cs,
      ss = done ++ s :: rest /\ aligned words full cur done ts cs /\
      clean s <> [] /\
      forall p, (default cur (last cs) <= p)%nat -> ~ Align.occurs_at full p (clean s).
Proof.
  intros full Hpm. induction ss as [|s ss IH]; intros cur acc e;
    cbn [align Align.align]; [discriminate|].
  fold align. fold (clean s).
  destruct (clean s) as [|c l] eqn:E.
  - intros Hrun.
    destruct (IH _ _ _ Hrun) as (-> & done & s' & rest & ts & cs & -> & Ha & Hs' & Hno).
    split; [reflexivity|].
    exists (s :: done), s', rest, ((0, 0) :: ts), (cur :: cs).
    split; [reflexivity|]. split; [now apply Align.aligned_blank|].
    split; [exact Hs'|]. now rewrite last_cursor_cons.
  - rewrite <- E.
    assert (Hne : clean s <> []) by (rewrite E; discriminate).
    pose proof (search_spec (clean s) (drop cur full) cur Hne) as Hspec.
    destruct (Align.search (clean s) (drop cur full) cur) as [p|].
    + destruct Hspec as (k & -> & Hocc & Hearly).
      apply occurs_at_drop in Hocc; [|exact Hne].
      assert (Hlen : (1 <= length (clean s))%nat) by (rewrite E; cbn; lia).
      destruct Hocc as [Hfit Hslice].
      destruct (word_at_some words 0 (cur + k)) as (i & wi & Hi & Hwi & _);
        [fold full; lia|].
      destruct (word_at_some words 0 (cur + k + length (clean s) - 1))
        as (j & wj & Hj & Hwj & _); [fold full; lia|].
      rewrite Nat.sub_0_r in Hwi, Hwj.
      rewrite !Hpm, Hi, Hj, Hwi, Hwj. intros Hrun.
      destruct (IH _ _ _ Hrun)
        as (-> & done & s' & rest & ts & cs & -> & Ha & Hs' & Hno).
      split; [reflexivity|].
      exists (s :: done), s', rest, ((Align.start wi, Align.end_ wj) :: ts),
             ((cur + k + length (clean s))%nat :: cs).
      split; [reflexivity|]. split; [|split; [exact Hs'|now rewrite last_cursor_cons]].
      eapply Align.aligned_match; try eassumption.
      * lia.
      * split; assumption.
      * intros q Hq Hoccq. apply (Hearly (q - cur)%nat); [lia|].
        apply occurs_at_drop; [exact Hne|].
        now replace (cur + (q - cur))%nat with q by lia.
    + intros [= <-]. split; [reflexivity|].
      exists [], s, ss, [], []. split; [reflexivity|]. split; [constructor|].
      split; [exact Hne|]. cbn. intros p Hp Hocc.
      apply (Hspec (p - cur)%nat). apply occurs_at_drop; [exact Hne|].
      now replace (cur + (p - cur))%nat with p by lia.
Qed.

(** X8. [get_sentence_timestamps] fails in one way only: with the
    [ValueError] of a sentence that cannot be matched.  The lookups in the
    position map and in the word table never fail.  When it fails, the
    sentences before the failing one are aligned as [aligned] describes,
    and the cleaned text of the failing sentence is not empty and occurs
    nowhere in the concatenated cleaned words at or after the cursor that
    those sentences leave. *)
Theorem get_sentence_timestamps_failure
    (df_words : list (Align.word char)) (df_sentences : list (list char))
    (e : exn)
    (Hrun : Align.get_sentence_timestamps is_space is_word lower space
              df_words df_sentences = Raise e) :
  let full_words_str :=
    concat ((fun w => Align.remove_punctuation is_space is_word lower space
                        (Align.text w)) <$> df_words) in
  e = ValueError /\
  exists done sentence rest intervals cursors,
    df_sentences = done ++ sentence :: rest /\
    Align.aligned is_space is_word lower space df_words full_words_str 0
                  done intervals cursors /\
    Align.clean is_space is_word lower space sentence <> [] /\
    forall p, (default 0%nat (last cursors) <= p)%nat ->
      ~ Align.occurs_at full_words_str p
          (Align.clean is_space is_word lower space sentence).
Proof.
  intros full. unfold Align.get_sentence_timestamps in Hrun.
  destruct (build_index_spec is_space is_word lower space df_words 0 [] [])
    as (Hfull & _ & Hpm).
  destruct (Align.build_index is_space is_word lower space 0 df_words [] [])
    as [full' pm].
  cbn [fst snd] in Hfull, Hpm. cbn [app] in Hfull. subst full'.
  exact (align_raise df_words pm df_sentences Hpm 0%nat [] e Hrun).
Qed.

End AlignerFailure.

Lemma get_sentence_timestamps_failure_witness :
  ascii_timestamps aligner_example_words ["hello world"; "goodbye"]%string
  = Raise ValueError /\
  exists done sentence rest,
    list_ascii_of_string <$> ["hello world"; "goodbye"]%string
    = done ++ sentence :: rest /\
    Align.clean ascii_is_space ascii_is_word ascii_lower (Ascii.ascii_of_nat 32)
      sentence <> [].
Proof.
  assert (Hrun : ascii_timestamps aligner_example_words
                   ["hello world"; "goodbye"]%string = Raise ValueError)
    by (vm_compute; reflexivity).
  split; [exact Hrun|].
  destruct (get_sentence_timestamps_failure ascii_is_space ascii_is_word
              ascii_lower (Ascii.ascii_of_nat 32) aligner_example_words
              (list_ascii_of_string <$> ["hello world"; "goodbye"]%string)
              ValueError Hrun)
    as (_ & done & s & rest & _ & _ & Heq & _ & Hne & _).
  exists done, s, rest. split; [exact Heq|exact Hne].
Defined.

(** ** Closing the gaps between subtitles *)

Lemma close_gaps_lookup (ts : list (Q * Q)) (i : nat) (t : Q * Q) :
  ts !! i = Some t ->
  exists t',
    close_gaps ts !! i = Some t' /\ fst t' = fst t /\ snd t <= snd t' /\
    (forall next, ts !! S i = Some next ->
       ~ (0 < fst next - snd t' /\ fst next - snd t' < 1) /\
       (~ (0 < fst next - snd t /\ fst next - snd t < 1) -> t' = t)) /\
    (ts !! S i = None -> t' = t).
Proof.
  intros Ht. unfold close_gaps. rewrite list_lookup_imap, Ht. cbn [fmap option_fmap option_map].
  destruct (ts !! S i) as [next|].
  - cbv zeta.
    destruct (Py.ltb 0 (fst next - snd t)) eqn:H0;
      destruct (Py.ltb (fst next - snd t) 1) eqn:H1; cbn [andb]; py_compare;
      eexists; (split; [reflexivity|]); cbn [fst snd];
      (split; [reflexivity|]); (split; [lra|]);
      (split; [|discriminate]); intros next' [= <-]; (split; [lra|]);
      intros Hn; try reflexivity; exfalso; apply Hn; lra.
  - exists t. split; [reflexivity|]. split; [reflexivity|]. split; [lra|].
    split; [intros next; discriminate|reflexivity].
Qed.

Section AlignTimestampFacts.

Context {char : Type} `{EqDecision char}.
Variables (is_space is_word : char -> bool) (lower : list char -> list char).
Variable space : char.
Variable convert_to_srt_format : Q -> Q -> string.

Lemma get_sentence_timestamps_length
    (df_words : list (Align.word char)) (df_sentences : list (list char))
    (ts : list (Q * Q)) :
  Align.get_sentence_timestamps is_space is_word lower space df_words df_sentences
  = Ok ts ->
  length ts = length df_sentences.
Proof.
  unfold Align.get_sentence_timestamps.
  destruct (build_index_spec is_space is_word lower space df_words 0 [] [])
    as (_ & _ & Hpm).
  destruct (Align.build_index is_space is_word lower space 0 df_words [] [])
    as [full pm].
  cbn [snd] in Hpm. intros Hrun.
  destruct (align_sound is_space is_word lower space df_words full pm df_sentences
              Hpm 0%nat [] ts Hrun) as (ts' & cs & -> & Ha).
  cbn [app]. clear -Ha. induction Ha; cbn; congruence.
Qed.

(** X11. When [align_timestamp] returns, it returns one row per sentence;
    each row starts where the aligner put it and ends there or later; no
    two consecutive rows are separated by a gap strictly between 0 and 1
    second; the printed time codes are those of the final interval; and
    ['duration'] is the width of the aligner's interval, taken before the
    gaps are closed, so it is at most the width of the final interval. *)
Theorem align_timestamp_closes_gaps
    (df_text : list (Align.word char)) (df_translate : list (list char))
    (rows : list Sub.row)
    (Hrun : align_timestamp is_space is_word lower space convert_to_srt_format
              df_text df_translate
            = Ok rows) :
  exists time_stamp_list,
    Align.get_sentence_timestamps is_space is_word lower space df_text df_translate
    = Ok time_stamp_list /\
    length rows = length df_translate /\
    forall (i : nat) (t : Q * Q),
      time_stamp_list !! i = Some t ->
      exists r,
        rows !! i = Some r /\
        fst (Sub.timestamp r) = fst t /\
        snd t <= snd (Sub.timestamp r) /\
        Sub.duration r = snd t - fst t /\
        Sub.duration r <= snd (Sub.timestamp r) - fst (Sub.timestamp r) /\
        Sub.timestamp_srt r
        = convert_to_srt_format (fst (Sub.timestamp r)) (snd (Sub.timestamp r)) /\
        (forall r', rows !! S i = Some r' ->
           ~ (0 < fst (Sub.timestamp r') - snd (Sub.timestamp r) /\
              fst (Sub.timestamp r') - snd (Sub.timestamp r) < 1)).
Proof.
  unfold align_timestamp in Hrun.
  destruct (Align.get_sentence_timestamps _ _ _ _ _ _) as [ts|] eqn:Hts; [|discriminate].
  cbn [bind] in Hrun. injection Hrun as <-.
  exists ts. split; [reflexivity|].
  assert (Hrow : forall i t, ts !! i = Some t ->
            exists t',
              close_gaps ts !! i = Some t' /\
              zip_with (fun x d => Sub.Row x d (convert_to_srt_format (fst x) (snd x)))
                       (close_gaps ts) ((fun x => snd x - fst x) <$> ts) !! i
              = Some (Sub.Row t' (snd t - fst t)
                              (convert_to_srt_format (fst t') (snd t')))).
  { intros i t Ht. destruct (close_gaps_lookup ts i t Ht) as (t' & Ht' & _).
    exists t'. split; [exact Ht'|].
    rewrite lookup_zip_with, Ht', list_lookup_fmap, Ht. reflexivity. }
  split.
  - rewrite length_zip_with, length_fmap. unfold close_gaps. rewrite length_imap.
    rewrite Nat.min_id.
    exact (get_sentence_timestamps_length df_text df_translate ts Hts).
  - intros i t Ht.
    destruct (Hrow i t Ht) as (t' & Ht' & Hr).
    destruct (close_gaps_lookup ts i t Ht) as (t2 & Ht2 & Hstart & Hend & Hnext & _).
    assert (t2 = t') by congruence. subst t2.
    eexists. split; [exact Hr|]. cbn [Sub.timestamp Sub.duration Sub.timestamp_srt].
    split; [exact Hstart|]. split; [exact Hend|]. split; [reflexivity|].
    split; [rewrite Hstart; lra|]. split; [reflexivity|].
    intros r' Hr'.
    destruct (ts !! S i) as [next|] eqn:Hn.
    + destruct (Hrow (S i) next Hn) as (n' & Hn' & Hrn).
      rewrite Hrn in Hr'. injection Hr' as <-. cbn [Sub.timestamp].
      destruct (close_gaps_lookup ts (S i) next Hn) as (n2 & Hn2 & Hs2 & _).
      assert (n2 = n') by congruence. subst n2. rewrite Hs2.
      exact (proj1 (Hnext next eq_refl)).
    + exfalso. apply lookup_ge_None in Hn.
      apply lookup_lt_Some in Hr'.
      rewrite length_zip_with, length_fmap in Hr'. lia.
Qed.

End AlignTimestampFacts.

Lemma align_timestamp_closes_gaps_witness :
  exists rows r,
    align_timestamp ascii_is_space ascii_is_word ascii_lower (Ascii.ascii_of_nat 32)
      (fun _ _ => EmptyString)
      subtitle_example_words (list_ascii_of_string <$> ["good"; "morning"]%string)
    = Ok rows /\
    rows !! 0%nat = Some r /\ fst (Sub.timestamp r) = 0 /\ 1 <= snd (Sub.timestamp r).
Proof.
  destruct (align_timestamp ascii_is_space ascii_is_word ascii_lower
              (Ascii.ascii_of_nat 32) (fun _ _ => EmptyString) subtitle_example_words
              (list_ascii_of_string <$> ["good"; "morning"]%string))
    as [rows|e] eqn:Hrun.
  2:{ vm_compute in Hrun. discriminate. }
  destruct (align_timestamp_closes_gaps _ _ _ _ _ _ _ _ Hrun) as (ts & Hts & _ & Hrows).
  assert (Hts' : ts = [(0, 1); (3 # 2, 2)]).
  { vm_compute in Hts. now injection Hts as <-. }
  destruct (Hrows 0%nat (0, 1)) as (r & Hr & Hstart & Hend & _).
  { rewrite Hts'. reflexivity. }
  exists rows, r. split; [reflexivity|]. split; [exact Hr|]. split; assumption.
Defined.

(** ** Reading and updating the configuration *)

Lemma split_dot_nonempty (key : string) : Yaml.split_dot key <> [].
Proof.
  destruct key as [|c key]; cbn; [discriminate|].
  destruct (Ascii.eqb c "."); [discriminate|].
  destruct (Yaml.split_dot key); discriminate.
Qed.

Lemma update_key_loop_found (keys : list string) (new_value : Yaml.yaml) :
  forall current current',
    Yaml.update_key_loop keys current new_value = Ok (Some current') ->
    Yaml.load_key_loop keys current' = Ok new_value /\
    exists old, Yaml.load_key_loop keys current = Ok old.
Proof.
  induction keys as [|k keys IH]; intros current current'; [discriminate|].
  cbn [Yaml.update_key_loop Yaml.load_key_loop].
  destruct keys as [|k2 keys].
  - destruct current as [s|m]; [discriminate|].
    destruct (m !! k) as [old|] eqn:Hk; [|discriminate].
    intros [= <-]. rewrite lookup_insert_eq. split; [reflexivity|]. now exists old.
  - destruct current as [s|m]; [discriminate|].
    destruct (m !! k) as [v|] eqn:Hk; [|discriminate].
    destruct (Yaml.update_key_loop (k2 :: keys) v new_value) as [[v'|]|] eqn:Hu;
      cbn [bind]; try discriminate.
    intros [= <-]. rewrite lookup_insert_eq. now apply IH.
Qed.

Lemma update_key_loop_total (keys : list string) (new_value : Yaml.yaml) :
  keys <> [] ->
  forall current old,
    Yaml.load_key_loop keys current = Ok old ->
    exists current', Yaml.update_key_loop keys current new_value = Ok (Some current').
Proof.
  induction keys as [|k keys IH]; intros Hne current old; [contradiction|].
  cbn [Yaml.update_key_loop Yaml.load_key_loop].
  destruct current as [s|m]; [discriminate|].
  destruct (m !! k) as [v|] eqn:Hk; [|discriminate].
  destruct keys as [|k2 keys].
  - intros _. eauto.
  - intros Hload. destruct (IH ltac:(discriminate) v old Hload) as [v' ->].
    cbn [bind]. eauto.
Qed.

Lemma update_key_loop_other (keys : list string) (new_value : Yaml.yaml) :
  forall current current' keys',
    Yaml.update_key_loop keys current new_value = Ok (Some current') ->
    ~ keys `prefix_of` keys' -> ~ keys' `prefix_of` keys ->
    Yaml.load_key_loop keys' current' = Yaml.load_key_loop keys' current.
Proof.
  induction keys as [|k keys IH]; intros current current' keys'; [discriminate|].
  intros Hu Hp1 Hp2.
  destruct keys' as [|k' keys']; [exfalso; apply Hp2, prefix_nil|].
  cbn [Yaml.update_key_loop] in Hu. cbn [Yaml.load_key_loop].
  destruct current as [s|m]; [destruct keys; discriminate|].
  destruct (m !! k) as [v|] eqn:Hk; [|destruct keys; discriminate].
  destruct (decide (k' = k)) as [->|Hne].
  - destruct keys as [|k2 keys].
    + exfalso. apply Hp1. apply prefix_cons, prefix_nil.
    + destruct (Yaml.update_key_loop (k2 :: keys) v new_value) as [[v'|]|] eqn:Hu';
        cbn [bind] in Hu; try discriminate.
      injection Hu as <-. rewrite lookup_insert_eq, Hk.
      apply (IH v v' keys' Hu').
      * intros Hp. apply Hp1. now apply prefix_cons.
      * intros Hp. apply Hp2. now apply prefix_cons.
  - assert (Hm : exists v', current' = Yaml.Mapping (<[k := v']> m)).
    { destruct keys as [|k2 keys].
      - injection Hu as <-. eauto.
      - destruct (Yaml.update_key_loop (k2 :: keys) v new_value) as [[v'|]|];
          cbn [bind] in Hu; try discriminate.
        injection Hu as <-. eauto. }
    destruct Hm as [v' ->]. now rewrite lookup_insert_ne.
Qed.

(** X12. [update_key] followed by [load_key] is a round trip, and
    [update_key] never creates a key: it writes the file and returns [True]
    exactly when [load_key] finds the key, and [load_key] then returns the
    new value; in every other case the file content is unchanged. *)
Theorem update_key_load_key (data : Yaml.yaml) (key : string) (new_value : Yaml.yaml) :
  ((exists old, Yaml.load_key data key = Ok old) <->
   (exists data', Yaml.update_key data key new_value = Ok (true, data'))) /\
  (forall data',
     Yaml.update_key data key new_value = Ok (true, data') ->
     Yaml.load_key data' key = Ok new_value) /\
  (forall data',
     Yaml.update_key data key new_value = Ok (false, data') -> data' = data).
Proof.
  unfold Yaml.update_key, Yaml.load_key. split; [split|split].
  - intros [old Hold].
    destruct (update_key_loop_total _ new_value (split_dot_nonempty key) data old Hold)
      as [data' ->].
    cbn [bind]. eauto.
  - intros [data' Hu].
    destruct (Yaml.update_key_loop _ _ _) as [[d|]|] eqn:Hl; cbn [bind] in Hu;
      try discriminate.
    exact (proj2 (update_key_loop_found _ _ _ _ Hl)).
  - intros data' Hu.
    destruct (Yaml.update_key_loop _ _ _) as [[d|]|] eqn:Hl; cbn [bind] in Hu;
      try discriminate.
    injection Hu as <-. exact (proj1 (update_key_loop_found _ _ _ _ Hl)).
  - intros data' Hu.
    destruct (Yaml.update_key_loop _ _ _) as [[d|]|]; cbn [bind] in Hu;
      try discriminate.
    now injection Hu as <-.
Qed.

(** X13. A successful [update_key] changes nothing that [load_key] returns
    for any other key, provided neither dotted path is a prefix of the
    other. *)
Theorem update_key_other_keys (data data' : Yaml.yaml) (key key' : string)
    (new_value : Yaml.yaml)
    (Hrun : Yaml.update_key data key new_value = Ok (true, data'))
    (Hnot_above : ~ Yaml.split_dot key `prefix_of` Yaml.split_dot key')
    (Hnot_below : ~ Yaml.split_dot key' `prefix_of` Yaml.split_dot key) :
  Yaml.load_key data' key' = Yaml.load_key data key'.
Proof.
  unfold Yaml.update_key in Hrun. unfold Yaml.load_key.
  destruct (Yaml.update_key_loop _ _ _) as [[d|]|] eqn:Hl; cbn [bind] in Hrun;
    try discriminate.
  injection Hrun as <-. eapply update_key_loop_other; eassumption.
Qed.

Lemma update_key_other_keys_witness :
  exists data',
    Yaml.update_key config_example_yaml "speed_factor.accept" (Yaml.Scalar "1.4")
    = Ok (true, data') /\
    Yaml.load_key data' "tolerance" = Ok (Yaml.Scalar "1.5").
Proof.
  destruct (Yaml.update_key config_example_yaml "speed_factor.accept"
              (Yaml.Scalar "1.4")) as [[[|] data']|e] eqn:Hrun.
  - exists data'. split; [reflexivity|].
    rewrite (update_key_other_keys config_example_yaml data' "speed_factor.accept"
               "tolerance" (Yaml.Scalar "1.4") Hrun).
    + reflexivity.
    + intros [k Hk]. discriminate Hk.
    + intros [k Hk]. discriminate Hk.
  - exfalso. vm_compute in Hrun. discriminate.
  - exfalso. vm_compute in Hrun. discriminate.
Defined.

(** ** The retry decorator *)

Section ExceptHandlerFacts.

Context {A : Type}.
Variable func : nat -> result A.

Lemma except_handler_loop_spec (delay : Q) (default_return : option A)
    (remaining : nat) :
  forall (i : nat) (slept : Q),
    (forall j a, (j <= remaining)%nat ->
       (forall j', (j' < j)%nat -> exists e, func (i + j')%nat = Raise e) ->
       func (i + j)%nat = Ok a ->
       exists s,
         except_handler_loop func delay default_return remaining i slept = (Ok a, s) /\
         s == slept + delay * inject_Z (2 ^ Z.of_nat i) * (inject_Z (2 ^ Z.of_nat j) - 1)) /\
    ((forall j, (j <= remaining)%nat -> exists e, func (i + j)%nat = Raise e) ->
     forall e, func (i + remaining)%nat = Raise e ->
       exists s,
         except_handler_loop func delay default_return remaining i slept
         = (match default_return with Some d => Ok d | None => Raise e end, s) /\
         s == slept + delay * inject_Z (2 ^ Z.of_nat i)
                      * (inject_Z (2 ^ Z.of_nat remaining) - 1)).
Proof.
  induction remaining as [|remaining IH]; intros i slept.
  - split.
    + intros j a Hj _ Ha. assert (j = 0%nat) by lia. subst j.
      rewrite Nat.add_0_r in Ha. cbn [except_handler_loop]. rewrite Ha.
      exists slept. split; [reflexivity|].
      change (inject_Z (2 ^ Z.of_nat 0)) with 1. ring.
    + intros _ e He. rewrite Nat.add_0_r in He. cbn [except_handler_loop]. rewrite He.
      exists slept. split; [destruct default_return; reflexivity|].
      change (inject_Z (2 ^ Z.of_nat 0)) with 1. ring.
  - assert (Hpow : forall n : nat,
              inject_Z (2 ^ Z.of_nat (S n)) == 2 * inject_Z (2 ^ Z.of_nat n)).
    { intros n. rewrite Nat2Z.inj_succ, Z.pow_succ_r by lia.
      rewrite inject_Z_mult. reflexivity. }
    destruct (IH (S i) (slept + delay * inject_Z (2 ^ Z.of_nat i))) as [IH1 IH2].
    split.
    + intros j a Hj Hfail Ha. cbn [except_handler_loop].
      destruct j as [|j].
      * rewrite Nat.add_0_r in Ha. rewrite Ha.
        exists slept. split; [reflexivity|].
      change (inject_Z (2 ^ Z.of_nat 0)) with 1. ring.
      * destruct (Hfail 0%nat) as [e He]; [lia|]. rewrite Nat.add_0_r in He. rewrite He.
        destruct (IH1 j a) as (s & Hs & Hsum); [lia| | |].
        { intros j' Hj'. destruct (Hfail (S j')) as [e' He']; [lia|].
          exists e'. now replace (S i + j')%nat with (i + S j')%nat by lia. }
        { now replace (S i + j)%nat with (i + S j)%nat by lia. }
        exists s. split; [exact Hs|]. rewrite Hsum, !Hpow. ring.
    + intros Hfail e He. cbn [except_handler_loop].
      destruct (Hfail 0%nat) as [e0 He0]; [lia|]. rewrite Nat.add_0_r in He0.
      rewrite He0.
      destruct (IH2) with (e := e) as (s & Hs & Hsum); [| |].
      { intros j Hj. destruct (Hfail (S j)) as [e' He']; [lia|].
        exists e'. now replace (S i + j)%nat with (i + S j)%nat by lia. }
      { now replace (S i + remaining)%nat with (i + S remaining)%nat by lia. }
      exists s. split; [exact Hs|]. rewrite Hsum, !Hpow. ring.
Qed.

(** X14. The wrapper of [except_handler] calls the function until it first
    succeeds, at most [retry + 1] times.  If attempt [j] is the first to
    succeed, the wrapper returns that result after sleeping
    [delay * (2^j - 1)] seconds in all.  If all [retry + 1] attempts raise,
    it has slept [delay * (2^retry - 1)] seconds and returns the default
    when one is given, and otherwise raises the exception of the last
    attempt. *)
Theorem except_handler_retries (retry : nat) (delay : Q) (default_return : option A) :
  (forall j a, (j <= retry)%nat ->
     (forall j', (j' < j)%nat -> exists e, func j' = Raise e) ->
     func j = Ok a ->
     exists slept,
       except_handler func retry delay default_return = (Ok a, slept) /\
       slept == delay * (inject_Z (2 ^ Z.of_nat j) - 1)) /\
  ((forall j, (j <= retry)%nat -> exists e, func j = Raise e) ->
   forall e, func retry = Raise e ->
     exists slept,
       except_handler func retry delay default_return
       = (match default_return with Some d => Ok d | None => Raise e end, slept) /\
       slept == delay * (inject_Z (2 ^ Z.of_nat retry) - 1)).
Proof.
  unfold except_handler.
  destruct (except_handler_loop_spec delay default_return retry 0 0) as [H1 H2].
  split.
  - intros j a Hj Hfail Ha.
    destruct (H1 j a Hj Hfail Ha) as (s & Hs & Hsum).
    exists s. split; [exact Hs|]. rewrite Hsum.
    change (inject_Z (2 ^ Z.of_nat 0)) with 1. ring.
  - intros Hfail e He.
    destruct (H2 Hfail e He) as (s & Hs & Hsum).
    exists s. split; [exact Hs|]. rewrite Hsum.
    change (inject_Z (2 ^ Z.of_nat 0)) with 1. ring.
Qed.

End ExceptHandlerFacts.

(** ** Splitting the audio *)

Lemma chain_snoc (from : Q) (segments : list (Q * Q)) (mid to : Q) :
  chain from segments mid -> chain from (segments ++ [(mid, to)]) to.
Proof.
  revert from. induction segments as [|seg segments IH]; intros from; cbn.
  - intros ->. split; reflexivity.
  - intros [H1 H2]. split; [assumption|now apply IH].
Qed.

Lemma py_int_lt_succ (x : Q) : x < inject_Z (Py.int x) + 1.
Proof.
  destruct (Qlt_le_dec x 0) as [Hneg|Hpos]; [|now apply py_int_nonneg].
  assert (Hz : (0 <= - Py.int x)%Z).
  { unfold Py.int. destruct x as [n d]. cbn [Qnum Qden].
    assert (Hn : (n < 0)%Z).
    { unfold Qlt in Hneg. cbn in Hneg. lia. }
    rewrite <- Z.quot_opp_l by lia. apply Z.quot_pos; lia. }
  assert (Hq : Py.int x = (- Py.int (- x))%Z).
  { unfold Py.int. destruct x as [n d]. cbn [Qopp Qnum Qden].
    rewrite Z.quot_opp_l by lia. lia. }
  destruct (py_int_nonneg (- x)) as [H1 H2]; [lra|].
  rewrite Hq, inject_Z_opp. lra.
Qed.

Section SplitAudioFacts.

Variable detect_silence : Z -> Z -> list (Z * Z).
Variables duration target_len win : Q.
Hypothesis Htarget : 0 < target_len.
Hypothesis Hwin : 0 <= win.

Let good (seg : Q * Q) : Prop :=
  fst seg < snd seg /\ snd seg - fst seg <= target_len + win.

Lemma split_audio_loop_spec (fuel : nat) :
  forall (pos : Q) (segments : list (Q * Q)),
    duration - pos <= inject_Z (Z.of_nat fuel) * target_len ->
    chain 0 segments pos ->
    Forall good segments ->
    exists rest last_end,
      split_audio_loop detect_silence fuel duration target_len win pos segments
      = Ok (segments ++ rest) /\
      chain 0 (segments ++ rest) last_end /\ Forall good (segments ++ rest) /\
      duration <= last_end /\
      (pos < duration -> rest <> []) /\
      ((forall ws we r, r ∈ detect_silence ws we ->
          (inject_Z ws + inject_Z (snd r)) / 1000 <= duration) ->
       pos < duration -> last_end = duration).
Proof.
  induction fuel as [|fuel IH]; intros pos segments Hfuel Hchain Hgood;
    cbn [split_audio_loop]; destruct (Py.ltb pos duration) eqn:Hpos; py_compare.
  - exfalso. change (inject_Z (Z.of_nat 0)) with 0 in Hfuel. lra.
  - exists [], pos. rewrite app_nil_r. split; [reflexivity|]. split; [assumption|].
    split; [assumption|]. split; [assumption|]. split; intros; lra.
  - destruct (Py.leb (duration - pos) target_len) eqn:Hrest; py_compare.
    + exists [(pos, duration)], duration.
      split; [reflexivity|]. split; [now apply chain_snoc|].
      split.
      { apply Forall_app. split; [assumption|]. constructor; [|constructor].
        unfold good. cbn [fst snd]. lra. }
      split; [lra|]. split; [discriminate|reflexivity].
    + cbv zeta.
      set (threshold := pos + target_len).
      set (regions := (fun r : Z * Z => _) <$> detect_silence _ _).
      remember (List.filter _ regions) as valid eqn:Hvd.
      set (split_at := match valid with (start, _) :: _ => start + safe_margin
                                      | [] => threshold end).
      assert (Hvalid : forall r, r ∈ valid ->
                r ∈ regions /\ safe_margin * 2 <= snd r - fst r /\
                threshold <= fst r + safe_margin /\
                fst r + safe_margin <= threshold + win).
      { intros r Hr. rewrite Hvd in Hr. apply list_elem_of_In, filter_In in Hr.
        destruct Hr as [Hin Hc]. apply andb_true_iff in Hc as [Hc H3].
        apply andb_true_iff in Hc as [H1 H2]. unfold Py.geb in H1. py_compare.
        split; [now apply list_elem_of_In|auto]. }
      clear Hvd.
      assert (Hsplit : threshold <= split_at /\ split_at <= threshold + win).
      { unfold split_at. destruct valid as [|[start e] valid']; [lra|].
        destruct (Hvalid (start, e)) as (_ & _ & H2 & H3); [left|].
        cbn [fst] in H2, H3. lra. }
      destruct (IH split_at (segments ++ [(pos, split_at)])) as
        (rest & last_end & Hrun & Hchain' & Hgood' & Hend & _ & Hexact).
      { assert (He : inject_Z (Z.of_nat (S fuel))
                     == inject_Z (Z.of_nat fuel) + 1).
        { rewrite Nat2Z.inj_succ. unfold Z.succ. rewrite inject_Z_plus. reflexivity. }
        rewrite He in Hfuel. unfold threshold in Hsplit. lra. }
      { now apply chain_snoc. }
      { apply Forall_app. split; [assumption|]. constructor; [|constructor].
        unfold good. cbn [fst snd]. unfold threshold in Hsplit. lra. }
      rewrite <- app_assoc in Hrun, Hchain', Hgood'.
      exists ([(pos, split_at)] ++ rest), last_end. split; [exact Hrun|].
      split; [exact Hchain'|]. split; [exact Hgood'|]. split; [exact Hend|].
      split; [discriminate|].
      intros Hclip _. apply Hexact; [exact Hclip|].
      unfold split_at. destruct valid as [|[start e] valid'].
      * unfold threshold. lra.
      * destruct (Hvalid (start, e)) as (Hin & H1 & _ & _); [left|].
        cbn [fst snd] in H1. unfold regions in Hin.
        apply list_elem_of_fmap in Hin as (r & Hr & Hin).
        injection Hr as Hs He.
        specialize (Hclip _ _ _ Hin).
        pose proof (py_int_lt_succ ((threshold - win) * 1000)) as Hint.
        assert (Hdiv : (inject_Z (Py.int ((threshold - win) * 1000))
                        + inject_Z (snd r)) / 1000
                       == inject_Z (Py.int ((threshold - win) * 1000)) * (1 # 1000)
                          + inject_Z (snd r) / 1000) by field.
        rewrite Hdiv in Hclip. unfold safe_margin in *.
        assert (Hs' : start == inject_Z (fst r) / 1000 + (threshold - win))
          by now rewrite Hs.
        assert (He' : e == inject_Z (snd r) / 1000 + (threshold - win))
          by now rewrite He.
        lra.
  - exists [], pos. rewrite app_nil_r. split; [reflexivity|]. split; [assumption|].
    split; [assumption|]. split; [assumption|]. split; intros; lra.
Qed.

End SplitAudioFacts.

(** X15. With a positive target length and a non-negative window,
    [split_audio] returns (its loop terminates), and the segments follow one
    another without gap or overlap from 0; each has a positive length of at
    most [target_len + win] when the audio has a positive duration; the
    last segment ends at or after [duration], and exactly at [duration]
    when every silent stretch that pydub reports ends inside the audio. *)
Theorem split_audio_partition (detect_silence : Z -> Z -> list (Z * Z))
    (duration target_len win : Q)
    (Hduration : 0 < duration) (Htarget : 0 < target_len) (Hwin : 0 <= win) :
  exists segments last_end,
    split_audio detect_silence duration target_len win = Ok segments /\
    segments <> [] /\
    chain 0 segments last_end /\ duration <= last_end /\
    Forall (fun seg => fst seg < snd seg /\ snd seg - fst seg <= target_len + win)
           segments /\
    ((forall ws we r, r ∈ detect_silence ws we ->
        (inject_Z ws + inject_Z (snd r)) / 1000 <= duration) ->
     last_end = duration).
Proof.
  unfold split_audio.
  destruct (Py.leb duration (target_len + win)) eqn:Hshort; py_compare.
  - exists [(0, duration)], duration. split; [reflexivity|]. split; [discriminate|].
    split; [cbn; auto|]. split; [lra|]. split; [|reflexivity].
    constructor; [cbn [fst snd]; lra|constructor].
  - destruct (split_audio_loop_spec detect_silence duration target_len win Htarget Hwin
                (Z.to_nat (Qceiling (duration / target_len))) 0 [])
      as (segments & last_end & Hrun & Hchain & Hgood & Hend & Hne & Hexact).
    { assert (H0 : 0 <= duration / target_len) by (apply Qle_shift_div_l; lra).
      pose proof (Qle_ceiling (duration / target_len)) as Hc.
      assert (Hz : (0 <= Qceiling (duration / target_len))%Z).
      { rewrite Zle_Qle. change (inject_Z 0) with 0. lra. }
      rewrite Z2Nat.id by exact Hz.
      assert (Hm : duration / target_len * target_len
                   <= inject_Z (Qceiling (duration / target_len)) * target_len).
      { apply Qmult_le_compat_r; lra. }
      assert (He : duration / target_len * target_len == duration) by (field; lra).
      lra. }
    { reflexivity. }
    { constructor. }
    cbn [app] in Hrun, Hchain, Hgood.
    exists segments, last_end. split; [exact Hrun|]. split; [now apply Hne|].
    split; [exact Hchain|]. split; [exact Hend|]. split; [exact Hgood|].
    intros Hclip. now apply Hexact.
Qed.

Lemma split_audio_partition_witness :
  exists segments last_end,
    split_audio (fun _ _ => [(58000, 61000)%Z]) 4000 1800 60 = Ok segments /\
    chain 0 segments last_end /\ 4000 <= last_end.
Proof.
  destruct (split_audio_partition (fun _ _ => [(58000, 61000)%Z]) 4000 1800 60)
    as (segments & last_end & Hrun & _ & Hchain & Hend & _);
    [reflexivity|reflexivity|discriminate|].
  exists segments, last_end. split; [exact Hrun|]. split; [exact Hchain|exact Hend].
Defined.

(** ** Rendering a chunk with a missing clip *)

Section MissingClip.

Variable atempo : Audio.path -> Q -> nat -> option Q.
Variable cfg : config.
Variables (number line_index : Z).

(** ffmpeg cannot read the clip: every attempt on it fails. *)
Hypothesis Hffmpeg :
  forall speed_factor attempt,
    atempo (Audio.TEMP_FILE number line_index) speed_factor attempt = None.

Lemma adjust_audio_speed_missing (fs : Audio.files) (output_file : Audio.path)
    (speed_factor : Q) :
  fs (Audio.TEMP_FILE number line_index) = None ->
  exists e,
    Audio.adjust_audio_speed atempo fs (Audio.TEMP_FILE number line_index)
                             output_file speed_factor = Raise e.
Proof.
  intros Hmissing. unfold Audio.adjust_audio_speed.
  destruct (Py.ltb _ _).
  - rewrite Hmissing. eauto.
  - change Audio.max_retries with 2%nat. cbn [Audio.attempts].
    rewrite !Hffmpeg. cbn. eauto.
Qed.

Lemma render_clips_missing (speed_factor : Q) (lines : list string) :
  forall (first : Z) (fs : Audio.files) (cur_time : Q) (acc : list (Q * Q)),
    fs (Audio.TEMP_FILE number line_index) = None ->
    (first <= line_index < first + Z.of_nat (length lines))%Z ->
    exists e,
      Audio.render_clips atempo number speed_factor first lines fs cur_time acc
      = Raise e.
Proof.
  induction lines as [|l lines IH]; intros first fs cur_time acc Hmissing Hrange;
    cbn [Audio.render_clips].
  - cbn [length] in Hrange. lia.
  - destruct (Z.eq_dec first line_index) as [->|Hne].
    + destruct (adjust_audio_speed_missing fs (Audio.OUTPUT_FILE number line_index)
                  speed_factor Hmissing) as [e ->].
      cbn [bind]. eauto.
    + destruct (Audio.adjust_audio_speed _ _ _ _ _) as [fs1|e] eqn:Hadj;
        cbn [bind]; [|eauto].
      apply IH.
      * destruct (adjust_audio_speed_outputs atempo _ _ _ _ _ _ Hadj) as [Htemp _].
        now rewrite Htemp.
      * cbn [length] in Hrange. lia.
Qed.

Lemma render_rows_missing (chunk_df : list Audio.task) (speed_factor : Q)
    (keep_gaps : bool) (rows : list Audio.task) :
  forall (i : nat) (st : Audio.state) (cur : Q) (row : Audio.task),
    row ∈ rows -> Audio.number row = number ->
    (0 <= line_index < Z.of_nat (length (Audio.lines row)))%Z ->
    snd st (Audio.TEMP_FILE number line_index) = None ->
    exists e,
      Audio.render_rows atempo chunk_df speed_factor keep_gaps i rows st cur = Raise e.
Proof.
  induction rows as [|r rows IH]; intros i st cur row Hin Hnum Hrange Hmissing.
  - apply elem_of_nil in Hin. contradiction.
  - cbn [Audio.render_rows].
    destruct (if negb (i =? 0)%nat && keep_gaps then _ else _) as [cur1|e];
      cbn [bind]; [|eauto].
    apply elem_of_cons in Hin as [<-|Hin].
    + rewrite Hnum.
      destruct (render_clips_missing speed_factor (Audio.lines row) 0 (snd st) cur1 []
                  Hmissing) as [e ->]; [lia|].
      cbn [bind]. eauto.
    + destruct (Audio.render_clips _ _ _ _ _ _ _ _) as [[[fs1 cur2] times]|e] eqn:Hclips;
        cbn [bind]; [|eauto].
      destruct (Audio.find_number _ _) as [idx|e]; cbn [bind]; [|eauto].
      apply (IH (S i) _ cur2 row Hin Hnum Hrange). cbn [snd].
      destruct (render_clips_outputs atempo _ _ _ _ _ _ _ _ _ _ Hclips) as [Htemp _].
      now rewrite Htemp.
Qed.

End MissingClip.

(** X16. A chunk with a clip that was never synthesized cannot be rendered:
    if the temp file of one line of one row of the chunk is missing and
    ffmpeg fails on that file, [render_chunk] raises, whatever the other
    clips and the speed factor are. *)
Theorem render_chunk_missing_clip
    (atempo : Audio.path -> Q -> nat -> option Q) (cfg : config)
    (chunk_df : list Audio.task) (st : Audio.state)
    (row : Audio.task) (line_index : Z)
    (Hrow : row ∈ chunk_df)
    (Hline : (0 <= line_index < Z.of_nat (length (Audio.lines row)))%Z)
    (Hmissing : snd st (Audio.TEMP_FILE (Audio.number row) line_index) = None)
    (Hffmpeg : forall speed_factor attempt,
        atempo (Audio.TEMP_FILE (Audio.number row) line_index) speed_factor attempt
        = None) :
  exists e, Audio.render_chunk atempo cfg chunk_df st = Raise e.
Proof.
  unfold Audio.render_chunk.
  destruct (Audio.process_chunk _ _ _) as [[speed_factor keep_gaps]|e];
    cbn [bind]; [|eauto].
  destruct (head chunk_df) as [first_row|]; [|eauto].
  destruct (last chunk_df) as [last_row|]; [|eauto].
  destruct (render_rows_missing atempo (Audio.number row) line_index Hffmpeg chunk_df
              speed_factor keep_gaps chunk_df 0 st
              (Audio.parse_df_srt_time (Audio.start_time_str first_row))
              row Hrow eq_refl Hline Hmissing) as [e ->].
  cbn [bind]. eauto.
Qed.

Lemma render_chunk_missing_clip_witness :
  exists e,
    Audio.render_chunk (fun _ _ _ => None) example_config render_example_frame
      (render_example_frame, fun _ => None) = Raise e.
Proof.
  apply (render_chunk_missing_clip (fun _ _ _ => None) example_config
           render_example_frame (render_example_frame, fun _ => None)
           (Audio.Task 1 (Audio.SrtTime 0 0 0 0) (Audio.SrtTime 0 0 25 0)
                       0 0 25 0 [EmptyString] 30 None) 0).
  - left.
  - cbn. lia.
  - reflexivity.
  - reflexivity.
Defined.

(** ** What [tts_main] leaves behind *)

Section TtsMainFacts.

Variable clean_text_for_tts : string -> string.
Variable cleaned_text_len : string -> nat.
Variable TTS_METHOD : result unit.
Variable backend : string -> Audio.path -> nat -> Audio.files -> Audio.files * option exn.
Variable correct_text : string -> result (option string).

Lemma tts_attempts_spec (save_as : Audio.path) (n : nat) :
  forall (attempt : nat) (text : string) (fs : Audio.files),
    (attempt + n = Tts.max_retries)%nat -> (1 <= n)%nat ->
    (forall fs',
       Tts.attempts backend correct_text n attempt text save_as fs = Ok fs' ->
       exists d, fs' save_as = Some d /\ 5 # 100 < d) /\
    (forall e,
       Tts.attempts backend correct_text n attempt text save_as fs = Raise e ->
       e = SynthesisError).
Proof.
  unfold Tts.max_retries.
  induction n as [|n IH]; intros attempt text fs Hsum Hn; [lia|].
  cbn [Tts.attempts]. change (Tts.max_retries - 1)%nat with 2%nat.
  destruct (Nat.eqb_spec attempt 2) as [Hlast|Hnot].
  - (* the last attempt *)
    destruct (correct_text text) as [corrected|]; [|split; [discriminate|now intros ? [= <-]]].
    destruct (backend _ save_as attempt fs) as [fs1 [x|]];
      [split; [discriminate|now intros ? [= <-]]|].
    destruct (fs1 save_as) as [d|] eqn:Hd; [|split; [discriminate|now intros ? [= <-]]].
    unfold Audio.get_audio_duration. rewrite Hd.
    destruct (Py.gtb d (5 # 100)) eqn:Hlong; py_compare.
    + split; [|discriminate]. intros fs' [= <-]. eauto.
    + split; [|discriminate]. intros fs' [= <-]. exists Tts.silence.
      unfold Audio.write. destruct (decide _); [|contradiction].
      split; reflexivity.
  - (* an earlier attempt *)
    assert (Hnext : forall text1 fs1,
              (forall fs',
                 Tts.attempts backend correct_text n (S attempt) text1 save_as fs1
                 = Ok fs' -> exists d, fs' save_as = Some d /\ 5 # 100 < d) /\
              (forall e,
                 Tts.attempts backend correct_text n (S attempt) text1 save_as fs1
                 = Raise e -> e = SynthesisError)).
    { intros text1 fs1. apply IH; lia. }
    destruct (backend text save_as attempt fs) as [fs1 [x|]]; [apply Hnext|].
    destruct (fs1 save_as) as [d|] eqn:Hd; [|apply Hnext].
    unfold Audio.get_audio_duration. rewrite Hd.
    destruct (Py.gtb d (5 # 100)) eqn:Hlong; py_compare; [|apply Hnext].
    split; [|discriminate]. intros fs' [= <-]. eauto.
Qed.

(** X17. When [tts_main] returns, the clip is there: [save_as] exists
    afterwards.  If the text was too short to speak, or the clip did not
    exist before, the clip left behind lasts more than 50 ms (a synthesized
    clip, or 100 ms of silence); if the text can be spoken and the clip
    already existed, nothing is changed.  The only exceptions that leave
    [tts_main] are the one of [load_key("tts_method")] and the final
    [Exception] after the third failed attempt. *)
Theorem tts_main_leaves_a_clip (text : string) (save_as : Audio.path)
    (fs : Audio.files) :
  let run := Tts.tts_main clean_text_for_tts cleaned_text_len TTS_METHOD backend
                          correct_text text save_as fs in
  (forall fs',
     run = Ok fs' ->
     (exists d, fs' save_as = Some d) /\
     ((cleaned_text_len (clean_text_for_tts text) <= 1)%nat \/ fs save_as = None ->
      5 # 100 < Audio.get_audio_duration fs' save_as) /\
     ((1 < cleaned_text_len (clean_text_for_tts text))%nat -> fs save_as <> None ->
      fs' = fs)) /\
  (forall e, run = Raise e -> e = SynthesisError \/ TTS_METHOD = Raise e).
Proof.
  cbv zeta. unfold Tts.tts_main.
  destruct (Nat.leb_spec (cleaned_text_len (clean_text_for_tts text)) 1) as [Hshort|Hlong].
  - split; [|discriminate]. intros fs' [= <-].
    assert (Hw : Audio.write save_as Tts.silence fs save_as = Some Tts.silence).
    { unfold Audio.write. destruct (decide _); [reflexivity|contradiction]. }
    split; [eauto|]. split; [|lia].
    intros _. unfold Audio.get_audio_duration. rewrite Hw. reflexivity.
  - destruct (fs save_as) as [d0|] eqn:Hexists.
    + split; [|discriminate]. intros fs' [= <-].
      split; [eauto|]. split; [intros [H|H]; [lia|discriminate]|reflexivity].
    + destruct TTS_METHOD as [[]|e0]; cbn [bind].
      * destruct (tts_attempts_spec save_as Tts.max_retries 0
                    (clean_text_for_tts text) fs eq_refl) as [Hok Hraise].
        { unfold Tts.max_retries. lia. }
        split.
        -- intros fs' Hrun. destruct (Hok fs' Hrun) as (d & Hd & Hlen).
           split; [eauto|]. split; [|intros _ H; now contradiction H].
           intros _. unfold Audio.get_audio_duration. now rewrite Hd.
        -- intros e Hrun. left. now apply Hraise.
      * split; [discriminate|]. intros e [= <-]. now right.
Qed.

End TtsMainFacts.

Lemma tts_main_leaves_a_clip_witness :
  exists fs',
    Tts.tts_main (fun text => text) String.length (Ok tt)
      (fun _ save_as _ fs => (Audio.write save_as 2 fs, None)) (fun _ => Ok None)
      "hello" (Audio.TEMP_FILE 1 0) (fun _ => None) = Ok fs' /\
    5 # 100 < Audio.get_audio_duration fs' (Audio.TEMP_FILE 1 0).
Proof.
  eexists. split; [reflexivity|].
  apply (proj1 (tts_main_leaves_a_clip (fun text => text) String.length (Ok tt)
                  (fun _ save_as _ fs => (Audio.write save_as 2 fs, None))
                  (fun _ => Ok None) "hello" (Audio.TEMP_FILE 1 0) (fun _ => None))
               _ eq_refl).
  now right.
Defined.

(** ** The text lines of the dubbing tasks *)

Lemma mapM_ok_fmap {A B : Type} (f : A -> result B) (g : A -> B) (l : list A) :
  (forall x, x ∈ l -> f x = Ok (g x)) -> mapM f l = Ok (g <$> l).
Proof.
  induction l as [|x l IH]; intros H; [reflexivity|].
  cbn [mapM fmap list_fmap]. rewrite (H x) by left. cbn [bind].
  rewrite IH by (intros y Hy; apply H; now right). reflexivity.
Qed.

Lemma mapM_imap_ok {A B C : Type} (h : nat -> A -> C) (f : C -> result B)
    (g : nat -> A -> B) (l : list A) :
  (forall i x, l !! i = Some x -> f (h i x) = Ok (g i x)) ->
  mapM f (imap h l) = Ok (imap g l).
Proof.
  revert h g. induction l as [|x l IH]; intros h g H; [reflexivity|].
  cbn [imap mapM]. rewrite (H 0%nat x eq_refl). cbn [bind].
  rewrite (IH (h ∘ S) (g ∘ S)); [reflexivity|].
  intros i y Hy. apply (H (S i)). exact Hy.
Qed.

Lemma mapM_fmap {A B C : Type} (f : B -> result C) (h : A -> B) (l : list A) :
  mapM f (h <$> l) = mapM (fun x => f (h x)) l.
Proof.
  induction l as [|x l IH]; [reflexivity|].
  cbn [fmap list_fmap mapM]. now rewrite IH.
Qed.

Lemma getitem_number (content_lines : list string) (r : line) :
  (1 <= number r <= Z.of_nat (length content_lines))%Z ->
  Dub.getitem content_lines (number r - 1) = Ok (line_of content_lines r).
Proof.
  intros Hr. unfold Dub.getitem, line_of. cbv zeta.
  destruct (Z.leb_spec 0 (number r - 1)) as [H0|H0]; [|lia].
  destruct (Z.leb_spec 0 (number r - 1)) as [_|H1]; [|lia].
  destruct (lookup_lt_is_Some_2 content_lines (Z.to_nat (number r - 1))) as [x ->];
    [lia|reflexivity].
Qed.

Lemma index_of_number_nodup (df : list line) (j : nat) (r : line) :
  NoDup (number <$> df) -> df !! j = Some r ->
  Dub.index_of_number (number r) df = Ok j.
Proof.
  intros Hnd Hj. unfold Dub.index_of_number.
  destruct (list_find (fun r0 => number r0 = number r) df) as [[i x]|] eqn:Hfind.
  - apply list_find_Some in Hfind as (Hi & Hx & _). f_equal.
    eapply NoDup_lookup; [exact Hnd| |].
    + rewrite list_lookup_fmap, Hi. reflexivity.
    + rewrite list_lookup_fmap, Hj. cbn. now rewrite Hx.
  - exfalso. apply list_find_None in Hfind.
    rewrite Forall_forall in Hfind. apply (Hfind r); [|reflexivity].
    eapply list_elem_of_lookup_2. exact Hj.
Qed.

Lemma next_cut_ge (rows : list line) (k : nat) :
  (k <= default (k + length rows)%nat (head (cut_positions k rows)))%nat.
Proof.
  revert k. induction rows as [|r rows IH]; intros k; cbn [cut_positions length].
  - cbn. lia.
  - destruct (is_cut_line r); [cbn; lia|].
    specialize (IH (S k)).
    replace (k + S (length rows))%nat with (S k + length rows)%nat by lia. lia.
Qed.

Lemma take_next_cut (rows : list line) (k : nat) :
  take (default (k + length rows)%nat (head (cut_positions k rows)) - k) rows
  = take_while (fun x => negb (is_cut_line x)) rows.
Proof.
  revert k. induction rows as [|r rows IH]; intros k; [now rewrite take_nil|].
  cbn [cut_positions take_while length].
  destruct (is_cut_line r); cbn [negb head default].
  - now rewrite Nat.sub_diag.
  - specialize (IH (S k)).
    replace (k + S (length rows))%nat with (S k + length rows)%nat by lia.
    pose proof (next_cut_ge rows (S k)) as Hge.
    replace (default (S k + length rows)%nat (head (cut_positions (S k) rows)) - k)%nat
      with (S (default (S k + length rows)%nat (head (cut_positions (S k) rows)) - S k))
      by lia.
    cbn [take]. now rewrite IH.
Qed.

Section MatchLines.

Variable df : list line.
Variables content_lines ori_content_lines : list string.
Hypothesis Hnodup : NoDup (number <$> df).

Lemma cut_groups_lookup (rows : list line) :
  forall (k i : nat) (r : line),
    drop k df = rows ->
    List.filter is_cut_line rows !! i = Some r ->
    exists p follow,
      cut_positions k rows !! i = Some p /\
      cut_groups rows !! i = Some (r, follow) /\
      take (default (k + length rows)%nat (cut_positions k rows !! S i) - p)
           (drop p df) = r :: follow.
Proof.
  induction rows as [|r0 rows IH]; intros k i r Hdrop Hi; [discriminate|].
  assert (Hdrop' : drop (S k) df = rows).
  { replace (S k) with (k + 1)%nat by lia. rewrite <- drop_drop, Hdrop. reflexivity. }
  cbn [List.filter cut_positions cut_groups length] in *.
  replace (k + S (length rows))%nat with (S k + length rows)%nat by lia.
  destruct (is_cut_line r0) eqn:Hcut.
  - destruct i as [|i].
    + injection Hi as <-. exists k, (take_while (fun x => negb (is_cut_line x)) rows).
      split; [reflexivity|]. split; [reflexivity|].
      rewrite Hdrop.
      assert (Hh : (k :: cut_positions (S k) rows) !! 1%nat
                   = head (cut_positions (S k) rows)) by now rewrite head_lookup.
      rewrite Hh.
      pose proof (take_next_cut rows (S k)) as Ht.
      pose proof (next_cut_ge rows (S k)) as Hge.
      replace (default (S k + length rows)%nat (head (cut_positions (S k) rows)) - k)%nat
        with (S (default (S k + length rows)%nat (head (cut_positions (S k) rows)) - S k))
        by lia.
      cbn [take]. now rewrite Ht.
    + cbn [lookup list_lookup] in *. now apply IH.
  - now apply IH.
Qed.

Lemma cut_groups_length (rows : list line) (k : nat) :
  length (cut_groups rows) = length (List.filter is_cut_line rows) /\
  length (cut_positions k rows) = length (List.filter is_cut_line rows).
Proof.
  revert k. induction rows as [|r rows IH]; intros k; [split; reflexivity|].
  cbn [cut_groups cut_positions List.filter]. destruct (IH (S k)) as [H1 H2].
  destruct (is_cut_line r); cbn [length]; split; congruence.
Qed.

Lemma original_indices_positions :
  mapM (fun r => Dub.index_of_number (number r) df) (List.filter is_cut_line df)
  = Ok (cut_positions 0 df).
Proof.
  assert (H : forall rows k, drop k df = rows ->
            mapM (fun r => Dub.index_of_number (number r) df)
                 (List.filter is_cut_line rows)
            = Ok (cut_positions k rows)).
  { induction rows as [|r rows IH]; intros k Hdrop; [reflexivity|].
    assert (Hdrop' : drop (S k) df = rows).
    { replace (S k) with (k + 1)%nat by lia. rewrite <- drop_drop, Hdrop. reflexivity. }
    assert (Hk : df !! k = Some r).
    { rewrite <- (Nat.add_0_r k), <- lookup_drop, Hdrop. reflexivity. }
    cbn [List.filter cut_positions]. destruct (is_cut_line r).
    - cbn [mapM]. rewrite (index_of_number_nodup df k r Hnodup Hk). cbn [bind].
      now rewrite (IH (S k) Hdrop').
    - now apply IH. }
  now apply H.
Qed.

Hypothesis Hcontent :
  forall r, r ∈ df -> (1 <= number r <= Z.of_nat (length content_lines))%Z.
Hypothesis Hori :
  forall r, r ∈ df -> (1 <= number r <= Z.of_nat (length ori_content_lines))%Z.

Lemma match_lines_groups :
  Dub.match_lines df content_lines ori_content_lines
  = Ok (task_of content_lines ori_content_lines <$> cut_groups df).
Proof.
  unfold Dub.match_lines. rewrite original_indices_positions. cbn [bind].
  rewrite (mapM_imap_ok pair _
             (fun i r => task_of content_lines ori_content_lines
                           (default (r, []) (cut_groups df !! i)))).
  - f_equal. apply list_eq. intros i.
    rewrite list_lookup_imap, list_lookup_fmap.
    destruct (List.filter is_cut_line df !! i) as [r|] eqn:Hr.
    + destruct (cut_groups_lookup df 0 i r eq_refl Hr) as (p & follow & _ & -> & _).
      reflexivity.
    + apply lookup_ge_None in Hr.
      rewrite <- (proj1 (cut_groups_length df 0)) in Hr.
      apply lookup_ge_None in Hr. now rewrite Hr.
  - intros i r Hr. cbn [fst snd].
    destruct (cut_groups_lookup df 0 i r eq_refl Hr) as (p & follow & Hp & Hg & Htake).
    rewrite Hp, Hg. cbn [default].
    replace (i + 1)%nat with (S i) by lia.
    assert (Hend : match cut_positions 0 df !! S i with
                   | Some next => next
                   | None => length df
                   end = default (0 + length df)%nat (cut_positions 0 df !! S i)).
    { destruct (cut_positions 0 df !! S i); reflexivity. }
    rewrite Hend, Htake.
    assert (Hin : forall x, x ∈ r :: follow -> x ∈ df).
    { intros x Hx. rewrite <- Htake in Hx.
      apply elem_of_take in Hx as (j & Hj & _). rewrite lookup_drop in Hj.
      eapply list_elem_of_lookup_2. exact Hj. }
    rewrite !mapM_fmap.
    rewrite (mapM_ok_fmap _ (line_of content_lines))
      by (intros x Hx; apply getitem_number, Hcontent, Hin, Hx).
    cbn [bind].
    rewrite (mapM_ok_fmap _ (line_of ori_content_lines))
      by (intros x Hx; apply getitem_number, Hori, Hin, Hx).
    reflexivity.
Qed.

End MatchLines.

Lemma analyze_numbers (estimate_duration : string -> Q) (whole_dur : Q)
    (cfg : config) (df : list line) :
  ~ cfg_accept cfg == 0 -> df <> [] ->
  exists dfa,
    analyze_subtitle_timing_and_speed estimate_duration whole_dur cfg df = Ok dfa /\
    number <$> dfa = number <$> df.
Proof.
  intros Hacc Hne. unfold analyze_subtitle_timing_and_speed, assign_last_gap.
  destruct (last (assign_gaps (set_gap 0 <$> df))) as [r|] eqn:Hlast.
  2:{ exfalso. apply last_None in Hlast. apply (f_equal length) in Hlast.
      unfold assign_gaps in Hlast. rewrite length_imap, length_fmap in Hlast.
      destruct df; [congruence|discriminate]. }
  cbn [bind].
  match goal with |- context [mapM (assign_flag cfg) ?l] =>
    destruct (mapM_assign_flag cfg l Hacc) as (dfa & -> & Hflag);
    assert (Hnum : Forall2 (fun r r' => number r' = number r) df l) end.
  { rewrite !Forall2_fmap_r. apply Forall2_alter_r; [|intros; assumption].
    unfold assign_gaps. apply Forall2_same_length_lookup_2.
    { now rewrite length_imap, length_fmap. }
    intros i x y Hx Hy. rewrite list_lookup_imap, !list_lookup_fmap, Hx in Hy.
    cbn in Hy. destruct (_ !! S i); injection Hy as <-; reflexivity. }
  exists dfa. split; [reflexivity|].
  clear -Hflag Hnum. revert dfa Hflag.
  induction Hnum as [|x y l k Hxy Hnum IH]; intros dfa Hflag; inversion Hflag; subst.
  - reflexivity.
  - cbn [fmap list_fmap]. f_equal; [|now apply IH].
    match goal with H : exists f, _ = set_if_too_fast f _ |- _ => destruct H as [f ->] end.
    exact Hxy.
Qed.

Lemma cut_groups_last (rows : list line) (l : line) :
  last rows = Some l -> is_cut_line l = true -> last (cut_groups rows) = Some (l, []).
Proof.
  induction rows as [|r rows IH]; intros Hlast Hl; [discriminate|].
  destruct rows as [|r' rows].
  - cbn in Hlast. injection Hlast as ->. cbn. now rewrite Hl.
  - change (last (r :: r' :: rows)) with (last (r' :: rows)) in Hlast.
    specialize (IH Hlast Hl). cbn [cut_groups] in *.
    destruct (is_cut_line r); [|exact IH].
    rewrite last_cons, IH. reflexivity.
Qed.

Lemma chunks_from_head (rows cur : list line) (c : list line) :
  head (fst (chunks_from is_cut_line cur rows)) = Some c ->
  exists l, c = cur ++ take_while (fun x => negb (is_cut_line x)) rows ++ [l].
Proof.
  revert cur. induction rows as [|r rows IH]; intros cur; cbn [chunks_from take_while].
  - discriminate.
  - destruct (is_cut_line r) eqn:Hr; cbn [negb].
    + destruct (chunks_from is_cut_line [] rows) as [cs rest]. cbn.
      intros [= <-]. now exists r.
    + intros H. destruct (IH _ H) as [l ->]. exists l.
      now rewrite <- app_assoc.
Qed.

Lemma chunks_groups (rows : list line) :
  forall (cur : list line),
    length (cut_groups rows) = length (fst (chunks_from is_cut_line cur rows)) /\
    forall k g,
      cut_groups rows !! k = Some g ->
      (exists c, fst (chunks_from is_cut_line cur rows) !! k = Some c /\
                 last c = Some (fst g)) /\
      (forall c', fst (chunks_from is_cut_line cur rows) !! S k = Some c' ->
         exists l, c' = snd g ++ [l]).
Proof.
  induction rows as [|r rows IH]; intros cur; cbn [cut_groups chunks_from].
  - split; [reflexivity|]. intros k g H. discriminate.
  - destruct (is_cut_line r) eqn:Hr.
    + destruct (IH []) as [Hlen Hk].
      pose proof (chunks_from_head rows []) as Hhead.
      destruct (chunks_from is_cut_line [] rows) as [cs rest]. cbn [fst] in *.
      split; [cbn [length]; congruence|].
      intros [|k] g Hg.
      * injection Hg as <-. cbn [fst snd]. split.
        -- exists (cur ++ [r]). split; [reflexivity|apply last_snoc].
        -- intros c' Hc'. apply (Hhead c'). rewrite head_lookup. exact Hc'.
      * apply (Hk k g Hg).
    + apply IH.
Qed.

(** X18. On a non-empty frame with distinct line numbers that index both
    subtitle files, [dub_chunks_main] returns one task per chunk of the
    plan.  Task [k] is the row that closes chunk [k] and carries that row's
    own columns; its ['lines'] are the text of that row followed by the
    text of the rows of chunk [k + 1] before its closing row.  So the last
    task has exactly one line, the first line of every task is its own
    row's, and the rows of the first chunk before its closing row appear in
    no task. *)
Theorem dub_chunks_main_groups
    (estimate_duration : string -> Q) (whole_dur : Q) (cfg : config)
    (df : list line) (content_lines ori_content_lines : list string)
    (Haccept : ~ cfg_accept cfg == 0)
    (Hnonempty : df <> [])
    (Hnodup : NoDup (number <$> df))
    (Hcontent : forall r, r ∈ df ->
        (1 <= number r <= Z.of_nat (length content_lines))%Z)
    (Hori : forall r, r ∈ df ->
        (1 <= number r <= Z.of_nat (length ori_content_lines))%Z) :
  exists dfa df',
    analyze_subtitle_timing_and_speed estimate_duration whole_dur cfg df = Ok dfa /\
    process_cutoffs cfg dfa = Ok df' /\
    Dub.dub_chunks_main estimate_duration whole_dur cfg df
                        content_lines ori_content_lines
    = Ok (task_of content_lines ori_content_lines <$> cut_groups df') /\
    length (cut_groups df') = length (chunks_of_lines df') /\
    (forall k g,
       cut_groups df' !! k = Some g ->
       (exists c, chunks_of_lines df' !! k = Some c /\ last c = Some (fst g)) /\
       (forall c', chunks_of_lines df' !! S k = Some c' ->
          exists l, c' = snd g ++ [l])) /\
    (exists l, last df' = Some l /\ last (cut_groups df') = Some (l, [])).
Proof.
  destruct (analyze_numbers estimate_duration whole_dur cfg df Haccept Hnonempty)
    as (dfa & Hana & Hnum).
  destruct (process_cutoffs_total cfg dfa Haccept) as (df' & Hcut & Hsame & _ & Hlast).
  assert (Hnum' : number <$> df' = number <$> df).
  { rewrite <- Hnum. clear -Hsame.
    induction Hsame as [|x y l k Hxy Hsame IH]; [reflexivity|].
    cbn [fmap list_fmap]. f_equal; [|exact IH].
    apply (f_equal number) in Hxy. exact Hxy. }
  assert (Hin : forall r, r ∈ df' -> exists r0, r0 ∈ df /\ number r0 = number r).
  { intros r Hr. apply list_elem_of_lookup_1 in Hr as [i Hi].
    assert (Hn : (number <$> df) !! i = Some (number r))
      by (rewrite <- Hnum', list_lookup_fmap, Hi; reflexivity).
    rewrite list_lookup_fmap in Hn.
    destruct (df !! i) as [r0|] eqn:Hr0; [|discriminate].
    exists r0. split; [eapply list_elem_of_lookup_2; exact Hr0|].
    now injection Hn. }
  exists dfa, df'. split; [exact Hana|]. split; [exact Hcut|]. split.
  - unfold Dub.dub_chunks_main. rewrite Hana. cbn [bind]. rewrite Hcut. cbn [bind].
    apply match_lines_groups.
    + now rewrite Hnum'.
    + intros r Hr. destruct (Hin r Hr) as (r0 & Hr0 & <-). now apply Hcontent.
    + intros r Hr. destruct (Hin r Hr) as (r0 & Hr0 & <-). now apply Hori.
  - destruct (chunks_groups df' []) as [Hlen Hk].
    split; [exact Hlen|]. split; [exact Hk|].
    assert (Hne : dfa <> []).
    { intros ->. destruct df; [contradiction|discriminate]. }
    destruct (Hlast Hne) as (l & Hl & Hc).
    exists l. split; [exact Hl|]. apply cut_groups_last; [exact Hl|].
    now apply Z.eqb_eq.
Qed.

Lemma dub_chunks_main_groups_witness :
  exists tasks,
    Dub.dub_chunks_main (fun _ => 21 # 10) 10 example_config planner_example_lines
      planner_example_content planner_example_ori_content = Ok tasks /\
    Dub.lines <$> tasks = [["uno"; "dos"]; ["tres"]]%string.
Proof.
  destruct (dub_chunks_main_groups (fun _ => 21 # 10) 10 example_config
              planner_example_lines planner_example_content planner_example_ori_content)
    as (dfa & df' & Hana & Hcut & Hrun & _).
  - discriminate.
  - discriminate.
  - cbn.
    repeat (apply NoDup_cons; split;
            [intros H;
             repeat (apply elem_of_cons in H; destruct H as [H|H]; [discriminate H|]);
             now apply elem_of_nil in H|]).
    apply NoDup_nil_2.
  - apply Forall_forall. repeat (constructor; [cbn; lia|]). constructor.
  - apply Forall_forall. repeat (constructor; [cbn; lia|]). constructor.
  - eexists. split; [exact Hrun|].
    vm_compute in Hana. injection Hana as <-.
    vm_compute in Hcut. injection Hcut as <-.
    vm_compute. reflexivity.
Defined.

(** ** From the renderer to the merger *)

Section RenderedRows.

Variable atempo : Audio.path -> Q -> nat -> option Q.
Variable cfg : config.
Variable df0 : list Audio.task.
Hypothesis Hnodup : NoDup (Audio.number <$> df0).
Hypothesis Hfresh : forall q r, df0 !! q = Some r -> Audio.new_sub_times r = None.

Lemma same_task_lines (r r' : Audio.task) :
  same_task r r' -> Audio.lines r' = Audio.lines r.
Proof. intros H. apply (f_equal Audio.lines) in H. exact H. Qed.

Lemma fix_overflow_rows (chunk_df : list Audio.task) (st st' : Audio.state)
    (cur_time chunk_end_time : Q) :
  Audio.fix_overflow chunk_df st cur_time chunk_end_time = Ok st' ->
  forall q r, fst st !! q = Some r ->
    exists r', fst st' !! q = Some r' /\ (timed r -> timed r') /\
               (Audio.new_sub_times r = None -> r' = r).
Proof.
  unfold Audio.fix_overflow.
  assert (Hid : forall q r, fst st !! q = Some r ->
            exists r', fst st !! q = Some r' /\ (timed r -> timed r') /\
                       (Audio.new_sub_times r = None -> r' = r)) by eauto.
  destruct (Py.gtb _ _); [|now intros [= <-]].
  destruct (Py.leb _ _); [|now intros [= <-]].
  destruct (last chunk_df) as [last_row|]; [|discriminate].
  destruct (snd st _) as [audio|]; [|discriminate].
  destruct (Audio.find_number _ _) as [idx|]; [|discriminate]. cbn [bind].
  destruct (fst st !! idx) as [main_row|] eqn:Hmain; [|discriminate].
  destruct (Audio.new_sub_times main_row) as [last_times|] eqn:Htimes; [|discriminate].
  unfold Audio.clamp_last_end.
  destruct (last last_times) as [[s e]|]; [|discriminate]. cbn [bind].
  intros [= <-] q r Hq. cbn [fst].
  destruct (decide (q = idx)) as [->|Hne].
  - rewrite list_lookup_alter_eq, Hq. cbn. eexists. split; [reflexivity|].
    assert (r = main_row) by congruence. subst r. split.
    + intros (ts & Hts & Hlen). rewrite Htimes in Hts. injection Hts as <-.
      eexists. split; [reflexivity|]. cbn. now rewrite length_insert.
    + rewrite Htimes. discriminate.
  - rewrite list_lookup_alter_ne by congruence. eauto.
Qed.

Lemma render_chunk_rows (st st' : Audio.state) (s n : nat) :
  Forall2 same_task df0 (fst st) ->
  (forall q, (s <= q)%nat -> fst st !! q = df0 !! q) ->
  (forall q r, (q < s)%nat -> fst st !! q = Some r -> timed r) ->
  (s + n <= length df0)%nat ->
  Audio.render_chunk atempo cfg (take n (drop s (fst st))) st = Ok st' ->
  Forall2 same_task df0 (fst st') /\
  (forall q, (s + n <= q)%nat -> fst st' !! q = df0 !! q) /\
  (forall q r, (q < s + n)%nat -> fst st' !! q = Some r -> timed r).
Proof.
  intros Hsame Hlater Hdone Hn Hrun.
  pose proof (proj1 (render_chunk_frame atempo cfg df0 _ st st' Hsame Hrun)) as Hsame'.
  split; [exact Hsame'|].
  pose proof (Forall2_length _ _ _ Hsame) as Hlen0.
  pose proof (Forall2_length _ _ _ Hsame') as Hlen'.
  set (chunk_df := take n (drop s (fst st))) in *.
  assert (Hlen : length chunk_df = n).
  { unfold chunk_df. rewrite length_take, length_drop. lia. }
  assert (Hchunk : forall j r, chunk_df !! j = Some r -> df0 !! (s + j)%nat = Some r).
  { intros j r Hj. unfold chunk_df in Hj. apply lookup_take_Some in Hj as [Hj _].
    rewrite lookup_drop in Hj. rewrite <- Hlater by lia. exact Hj. }
  unfold Audio.render_chunk in Hrun.
  destruct (Audio.process_chunk _ _ _) as [[speed_factor keep_gaps]|]; [|discriminate].
  cbn [bind] in Hrun. destruct (head chunk_df) as [first_row|]; [|discriminate].
  destruct (last chunk_df) as [last_row|]; [|discriminate].
  destruct (Audio.render_rows _ _ _ _ _ _ _ _) as [[st1 cur_time]|] eqn:Hrows;
    [|discriminate].
  cbn [bind] in Hrun.
  destruct (render_rows_spec atempo df0 s chunk_df speed_factor keep_gaps Hnodup Hchunk
              chunk_df [] st _ st1 cur_time eq_refl Hsame Hrows)
    as (Hsame1 & Hout & _ & tss & Hlen_tss & Hrec & _ & _ & Hlens & _).
  cbn [length] in Hout, Hrec. rewrite Nat.add_0_r in Hout, Hrec.
  pose proof (fix_overflow_rows _ _ _ _ _ Hrun) as Hfix.
  pose proof (Forall2_length _ _ _ Hsame1) as Hlen1.
  split.
  - intros q Hq. destruct (df0 !! q) as [r|] eqn:Hr.
    + assert (H1 : fst st1 !! q = Some r).
      { rewrite Hout by (right; lia). rewrite Hlater by lia. exact Hr. }
      destruct (Hfix q r H1) as (r' & -> & _ & Hnone).
      f_equal. apply Hnone. eapply Hfresh. exact Hr.
    + apply lookup_ge_None in Hr. apply lookup_ge_None. lia.
  - intros q r Hq Hr.
    destruct (lookup_lt_is_Some_2 (fst st1) q) as [r1 Hr1].
    { apply lookup_lt_Some in Hr. lia. }
    destruct (Hfix q r1 Hr1) as (r' & Hr' & Htimed & _).
    assert (r' = r) by congruence. subst r'. apply Htimed.
    destruct (Nat.lt_ge_cases q s) as [Hlow|Hin].
    + apply (Hdone q); [exact Hlow|]. rewrite <- Hout by (left; lia). exact Hr1.
    + destruct (lookup_lt_is_Some_2 tss (q - s)) as [ts Hts]; [lia|].
      destruct (lookup_lt_is_Some_2 chunk_df (q - s)) as [rc Hrc]; [lia|].
      destruct (Hrec _ _ Hts) as (r2 & Hr2 & Htimes).
      replace (s + (q - s))%nat with q in Hr2 by lia.
      assert (r2 = r1) by congruence. subst r2.
      exists ts. split; [exact Htimes|].
      rewrite (Hlens _ _ _ Hts Hrc).
      pose proof (Hchunk _ _ Hrc) as H0.
      replace (s + (q - s))%nat with q in H0 by lia.
      destruct (Forall2_lookup_l _ _ _ _ _ Hsame1 H0) as (r3 & Hr3 & Hrel).
      assert (r3 = r1) by congruence. subst r3.
      now rewrite (same_task_lines _ _ Hrel).
Qed.

Lemma merge_chunks_loop_rows (rows : list Audio.task) :
  forall (i s : nat) (st st' : Audio.state),
    drop i df0 = rows -> (s <= i <= length df0)%nat ->
    Forall2 same_task df0 (fst st) ->
    (forall q, (s <= q)%nat -> fst st !! q = df0 !! q) ->
    (forall q r, (q < s)%nat -> fst st !! q = Some r -> timed r) ->
    Audio.merge_chunks_loop atempo cfg (imap (fun j => pair (i + j)%nat) rows) s st
    = Ok st' ->
    exists s',
      (s <= s' <= length df0)%nat /\
      Forall2 same_task df0 (fst st') /\
      (forall q, (s' <= q)%nat -> fst st' !! q = df0 !! q) /\
      (forall q r, (q < s')%nat -> fst st' !! q = Some r -> timed r) /\
      (forall idx row, (i <= idx)%nat -> df0 !! idx = Some row ->
         Audio.cut_off row = 1%Z -> (idx < s')%nat).
Proof.
  induction rows as [|row rows IH]; intros i s st st' Hdrop Hs Hsame Hlater Hdone Hrun.
  - cbn in Hrun. injection Hrun as <-.
    assert (Hlen : (length df0 <= i)%nat).
    { apply (f_equal length) in Hdrop. rewrite length_drop in Hdrop. cbn in Hdrop. lia. }
    exists s. split; [lia|]. split; [exact Hsame|]. split; [exact Hlater|].
    split; [exact Hdone|].
    intros idx r Hidx Hr. apply lookup_lt_Some in Hr. lia.
  - assert (Hrow : df0 !! i = Some row).
    { rewrite <- (Nat.add_0_r i), <- lookup_drop, Hdrop. reflexivity. }
    assert (Hdrop' : drop (S i) df0 = rows).
    { replace (S i) with (i + 1)%nat by lia. rewrite <- drop_drop, Hdrop. reflexivity. }
    assert (Hidx : (i < length df0)%nat) by (eapply lookup_lt_Some; exact Hrow).
    cbn [imap Audio.merge_chunks_loop] in Hrun. rewrite Nat.add_0_r in Hrun.
    assert (Himap : imap ((fun j => pair (i + j)%nat) ∘ S) rows
                    = imap (fun j => pair (S i + j)%nat) rows).
    { apply imap_ext. intros j x _. cbn. f_equal. lia. }
    rewrite Himap in Hrun.
    destruct (Z.eqb_spec (Audio.cut_off row) 1) as [Hcut|Hcut].
    + destruct (Audio.render_chunk _ _ _ _) as [st1|] eqn:Hchunk; [|discriminate].
      cbn [bind] in Hrun.
      destruct (render_chunk_rows st st1 s (i + 1 - s) Hsame Hlater Hdone
                  ltac:(lia) Hchunk) as (Hsame1 & Hlater1 & Hdone1).
      replace (s + (i + 1 - s))%nat with (i + 1)%nat in Hlater1, Hdone1 by lia.
      destruct (IH (S i) (i + 1)%nat st1 st' Hdrop' ltac:(lia) Hsame1 Hlater1 Hdone1 Hrun)
        as (s' & Hs' & Hsame' & Hlater' & Hdone' & Hcuts).
      exists s'. split; [lia|]. split; [exact Hsame'|]. split; [exact Hlater'|].
      split; [exact Hdone'|].
      intros idx r Hge Hr Hc.
      destruct (decide (idx = i)) as [->|Hne]; [lia|].
      apply (Hcuts idx r); [lia|exact Hr|exact Hc].
    + destruct (IH (S i) s st st' Hdrop' ltac:(lia) Hsame Hlater Hdone Hrun)
        as (s' & Hs' & Hsame' & Hlater' & Hdone' & Hcuts).
      exists s'. split; [lia|]. split; [exact Hsame'|]. split; [exact Hlater'|].
      split; [exact Hdone'|].
      intros idx r Hge Hr Hc.
      destruct (decide (idx = i)) as [->|Hne].
      * assert (r = row) by congruence. subst r. contradiction.
      * apply (Hcuts idx r); [lia|exact Hr|exact Hc].
Qed.

End RenderedRows.

Lemma zip_concat_rows {R A B : Type} (f : R -> list A) (g : R -> list B) (l : list R) :
  Forall (fun r => length (f r) = length (g r)) l ->
  zip (concat (f <$> l)) (concat (g <$> l)) = concat ((fun r => zip (f r) (g r)) <$> l) /\
  length (concat (f <$> l)) = length (concat (g <$> l)).
Proof.
  induction 1 as [|r l Hr Hl [IH1 IH2]]; [split; reflexivity|].
  cbn [fmap list_fmap concat]. split.
  - rewrite zip_with_app by exact Hr. now rewrite IH1.
  - rewrite !length_app. congruence.
Qed.

Lemma elem_of_concat_fmap {R A : Type} (f : R -> list A) (l : list R) (x : A) :
  x ∈ concat (f <$> l) -> exists r, r ∈ l /\ x ∈ f r.
Proof.
  induction l as [|r l IH]; cbn [fmap list_fmap concat].
  - intros H. now apply elem_of_nil in H.
  - intros H. apply elem_of_app in H as [H|H].
    + exists r. split; [left|exact H].
    + destruct (IH H) as (r' & Hr' & Hx). exists r'. split; [now right|exact Hx].
Qed.

(** X19. The renderer feeds the merger well-formed data.  When
    [merge_chunks] returns on a frame with distinct numbers whose last row
    carries a cut mark, every row has one interval per line, so
    [load_and_flatten_data] does not fail, [get_audio_files] lists as many
    clips as there are intervals and lines, and pairing them in order (the
    [zip] of [merge_audio_segments]) pairs the output clip of line [j] of a
    row with interval [j] of that same row. *)
Theorem merge_chunks_feeds_merger
    (atempo : Audio.path -> Q -> nat -> option Q) (cfg : config)
    (st st' : Audio.state) (last_row : Audio.task)
    (Hnodup : NoDup (Audio.number <$> fst st))
    (Hlast : last (fst st) = Some last_row)
    (Hcut : Audio.cut_off last_row = 1%Z)
    (Hrun : Audio.merge_chunks atempo cfg st = Ok st') :
  exists lines new_sub_times,
    Merge.load_and_flatten_data (fst st') = Ok (lines, new_sub_times) /\
    length (Merge.get_audio_files (fst st')) = length new_sub_times /\
    length lines = length new_sub_times /\
    forall p iv,
      (p, iv) ∈ zip (Merge.get_audio_files (fst st')) new_sub_times ->
      exists r times j,
        r ∈ fst st' /\ Audio.new_sub_times r = Some times /\
        p = Audio.OUTPUT_FILE (Audio.number r) (Z.of_nat j) /\
        times !! j = Some iv.
Proof.
  unfold Audio.merge_chunks in Hrun.
  set (df0 := Audio.set_new_sub_times None <$> fst st) in *.
  assert (Hnodup0 : NoDup (Audio.number <$> df0)).
  { unfold df0. rewrite <- list_fmap_compose.
    erewrite list_fmap_ext; [exact Hnodup|]. intros i r _. destruct r; reflexivity. }
  assert (Hfresh : forall q r, df0 !! q = Some r -> Audio.new_sub_times r = None).
  { intros q r Hr. unfold df0 in Hr. rewrite list_lookup_fmap in Hr.
    destruct (fst st !! q); [|discriminate]. now injection Hr as <-. }
  destruct (merge_chunks_loop_rows atempo cfg df0 Hnodup0 Hfresh df0 0 0 (df0, snd st) st')
    as (s' & Hs' & Hsame & _ & Hdone & Hcuts).
  { reflexivity. }
  { lia. }
  { apply same_task_refl. }
  { reflexivity. }
  { intros q r Hq. lia. }
  { exact Hrun. }
  assert (Hlen0 : length df0 = length (fst st')) by exact (Forall2_length _ _ _ Hsame).
  assert (Hall : Forall timed (fst st')).
  { apply Forall_forall. intros r Hr. apply list_elem_of_lookup_1 in Hr as [q Hq].
    apply (Hdone q r); [|exact Hq].
    assert (Hl : last df0 = Some (Audio.set_new_sub_times None last_row))
      by (unfold df0; now rewrite fmap_last, Hlast).
    rewrite last_lookup in Hl.
    pose proof (Hcuts _ _ (Nat.le_0_l _) Hl Hcut) as Hlt.
    apply lookup_lt_Some in Hq. lia. }
  set (times_of := fun r : Audio.task => default [] (Audio.new_sub_times r)).
  set (files_of := fun r : Audio.task =>
         imap (fun line_index (_ : string) =>
                 Audio.OUTPUT_FILE (Audio.number r) (Z.of_nat line_index))
              (Audio.lines r)).
  assert (Htimes : forall r, r ∈ fst st' ->
            Audio.new_sub_times r = Some (times_of r) /\
            length (times_of r) = length (Audio.lines r)).
  { intros r Hr. rewrite Forall_forall in Hall.
    destruct (Hall r Hr) as (ts & Hts & Hlen). unfold times_of. rewrite Hts.
    split; [reflexivity|exact Hlen]. }
  exists (concat (Audio.lines <$> fst st')), (concat (times_of <$> fst st')).
  assert (Hzip1 : Forall (fun r => length (files_of r) = length (times_of r)) (fst st')).
  { apply Forall_forall. intros r Hr. unfold files_of. rewrite length_imap.
    symmetry. exact (proj2 (Htimes r Hr)). }
  assert (Hzip2 : Forall (fun r => length (Audio.lines r) = length (times_of r))
                         (fst st')).
  { apply Forall_forall. intros r Hr. symmetry. exact (proj2 (Htimes r Hr)). }
  split; [|split; [|split]].
  - unfold Merge.load_and_flatten_data.
    rewrite (mapM_ok_fmap _ times_of); [reflexivity|].
    intros r Hr. now rewrite (proj1 (Htimes r Hr)).
  - exact (proj2 (zip_concat_rows files_of times_of _ Hzip1)).
  - exact (proj2 (zip_concat_rows Audio.lines times_of _ Hzip2)).
  - intros p iv Hin. unfold Merge.get_audio_files in Hin. fold files_of in Hin.
    rewrite (proj1 (zip_concat_rows files_of times_of _ Hzip1)) in Hin.
    apply elem_of_concat_fmap in Hin as (r & Hr & Hin).
    apply elem_of_lookup_zip_with_1 in Hin as (j & x & y & Heq & Hx & Hy).
    injection Heq as -> ->.
    unfold files_of in Hx. rewrite list_lookup_imap in Hx.
    destruct (Audio.lines r !! j); [|discriminate]. injection Hx as <-.
    exists r, (times_of r), j. split; [exact Hr|].
    split; [exact (proj1 (Htimes r Hr))|]. split; [reflexivity|exact Hy].
Qed.

Lemma merge_chunks_feeds_merger_witness :
  exists st' lines new_sub_times,
    Audio.merge_chunks (render_example_atempo (2515 # 100)) example_config
      (render_example_frame, render_example_files) = Ok st' /\
    Merge.load_and_flatten_data (fst st') = Ok (lines, new_sub_times) /\
    length (Merge.get_audio_files (fst st')) = length new_sub_times.
Proof.
  destruct (Audio.merge_chunks (render_example_atempo (2515 # 100)) example_config
              (render_example_frame, render_example_files)) as [st'|e] eqn:Hrun.
  2:{ vm_compute in Hrun. discriminate. }
  destruct (merge_chunks_feeds_merger (render_example_atempo (2515 # 100)) example_config
              (render_example_frame, render_example_files) st'
              (Audio.Task 2 (Audio.SrtTime 0 0 25 0) (Audio.SrtTime 0 0 25 350)
                          0 0 (35 # 100) 1 [EmptyString] (3 # 10) None))
    as (lines & times & Hload & Hlen & _).
  - cbn. apply NoDup_cons. split; [|apply NoDup_singleton].
    intros H. apply list_elem_of_singleton in H. discriminate.
  - reflexivity.
  - reflexivity.
  - exact Hrun.
  - exists st', lines, times. split; [reflexivity|]. split; [exact Hload|exact Hlen].
Defined.
